(** * Thread creation in bionic: [libc/bionic/pthread_create.cpp]

    A shallow embedding of the thread-mapping allocator, the scheduling
    initialiser and [pthread_create], over an explicit model of the
    operating-system state the code talks to (mappings, page protections,
    kernel threads, [errno]) and a script of the kernel's replies. *)

From Stdlib Require Import ZArith List Lia Bool String.
Import ListNotations.
Local Open Scope Z_scope.

(* ================================================================= *)
(** ** Platform constants *)

(** Modelled from the spec: the constants of the headers the source
    includes ([limits.h], [errno.h], [sched.h], [sys/mman.h],
    [pthread_internal.h]), which are not among the sources.  The spec
    names them by their role (the platform page size, the minimum
    per-thread guard, the resource-exhaustion error, the detached,
    inherit and explicit attribute flags, the normal policy and the
    reset-on-fork modifier); the values are those of bionic on Linux. *)
Definition PAGE_SIZE : Z := 4096.
Definition PTHREAD_GUARD_SIZE : Z := PAGE_SIZE.
Definition EAGAIN : Z := 11.
Definition ENOMEM : positive := 12%positive.
Definition MAP_FAILED : Z := -1.

Definition PTHREAD_ATTR_FLAG_DETACHED : Z := 1.
Definition PTHREAD_ATTR_FLAG_INHERIT : Z := 4.
Definition PTHREAD_ATTR_FLAG_EXPLICIT : Z := 8.
Definition SCHED_NORMAL : Z := 0.
Definition SCHED_RESET_ON_FORK : Z := 1073741824.

(* ================================================================= *)
(** ** Data model *)

(** [pthread_attr_t], the fields the source reads and writes. *)
Record pthread_attr_t := mk_attr {
  flags : Z;
  attr_stack_base : Z;
  stack_size : Z;
  guard_size : Z;
  sched_policy : Z;
  sched_priority : Z
}.

(** The build target: the data model ([__LP64__]), the size of the
    bookkeeping structure, the process-wide static TLS layout and the
    attributes [pthread_attr_init] produces. *)
Record target := mk_target {
  lp64 : bool;
  sizeof_pthread_internal_t : Z;
  layout_size : Z;
  layout_offset_bionic_tcb : Z;
  layout_offset_bionic_tls : Z;
  stack_chk_guard : Z;
  pthread_attr_init : pthread_attr_t;
  has_tls_slot_self : bool;
  aarch64 : bool;
  SIGNAL_STACK_SIZE : Z;
  SCS_SIZE : Z;
  SCS_GUARD_REGION_SIZE : Z
}.

(** [ThreadMapping]; [{}] is [empty_mapping]. *)
Record ThreadMapping := mk_mapping {
  mmap_base : Z;
  mmap_size : Z;
  static_tls : Z;
  stack_base : Z;
  stack_top : Z
}.

Definition empty_mapping : ThreadMapping := mk_mapping 0 0 0 0 0.

Inductive ThreadJoinState :=
| THREAD_NOT_JOINED
| THREAD_EXITED_NOT_JOINED
| THREAD_JOINED
| THREAD_DETACHED.

(** A start routine: a function pointer of the caller, or the file's own
    static [__do_nothing]. *)
Inductive start_fn :=
| null_routine
| user_routine (f : Z)
| __do_nothing.

Inductive Lock := Unlocked | LockedWithoutWaiter.

(** [pthread_internal_t]. *)
Record pthread_internal_t := mk_thread {
  attr : pthread_attr_t;
  tid : Z;
  join_state : ThreadJoinState;
  cleanup_stack : Z;
  thread_mmap_base : Z;
  thread_mmap_size : Z;
  start_routine : start_fn;
  start_routine_arg : Z;
  startup_handshake_lock : Lock;
  cached_pid : Z;
  bionic_tls : Z;
  alternate_signal_stack : Z;
  shadow_call_stack_guard_region : Z
}.

Definition zero_attr : pthread_attr_t := mk_attr 0 0 0 0 0 0.

(** Freshly mapped anonymous memory reads as zero. *)
Definition zero_thread : pthread_internal_t :=
  mk_thread zero_attr 0 THREAD_NOT_JOINED 0 0 0 null_routine 0 Unlocked 0 0 0 0.

(** [bionic_tcb], the slots the source installs. *)
Record bionic_tcb := mk_tcb {
  slot_self : Z;
  slot_thread_id : Z;
  slot_stack_guard : Z;
  slot_dtv : Z;
  slot_bionic_tls : Z
}.

Definition zero_tcb : bionic_tcb := mk_tcb 0 0 0 0 0.

(* ================================================================= *)
(** ** The operating system *)

Inductive prot := PROT_NONE | PROT_READ_WRITE.

(** A reply of the kernel: a value, or failure with a (non-zero) errno. *)
Inductive reply (A : Type) :=
| Ok (a : A)
| Err (e : positive).
Arguments Ok {A} a.
Arguments Err {A} e.

Inductive event :=
| EvRandom (upper result : Z)
| EvMmap (len : Z) (p : prot) (result : Z)
| EvMprotect (addr len : Z) (p : prot) (result : Z)
| EvMunmap (addr len : Z)
| EvPrctlName (addr len : Z) (name : string)
| EvLog (msg : string)
| EvClone (child_stack thread : Z) (result : Z)
| EvSchedGetscheduler (result : Z)
| EvSchedGetparam (result : Z)
| EvSchedSetscheduler (tid policy prio : Z) (result : Z)
| EvRegister (thread : Z)
| EvLock (thread : Z)
| EvUnlock (thread : Z)
| EvSigaltstack (sp size : Z)
| EvSetX18 (scs : Z)
| EvRun (thread : Z) (fn : start_fn) (arg : Z).

(** What the kernel will answer, one list per system call, next reply
    first.  A call that finds its list empty gets the default written at
    the call. *)
Record kernel := mk_kernel {
  random_source : list Z;
  mmap_replies : list (reply positive);
  mprotect_replies : list (reply unit);
  clone_replies : list (reply positive);
  getscheduler_replies : list (reply N);
  getparam_replies : list (reply Z);
  setscheduler_replies : list (reply unit)
}.

Record world := mk_world {
  errno : Z;
  mappings : list (Z * Z);
  protections : list (Z * Z * prot);
  kernel_threads : list Z;
  thread_list : list Z;
  threads : list (Z * pthread_internal_t);
  tcbs : list (Z * bionic_tcb);
  trace : list event;
  pid : Z;
  replies : kernel
}.

Definition set_errno (e : Z) (w : world) : world :=
  mk_world e (mappings w) (protections w) (kernel_threads w) (thread_list w)
    (threads w) (tcbs w) (trace w) (pid w) (replies w).

Definition set_mappings (m : list (Z * Z)) (w : world) : world :=
  mk_world (errno w) m (protections w) (kernel_threads w) (thread_list w)
    (threads w) (tcbs w) (trace w) (pid w) (replies w).

Definition set_protections (p : list (Z * Z * prot)) (w : world) : world :=
  mk_world (errno w) (mappings w) p (kernel_threads w) (thread_list w)
    (threads w) (tcbs w) (trace w) (pid w) (replies w).

Definition set_kernel_threads (k : list Z) (w : world) : world :=
  mk_world (errno w) (mappings w) (protections w) k (thread_list w)
    (threads w) (tcbs w) (trace w) (pid w) (replies w).

Definition set_thread_list (l : list Z) (w : world) : world :=
  mk_world (errno w) (mappings w) (protections w) (kernel_threads w) l
    (threads w) (tcbs w) (trace w) (pid w) (replies w).

Definition set_threads (t : list (Z * pthread_internal_t)) (w : world) : world :=
  mk_world (errno w) (mappings w) (protections w) (kernel_threads w)
    (thread_list w) t (tcbs w) (trace w) (pid w) (replies w).

Definition set_tcbs (t : list (Z * bionic_tcb)) (w : world) : world :=
  mk_world (errno w) (mappings w) (protections w) (kernel_threads w)
    (thread_list w) (threads w) t (trace w) (pid w) (replies w).

Definition emit (e : event) (w : world) : world :=
  mk_world (errno w) (mappings w) (protections w) (kernel_threads w)
    (thread_list w) (threads w) (tcbs w) (e :: trace w) (pid w) (replies w).

Definition set_replies (k : kernel) (w : world) : world :=
  mk_world (errno w) (mappings w) (protections w) (kernel_threads w)
    (thread_list w) (threads w) (tcbs w) (trace w) (pid w) k.

(** *** The state monad of the model *)

Definition M (A : Type) : Type := world -> A * world.

Definition ret {A} (a : A) : M A := fun w => (a, w).

Definition bind {A B} (c : M A) (k : A -> M B) : M B :=
  fun w => let (a, w1) := c w in k a w1.

Declare Scope os_scope.
Delimit Scope os_scope with os.
Notation "x <- c ;; k" := (bind c (fun x => k))
  (at level 100, c at next level, right associativity) : os_scope.
Notation "c ;;; k" := (bind c (fun _ => k))
  (at level 100, right associativity) : os_scope.
Local Open Scope os_scope.

Definition modify (f : world -> world) : M unit := fun w => (tt, f w).
Definition gets {A} (f : world -> A) : M A := fun w => (f w, w).

(** *** Fixed-width arithmetic *)

Definition wrap (bits x : Z) : Z := x mod 2 ^ bits.

Definition uint32 (x : Z) : Z := wrap 32 x.

(** Modelled from the spec: the macro [__BIONIC_ALIGN] of
    [private/bionic_macros.h], which is not among the sources; the spec
    has every size rounded up to the platform page size.  The macro is
    [((value + alignment - 1) & ~(alignment - 1))], evaluated in the
    unsigned type of [value], [bits] wide, so the addition wraps. *)
Definition BIONIC_ALIGN (bits value alignment : Z) : Z :=
  Z.land (wrap bits (value + alignment - 1)) (Z.lnot (alignment - 1)).

(** Modelled from the spec: the macro [__BIONIC_ALIGN_DOWN] of
    [private/bionic_macros.h], not among the sources; the spec has the
    stack top aligned to the platform's stack alignment.  The macro is
    [(value & ~(alignment - 1))]. *)
Definition BIONIC_ALIGN_DOWN (value alignment : Z) : Z :=
  Z.land value (Z.lnot (alignment - 1)).

(** The compiler builtin: the overflow flag and the wrapped sum. *)
Definition builtin_add_overflow (bits a b : Z) : bool * Z :=
  (2 ^ bits <=? a + b, wrap bits (a + b)).

(** *** System calls *)

Definition log (msg : string) : M unit := modify (emit (EvLog msg)).

Definition pop_random (k : kernel) : kernel :=
  mk_kernel (tl (random_source k)) (mmap_replies k) (mprotect_replies k)
    (clone_replies k) (getscheduler_replies k) (getparam_replies k)
    (setscheduler_replies k).

Definition pop_mmap (k : kernel) : kernel :=
  mk_kernel (random_source k) (tl (mmap_replies k)) (mprotect_replies k)
    (clone_replies k) (getscheduler_replies k) (getparam_replies k)
    (setscheduler_replies k).

Definition pop_mprotect (k : kernel) : kernel :=
  mk_kernel (random_source k) (mmap_replies k) (tl (mprotect_replies k))
    (clone_replies k) (getscheduler_replies k) (getparam_replies k)
    (setscheduler_replies k).

Definition pop_clone (k : kernel) : kernel :=
  mk_kernel (random_source k) (mmap_replies k) (mprotect_replies k)
    (tl (clone_replies k)) (getscheduler_replies k) (getparam_replies k)
    (setscheduler_replies k).

Definition pop_getscheduler (k : kernel) : kernel :=
  mk_kernel (random_source k) (mmap_replies k) (mprotect_replies k)
    (clone_replies k) (tl (getscheduler_replies k)) (getparam_replies k)
    (setscheduler_replies k).

Definition pop_getparam (k : kernel) : kernel :=
  mk_kernel (random_source k) (mmap_replies k) (mprotect_replies k)
    (clone_replies k) (getscheduler_replies k) (tl (getparam_replies k))
    (setscheduler_replies k).

Definition pop_setscheduler (k : kernel) : kernel :=
  mk_kernel (random_source k) (mmap_replies k) (mprotect_replies k)
    (clone_replies k) (getscheduler_replies k) (getparam_replies k)
    (tl (setscheduler_replies k)).

(** [arc4random_uniform(upper_bound)]: the parameter is a [uint32_t]; the
    result is 0 below 2 and otherwise some value less than the bound, here
    the next raw value of the random source reduced modulo the bound. *)
Definition arc4random_uniform (upper_bound : Z) : M Z :=
  fun w =>
    let ub := uint32 upper_bound in
    if ub <? 2 then (0, w)
    else
      let r := hd 0 (random_source (replies w)) mod ub in
      (r, emit (EvRandom ub r) (set_replies (pop_random (replies w)) w)).

(** The kernel works on whole pages. *)
Definition page_round_up (n : Z) : Z := PAGE_SIZE * ((n + PAGE_SIZE - 1) / PAGE_SIZE).

(** [mmap(nullptr, len, prot, MAP_PRIVATE | MAP_ANONYMOUS | ..., -1, 0)]:
    on success a new mapping at a page-aligned, non-null address chosen by
    the kernel; on failure [MAP_FAILED] and [errno]. *)
Definition mmap (len : Z) (p : prot) : M Z :=
  fun w =>
    let w1 := set_replies (pop_mmap (replies w)) w in
    match hd (Err ENOMEM) (mmap_replies (replies w)) with
    | Ok page =>
        let base := PAGE_SIZE * Z.pos page in
        (base,
         emit (EvMmap len p base)
           (set_protections ((base, page_round_up len, p) :: protections w1)
              (set_mappings ((base, len) :: mappings w1) w1)))
    | Err e =>
        (MAP_FAILED, emit (EvMmap len p MAP_FAILED) (set_errno (Z.pos e) w1))
    end.

(** [mprotect(addr, len, prot)]: on success the pages of
    [addr, addr + len) take the new protection. *)
Definition mprotect (addr len : Z) (p : prot) : M Z :=
  fun w =>
    let w1 := set_replies (pop_mprotect (replies w)) w in
    match hd (Ok tt) (mprotect_replies (replies w)) with
    | Ok _ =>
        (0, emit (EvMprotect addr len p 0)
              (set_protections ((addr, page_round_up len, p) :: protections w1) w1))
    | Err e =>
        (-1, emit (EvMprotect addr len p (-1)) (set_errno (Z.pos e) w1))
    end.

Definition region_eqb (r s : Z * Z) : bool :=
  (fst r =? fst s) && (snd r =? snd s).

Fixpoint remove_region (r : Z * Z) (l : list (Z * Z)) : list (Z * Z) :=
  match l with
  | [] => []
  | s :: l' => if region_eqb r s then l' else s :: remove_region r l'
  end.

Definition inside (addr len a : Z) : bool := (addr <=? a) && (a <? addr + len).

(** [munmap(addr, len)]: the mapping is gone.  (The model keeps what was
    last written at an address in [threads] and [tcbs]; whether the
    address is still mapped is what [mappings] says.) *)
Definition munmap (addr len : Z) : M Z :=
  fun w =>
    (0, emit (EvMunmap addr len)
          (set_mappings (remove_region (addr, len) (mappings w)) w)).

(** [prctl(PR_SET_VMA, PR_SET_VMA_ANON_NAME, addr, len, name)] names a
    region; it changes nothing the model tracks. *)
Definition prctl_set_vma_name (addr len : Z) (name : string) : M unit :=
  modify (emit (EvPrctlName addr len name)).

(** The protection of the page holding [a], if it is mapped: the latest
    protection change that covers it. *)
Fixpoint prot_lookup (l : list (Z * Z * prot)) (a : Z) : option prot :=
  match l with
  | [] => None
  | (addr, len, p) :: l' => if inside addr len a then Some p else prot_lookup l' a
  end.

Definition prot_at (w : world) (a : Z) : option prot :=
  if existsb (fun r => inside (fst r) (snd r) a) (mappings w)
  then prot_lookup (protections w) a
  else None.

(* ================================================================= *)
(** ** [__allocate_thread_mapping] *)

Section Target.

Variable T : target.

Definition size_bits : Z := if lp64 T then 64 else 32.

Definition SIZE_MAX : Z := 2 ^ size_bits - 1.

Definition thread_page_size : Z :=
  BIONIC_ALIGN size_bits (sizeof_pthread_internal_t T) PAGE_SIZE.

Definition max_gap_size (stack_size : Z) : Z :=
  if lp64 T then stack_size / 2 else stack_size / 10.

Definition __allocate_thread_mapping (stack_size stack_guard_size : Z) : M ThreadMapping :=
  (* Place a randomly sized gap above the stack. *)
  r <- arc4random_uniform (max_gap_size stack_size) ;;
  (* The random value is a uint32_t: the macro rounds it in 32 bits. *)
  let gap_size := BIONIC_ALIGN 32 r PAGE_SIZE in
  let '(o1, s1) := builtin_add_overflow size_bits stack_size stack_guard_size in
  if o1 then ret empty_mapping else
  let '(o2, s2) := builtin_add_overflow size_bits s1 gap_size in
  if o2 then ret empty_mapping else
  let '(o3, s3) := builtin_add_overflow size_bits s2 thread_page_size in
  if o3 then ret empty_mapping else
  let '(o4, s4) := builtin_add_overflow size_bits s3 (layout_size T) in
  if o4 then ret empty_mapping else
  let '(o5, s5) := builtin_add_overflow size_bits s4 PTHREAD_GUARD_SIZE in
  if o5 then ret empty_mapping else
  (* Align the result to a page size. *)
  let unaligned_size := s5 in
  let mmap_size := BIONIC_ALIGN size_bits s5 PAGE_SIZE in
  if mmap_size <? unaligned_size then ret empty_mapping else
  space <- mmap mmap_size PROT_NONE ;;
  if space =? MAP_FAILED then
    log "pthread_create failed: couldn't allocate %zu-bytes mapped space: %s" ;;;
    ret empty_mapping
  else
  rc1 <- mprotect (space + stack_guard_size) stack_size PROT_READ_WRITE ;;
  if rc1 =? -1 then
    log "pthread_create failed: couldn't mprotect R+W %zu-byte thread mapping region: %s" ;;;
    _ <- munmap space mmap_size ;;
    ret empty_mapping
  else
  prctl_set_vma_name space stack_guard_size "stack guard" ;;;
  let stack_top_guard := space + stack_guard_size + stack_size in
  prctl_set_vma_name stack_top_guard gap_size "stack top guard" ;;;
  let thread := space + stack_guard_size + stack_size + gap_size in
  let static_tls_space := thread + thread_page_size in
  rc2 <- mprotect thread (wrap size_bits (thread_page_size + layout_size T)) PROT_READ_WRITE ;;
  if negb (rc2 =? 0) then
    log "pthread_create failed: couldn't mprotect R+W %zu-byte thread mapping region: %s" ;;;
    _ <- munmap space mmap_size ;;
    ret empty_mapping
  else
  (* Choose a random base within the first page of the stack. *)
  r2 <- arc4random_uniform (sizeof_pthread_internal_t T) ;;
  let top := space + stack_guard_size + stack_size - r2 in
  ret (mk_mapping space mmap_size static_tls_space space (BIONIC_ALIGN_DOWN top 16)).

(* ================================================================= *)
(** ** Thread and TCB objects in memory *)

Fixpoint lookup {A} (p : Z) (l : list (Z * A)) : option A :=
  match l with
  | [] => None
  | (q, a) :: l' => if p =? q then Some a else lookup p l'
  end.

Definition thread_at (w : world) (p : Z) : pthread_internal_t :=
  match lookup p (threads w) with Some t => t | None => zero_thread end.

Definition tcb_at (w : world) (p : Z) : bionic_tcb :=
  match lookup p (tcbs w) with Some t => t | None => zero_tcb end.

Definition load_thread (p : Z) : M pthread_internal_t := gets (fun w => thread_at w p).

Definition update_thread (p : Z) (f : pthread_internal_t -> pthread_internal_t) : M unit :=
  modify (fun w => set_threads ((p, f (thread_at w p)) :: threads w) w).

Definition update_tcb (p : Z) (f : bionic_tcb -> bionic_tcb) : M unit :=
  modify (fun w => set_tcbs ((p, f (tcb_at w p)) :: tcbs w) w).

Definition set_attr (a : pthread_attr_t) (t : pthread_internal_t) : pthread_internal_t :=
  mk_thread a (tid t) (join_state t) (cleanup_stack t) (thread_mmap_base t)
    (thread_mmap_size t) (start_routine t) (start_routine_arg t)
    (startup_handshake_lock t) (cached_pid t) (bionic_tls t)
    (alternate_signal_stack t) (shadow_call_stack_guard_region t).

Definition set_tid (v : Z) (t : pthread_internal_t) : pthread_internal_t :=
  mk_thread (attr t) v (join_state t) (cleanup_stack t) (thread_mmap_base t)
    (thread_mmap_size t) (start_routine t) (start_routine_arg t)
    (startup_handshake_lock t) (cached_pid t) (bionic_tls t)
    (alternate_signal_stack t) (shadow_call_stack_guard_region t).

Definition set_join_state (v : ThreadJoinState) (t : pthread_internal_t) : pthread_internal_t :=
  mk_thread (attr t) (tid t) v (cleanup_stack t) (thread_mmap_base t)
    (thread_mmap_size t) (start_routine t) (start_routine_arg t)
    (startup_handshake_lock t) (cached_pid t) (bionic_tls t)
    (alternate_signal_stack t) (shadow_call_stack_guard_region t).

Definition set_cleanup_stack (v : Z) (t : pthread_internal_t) : pthread_internal_t :=
  mk_thread (attr t) (tid t) (join_state t) v (thread_mmap_base t)
    (thread_mmap_size t) (start_routine t) (start_routine_arg t)
    (startup_handshake_lock t) (cached_pid t) (bionic_tls t)
    (alternate_signal_stack t) (shadow_call_stack_guard_region t).

Definition set_mmap (base size : Z) (t : pthread_internal_t) : pthread_internal_t :=
  mk_thread (attr t) (tid t) (join_state t) (cleanup_stack t) base
    size (start_routine t) (start_routine_arg t)
    (startup_handshake_lock t) (cached_pid t) (bionic_tls t)
    (alternate_signal_stack t) (shadow_call_stack_guard_region t).

Definition set_start_routine (v : start_fn) (t : pthread_internal_t) : pthread_internal_t :=
  mk_thread (attr t) (tid t) (join_state t) (cleanup_stack t) (thread_mmap_base t)
    (thread_mmap_size t) v (start_routine_arg t)
    (startup_handshake_lock t) (cached_pid t) (bionic_tls t)
    (alternate_signal_stack t) (shadow_call_stack_guard_region t).

Definition set_start_routine_arg (v : Z) (t : pthread_internal_t) : pthread_internal_t :=
  mk_thread (attr t) (tid t) (join_state t) (cleanup_stack t) (thread_mmap_base t)
    (thread_mmap_size t) (start_routine t) v
    (startup_handshake_lock t) (cached_pid t) (bionic_tls t)
    (alternate_signal_stack t) (shadow_call_stack_guard_region t).

Definition set_lock (v : Lock) (t : pthread_internal_t) : pthread_internal_t :=
  mk_thread (attr t) (tid t) (join_state t) (cleanup_stack t) (thread_mmap_base t)
    (thread_mmap_size t) (start_routine t) (start_routine_arg t)
    v (cached_pid t) (bionic_tls t)
    (alternate_signal_stack t) (shadow_call_stack_guard_region t).

Definition set_cached_pid (v : Z) (t : pthread_internal_t) : pthread_internal_t :=
  mk_thread (attr t) (tid t) (join_state t) (cleanup_stack t) (thread_mmap_base t)
    (thread_mmap_size t) (start_routine t) (start_routine_arg t)
    (startup_handshake_lock t) v (bionic_tls t)
    (alternate_signal_stack t) (shadow_call_stack_guard_region t).

Definition set_bionic_tls (v : Z) (t : pthread_internal_t) : pthread_internal_t :=
  mk_thread (attr t) (tid t) (join_state t) (cleanup_stack t) (thread_mmap_base t)
    (thread_mmap_size t) (start_routine t) (start_routine_arg t)
    (startup_handshake_lock t) (cached_pid t) v
    (alternate_signal_stack t) (shadow_call_stack_guard_region t).

Definition set_alternate_signal_stack (v : Z) (t : pthread_internal_t) : pthread_internal_t :=
  mk_thread (attr t) (tid t) (join_state t) (cleanup_stack t) (thread_mmap_base t)
    (thread_mmap_size t) (start_routine t) (start_routine_arg t)
    (startup_handshake_lock t) (cached_pid t) (bionic_tls t)
    v (shadow_call_stack_guard_region t).

Definition set_shadow_call_stack_guard_region (v : Z) (t : pthread_internal_t) : pthread_internal_t :=
  mk_thread (attr t) (tid t) (join_state t) (cleanup_stack t) (thread_mmap_base t)
    (thread_mmap_size t) (start_routine t) (start_routine_arg t)
    (startup_handshake_lock t) (cached_pid t) (bionic_tls t)
    (alternate_signal_stack t) v.

Definition set_guard_size (v : Z) (a : pthread_attr_t) : pthread_attr_t :=
  mk_attr (flags a) (attr_stack_base a) (stack_size a) v (sched_policy a) (sched_priority a).

Definition set_stack_base (v : Z) (a : pthread_attr_t) : pthread_attr_t :=
  mk_attr (flags a) v (stack_size a) (guard_size a) (sched_policy a) (sched_priority a).

Definition set_stack_size (v : Z) (a : pthread_attr_t) : pthread_attr_t :=
  mk_attr (flags a) (attr_stack_base a) v (guard_size a) (sched_policy a) (sched_priority a).

(** Modelled from the spec: the class [Lock] of [private/bionic_lock.h],
    not among the sources; the spec's one-shot gate with two states,
    locked and unlocked.  [lock_init] is [Lock::init(false)], [lock_lock]
    is [Lock::lock()] by the creator on the lock it has just initialised,
    [lock_unlock] is [Lock::unlock()]; a [lock()] on a lock that is held
    blocks, see [__pthread_start]. *)
Definition lock_init (thread : Z) : M unit := update_thread thread (set_lock Unlocked).

Definition lock_lock (thread : Z) : M unit :=
  update_thread thread (set_lock LockedWithoutWaiter) ;;; modify (emit (EvLock thread)).

Definition lock_unlock (thread : Z) : M unit :=
  update_thread thread (set_lock Unlocked) ;;; modify (emit (EvUnlock thread)).

(* ================================================================= *)
(** ** TCB initialisation *)

Definition __init_tcb (tcb thread : Z) : M unit :=
  (if has_tls_slot_self T
   then update_tcb tcb (fun b => mk_tcb tcb (slot_thread_id b) (slot_stack_guard b) (slot_dtv b) (slot_bionic_tls b))
   else ret tt) ;;;
  update_tcb tcb (fun b => mk_tcb (slot_self b) thread (slot_stack_guard b) (slot_dtv b) (slot_bionic_tls b)).

Definition __init_tcb_stack_guard (tcb : Z) : M unit :=
  update_tcb tcb (fun b => mk_tcb (slot_self b) (slot_thread_id b) (stack_chk_guard T) (slot_dtv b) (slot_bionic_tls b)).

(** The DTV slot points to the static [zero_dtv]; the model writes a
    fixed token for its address. *)
Definition zero_dtv : Z := 1.

Definition __init_tcb_dtv (tcb : Z) : M unit :=
  update_tcb tcb (fun b => mk_tcb (slot_self b) (slot_thread_id b) (slot_stack_guard b) zero_dtv (slot_bionic_tls b)).

(** Modelled from the spec: [bionic_tcb::thread()] of
    [private/bionic_tls.h], not among the sources; the control block's
    slot that points to the owning bookkeeping structure. *)
Definition tcb_thread (tcb : Z) : M Z := gets (fun w => slot_thread_id (tcb_at w tcb)).

Definition __init_bionic_tls_ptrs (tcb tls : Z) : M unit :=
  thread <- tcb_thread tcb ;;
  update_thread thread (set_bionic_tls tls) ;;;
  update_tcb tcb (fun b => mk_tcb (slot_self b) (slot_thread_id b) (slot_stack_guard b) (slot_dtv b) tls).

(* ================================================================= *)
(** ** Scheduling system calls *)

Definition sched_getscheduler : M Z :=
  fun w =>
    let w1 := set_replies (pop_getscheduler (replies w)) w in
    match hd (Ok 0%N) (getscheduler_replies (replies w)) with
    | Ok policy => (Z.of_N policy, emit (EvSchedGetscheduler (Z.of_N policy)) w1)
    | Err e => (-1, emit (EvSchedGetscheduler (-1)) (set_errno (Z.pos e) w1))
    end.

(** [sched_getparam(0, &param)]: the return value and [param.sched_priority]. *)
Definition sched_getparam : M (Z * Z) :=
  fun w =>
    let w1 := set_replies (pop_getparam (replies w)) w in
    match hd (Ok 0) (getparam_replies (replies w)) with
    | Ok prio => ((0, prio), emit (EvSchedGetparam 0) w1)
    | Err e => ((-1, 0), emit (EvSchedGetparam (-1)) (set_errno (Z.pos e) w1))
    end.

Definition sched_setscheduler (tid policy prio : Z) : M Z :=
  fun w =>
    let w1 := set_replies (pop_setscheduler (replies w)) w in
    match hd (Ok tt) (setscheduler_replies (replies w)) with
    | Ok _ => (0, emit (EvSchedSetscheduler tid policy prio 0) w1)
    | Err e => (-1, emit (EvSchedSetscheduler tid policy prio (-1)) (set_errno (Z.pos e) w1))
    end.

(* ================================================================= *)
(** ** [__init_thread] *)

Definition __init_thread (thread : Z) : M Z :=
  update_thread thread (set_cleanup_stack 0) ;;;
  t <- load_thread thread ;;
  (if Z.land (flags (attr t)) PTHREAD_ATTR_FLAG_DETACHED =? 0
   then update_thread thread (set_join_state THREAD_NOT_JOINED)
   else update_thread thread (set_join_state THREAD_DETACHED)) ;;;
  (* Set the scheduling policy/priority of the thread if necessary:
     an early return, or (need_set, policy, param.sched_priority). *)
  q <- (if negb (Z.land (flags (attr t)) PTHREAD_ATTR_FLAG_INHERIT =? 0) then
          policy <- sched_getscheduler ;;
          let need_set := negb (Z.land policy SCHED_RESET_ON_FORK =? 0) in
          if need_set then
            if policy =? -1 then
              log "pthread_create sched_getscheduler failed: %s" ;;;
              e <- gets errno ;;
              ret (inl e)
            else
              g <- sched_getparam ;;
              if fst g =? -1 then
                log "pthread_create sched_getparam failed: %s" ;;;
                e <- gets errno ;;
                ret (inl e)
              else ret (inr (need_set, policy, snd g))
          else ret (inr (need_set, policy, 0))
        else
          ret (inr (true, sched_policy (attr t), sched_priority (attr t)))) ;;
  match q with
  | inl e => ret e
  | inr (need_set, policy, prio) =>
      (* Backwards compatibility with the behaviour before P. *)
      let need_set :=
        if Z.land (flags (attr t))
             (Z.lor PTHREAD_ATTR_FLAG_INHERIT PTHREAD_ATTR_FLAG_EXPLICIT) =? 0
        then negb (sched_policy (attr t) =? SCHED_NORMAL)
        else need_set in
      if need_set then
        t' <- load_thread thread ;;
        rc <- sched_setscheduler (tid t') policy prio ;;
        if rc =? -1 then
          log "pthread_create sched_setscheduler(%d, {%d}) call failed: %s" ;;;
          if lp64 T then e <- gets errno ;; ret e else ret 0
        else ret 0
      else ret 0
  end.

(* ================================================================= *)
(** ** [__allocate_thread] *)

(** The return value, the attributes as the call leaves them, [*tcbp]
    and [*child_stack]. *)
Definition __allocate_thread (attr0 : pthread_attr_t) : M (Z * pthread_attr_t * Z * Z) :=
  a <- (if attr_stack_base attr0 =? 0 then
          (* The caller didn't provide a stack, so allocate one. *)
          let unaligned_guard_size := guard_size attr0 in
          let attr1 := set_guard_size (BIONIC_ALIGN size_bits (guard_size attr0) PAGE_SIZE) attr0 in
          if guard_size attr1 <? unaligned_guard_size then ret (inl (EAGAIN, attr1)) else
          mapping <- __allocate_thread_mapping (stack_size attr1) (guard_size attr1) ;;
          if mmap_base mapping =? 0 then ret (inl (EAGAIN, attr1)) else
          ret (inr (mapping, stack_top mapping, set_stack_base (stack_base mapping) attr1, true))
        else
          mapping <- __allocate_thread_mapping 0 PTHREAD_GUARD_SIZE ;;
          if mmap_base mapping =? 0 then ret (inl (EAGAIN, attr0)) else
          ret (inr (mapping, attr_stack_base attr0 + stack_size attr0, attr0, false))) ;;
  match a with
  | inl (e, attr1) => ret (e, attr1, 0, 0)
  | inr (mapping, stack_top, attr1, stack_clean) =>
      let thread := static_tls mapping - BIONIC_ALIGN size_bits (sizeof_pthread_internal_t T) PAGE_SIZE in
      (if negb stack_clean
       then modify (fun w => set_threads ((thread, zero_thread) :: threads w) w)
       else ret tt) ;;;
      (* Locate static TLS structures within the mapped region. *)
      let tcb := static_tls mapping + layout_offset_bionic_tcb T in
      let tls := static_tls mapping + layout_offset_bionic_tls T in
      (* Initialize TLS memory ([__init_static_tls] copies the TLS
         initialisation image, which the model does not track). *)
      __init_tcb tcb thread ;;;
      __init_tcb_dtv tcb ;;;
      __init_tcb_stack_guard tcb ;;;
      __init_bionic_tls_ptrs tcb tls ;;;
      let attr2 := set_stack_size (wrap size_bits (stack_top - attr_stack_base attr1)) attr1 in
      update_thread thread (set_attr attr2) ;;;
      update_thread thread (set_mmap (mmap_base mapping) (mmap_size mapping)) ;;;
      ret (0, attr2, tcb, stack_top)
  end.

(* ================================================================= *)
(** ** The new thread *)

(** [clone(__pthread_start, child_stack, flags, thread, &thread->tid, tls,
    &thread->tid)]: on success a kernel thread exists and its id has been
    written to [thread->tid] ([CLONE_PARENT_SETTID]). *)
Definition clone (child_stack thread tls : Z) : M Z :=
  fun w =>
    let w1 := set_replies (pop_clone (replies w)) w in
    match hd (Err ENOMEM) (clone_replies (replies w)) with
    | Ok t =>
        (Z.pos t,
         emit (EvClone child_stack thread (Z.pos t))
           (set_threads ((thread, set_tid (Z.pos t) (thread_at w1 thread)) :: threads w1)
              (set_kernel_threads (Z.pos t :: kernel_threads w1) w1)))
    | Err e =>
        (-1, emit (EvClone child_stack thread (-1)) (set_errno (Z.pos e) w1))
    end.

Definition __init_alternate_signal_stack (thread : Z) : M unit :=
  stack_base <- mmap (SIGNAL_STACK_SIZE T) PROT_READ_WRITE ;;
  if negb (stack_base =? MAP_FAILED) then
    rc <- mprotect stack_base PTHREAD_GUARD_SIZE PROT_NONE ;;
    if rc =? -1 then
      _ <- munmap stack_base (SIGNAL_STACK_SIZE T) ;;
      ret tt
    else
      let ss_sp := stack_base + PTHREAD_GUARD_SIZE in
      let ss_size := SIGNAL_STACK_SIZE T - PTHREAD_GUARD_SIZE in
      modify (emit (EvSigaltstack ss_sp ss_size)) ;;;
      update_thread thread (set_alternate_signal_stack stack_base) ;;;
      prctl_set_vma_name ss_sp ss_size "thread signal stack"
  else ret tt.

(** Modelled from the spec: [align_up] of [private/bionic_macros.h], not
    among the sources; the next multiple of [alignment] at or above
    [value]. *)
Definition align_up (value alignment : Z) : Z :=
  alignment * ((value + alignment - 1) / alignment).

Definition __init_shadow_call_stack (thread : Z) : M unit :=
  if aarch64 T then
    scs_guard_region <- mmap (SCS_GUARD_REGION_SIZE T) PROT_NONE ;;
    update_thread thread (set_shadow_call_stack_guard_region scs_guard_region) ;;;
    let scs_aligned_guard_region := align_up scs_guard_region (SCS_SIZE T) in
    p <- gets pid ;;
    r <- (if p =? 1 then ret 0
          else arc4random_uniform (SCS_GUARD_REGION_SIZE T / SCS_SIZE T - 1)) ;;
    let scs_offset := uint32 (r * SCS_SIZE T) in
    let scs := scs_aligned_guard_region + scs_offset in
    _ <- mprotect scs (SCS_SIZE T) PROT_READ_WRITE ;;
    modify (emit (EvSetX18 scs))
  else ret tt.

Definition __init_additional_stacks (thread : Z) : M unit :=
  __init_alternate_signal_stack thread ;;;
  __init_shadow_call_stack thread.

(** [__pthread_start], run by the new kernel thread.  Its first action is
    to take the handshake lock: while the creator holds it the thread is
    blocked ([None]).  Once through, it calls [thread->start_routine];
    the call is recorded, and [pthread_exit] takes over from there. *)
Definition __pthread_start (thread : Z) (w : world) : option (unit * world) :=
  match startup_handshake_lock (thread_at w thread) with
  | LockedWithoutWaiter => None
  | Unlocked =>
      Some ((lock_lock thread ;;;
             __init_additional_stacks thread ;;;
             t <- load_thread thread ;;
             modify (emit (EvRun thread (start_routine t) (start_routine_arg t)))) w)
  end.

(* ================================================================= *)
(** ** [pthread_create] *)

(** Modelled from the spec: [__pthread_internal_add] of
    [pthread_internal.cpp], not among the sources; the spec's thread
    registry, "register thread, return externally visible handle".  The
    handle is the address of the bookkeeping structure. *)
Definition __pthread_internal_add (thread : Z) : M Z :=
  modify (fun w => emit (EvRegister thread) (set_thread_list (thread :: thread_list w) w)) ;;;
  ret thread.

(** Modelled from the spec: the class [ErrnoRestorer] of
    [private/ErrnoRestorer.h], not among the sources.  An object of it
    declared first in a function saves [errno] on entry and writes the
    saved value back when the function returns, on every path. *)
Definition ErrnoRestorer {A} (body : M A) : M A :=
  fun w =>
    let saved_errno := errno w in
    let (a, w') := body w in
    (a, set_errno saved_errno w').

(** The return value and what was written to [*thread_out], if anything.
    ([ScopedTrace] only reports to the tracing sink and is left out.) *)
Definition pthread_create (attr : option pthread_attr_t)
    (start_routine : start_fn) (arg : Z) : M (Z * option Z) :=
  ErrnoRestorer (
    let thread_attr :=
      match attr with
      | None => pthread_attr_init T
      | Some a => a
      end in
    al <- __allocate_thread thread_attr ;;
    let '(result, _, tcb, child_stack) := al in
    if negb (result =? 0) then ret (result, None) else
    thread <- tcb_thread tcb ;;
    (* Create a lock for the thread to wait on once it starts. *)
    lock_init thread ;;;
    lock_lock thread ;;;
    update_thread thread (set_start_routine start_routine) ;;;
    update_thread thread (set_start_routine_arg arg) ;;;
    p <- gets pid ;;
    update_thread thread (set_cached_pid p) ;;;
    (* [&tcb->tls_slot(0)]; on i386 it is wrapped in a [user_desc], which
       the model does not distinguish. *)
    let tls := tcb in
    rc <- clone child_stack thread tls ;;
    if rc =? -1 then
      clone_errno <- gets errno ;;
      lock_unlock thread ;;;
      t <- load_thread thread ;;
      (if negb (thread_mmap_size t =? 0)
       then munmap (thread_mmap_base t) (thread_mmap_size t)
       else ret 0) ;;;
      log "pthread_create failed: clone failed: %s" ;;;
      ret (clone_errno, None)
    else
    init_errno <- __init_thread thread ;;
    if negb (init_errno =? 0) then
      (* Mark the thread detached and replace its start_routine with a no-op. *)
      update_thread thread (set_join_state THREAD_DETACHED) ;;;
      _ <- __pthread_internal_add thread ;;
      update_thread thread (set_start_routine __do_nothing) ;;;
      lock_unlock thread ;;;
      ret (init_errno, None)
    else
    (* Publish the pthread_t and unlock the mutex to let the new thread start running. *)
    h <- __pthread_internal_add thread ;;
    lock_unlock thread ;;;
    ret (0, Some h)).

End Target.

(* ================================================================= *)
(** ** The temporary [bionic_tls] of the dynamic linker *)

(** [__allocate_temp_bionic_tls].  The type [bionic_tls] is not among the
    sources: its size is a parameter.  [async_safe_fatal] logs and aborts
    the process; the model records the message and returns [None]. *)
Definition __allocate_temp_bionic_tls (T : target) (sizeof_bionic_tls : Z) : M (option Z) :=
  let allocation_size := BIONIC_ALIGN (size_bits T) sizeof_bionic_tls PAGE_SIZE in
  allocation <- mmap allocation_size PROT_READ_WRITE ;;
  if allocation =? MAP_FAILED then
    log "failed to allocate bionic_tls: error %d" ;;;
    ret None
  else ret (Some allocation).

Definition __free_temp_bionic_tls (T : target) (sizeof_bionic_tls : Z) (tls : Z) : M unit :=
  _ <- munmap tls (BIONIC_ALIGN (size_bits T) sizeof_bionic_tls PAGE_SIZE) ;;
  ret tt.

(* ================================================================= *)
(** ** Concrete targets and worlds *)

Definition default_attr_lp64 : pthread_attr_t := mk_attr 0 0 1015808 4096 0 0.
Definition default_attr_ilp32 : pthread_attr_t := mk_attr 0 0 1032192 4096 0 0.

Definition target_lp64 : target :=
  mk_target true 704 12352 64 128 3735928559 default_attr_lp64 false true 36864 8192 16777216.

Definition target_ilp32 : target :=
  mk_target false 420 12320 32 64 3735928559 default_attr_ilp32 false false 20480 8192 16777216.

Definition world_of (k : kernel) : world := mk_world 0 [] [] [] [] [] [] [] 1000 k.

(** A kernel that grants everything once: a mapping at page 100 and
    thread 77; and the random values it hands out. *)
Definition granting_kernel (random : list Z) : kernel :=
  mk_kernel random [Ok 100%positive] [] [Ok 77%positive] [] [] [].

(** A large stack request: with a one-page guard the first addition
    already leaves the 64-bit range. *)
Definition huge_attr : pthread_attr_t := mk_attr 0 0 (2 ^ 64 - 4096) 4096 0 0.

(** Attributes asking to inherit the creator's scheduling, and a kernel
    that grants the mapping and the thread but refuses to tell the
    creator's policy (EPERM). *)
Definition inherit_attr : pthread_attr_t :=
  mk_attr PTHREAD_ATTR_FLAG_INHERIT 0 8192 4096 0 0.

Definition policy_hiding_kernel : kernel :=
  mk_kernel [5000; 5] [Ok 100%positive] [] [Ok 77%positive] [Err 1%positive] [] [].

(** Attributes with an explicit real-time policy (SCHED_FIFO, priority
    10), and a kernel that refuses to apply it (EPERM). *)
Definition explicit_attr : pthread_attr_t :=
  mk_attr PTHREAD_ATTR_FLAG_EXPLICIT 0 8192 4096 1 10.

Definition policy_refusing_kernel : kernel :=
  mk_kernel [5000; 5] [Ok 100%positive] [] [Ok 77%positive] [] [] [Err 1%positive].

(** A kernel that grants the mapping and refuses the thread (EAGAIN). *)
Definition clone_refusing_kernel : kernel :=
  mk_kernel [5000; 5] [Ok 100%positive] [] [Err 11%positive] [] [] [].

(** Attributes with a stack of the caller's, 64 KiB at 0x7000000, and a
    guard size that plays no role. *)
Definition own_stack_attr : pthread_attr_t := mk_attr 0 117440512 65536 12288 0 0.

(** The second [mprotect] is refused. *)
Definition mprotect_refusing_kernel : kernel :=
  mk_kernel [] [Ok 100%positive] [Ok tt; Err 12%positive] [Ok 77%positive] [] [] [].

(** A kernel under which the creator runs with policy 2 (SCHED_RR) and
    without [SCHED_RESET_ON_FORK], and says so. *)
Definition policy_telling_kernel : kernel :=
  mk_kernel [5000; 5] [Ok 100%positive] [] [Ok 77%positive] [Ok 2%N] [] [].

(* ================================================================= *)
(** ** Vocabulary of the statements *)

(** The number of [mmap] calls recorded in a trace. *)
Fixpoint mmap_calls (l : list event) : nat :=
  match l with
  | [] => O
  | EvMmap _ _ _ :: l' => S (mmap_calls l')
  | _ :: l' => mmap_calls l'
  end.

(** The gap [__allocate_thread_mapping] draws for [stack_size] when it
    starts in world [w]. *)
Definition gap_size_of (T : target) (stack_size : Z) (w : world) : Z :=
  BIONIC_ALIGN 32 (fst (arc4random_uniform (max_gap_size T stack_size) w)) PAGE_SIZE.

(** Some step of the size computation leaves the range of [size_t]: one
    of the five additions, or the final rounding to a page. *)
Definition total_size_overflows (T : target) (stack_size stack_guard_size gap_size : Z) : Prop :=
  let s1 := stack_size + stack_guard_size in
  let s2 := s1 + gap_size in
  let s3 := s2 + thread_page_size T in
  let s4 := s3 + layout_size T in
  let s5 := s4 + PTHREAD_GUARD_SIZE in
  SIZE_MAX T < s1 \/ SIZE_MAX T < s2 \/ SIZE_MAX T < s3 \/ SIZE_MAX T < s4 \/
  SIZE_MAX T < s5 \/ SIZE_MAX T < page_round_up s5.

(** The sizes [__allocate_thread] asks [__allocate_thread_mapping] for. *)
Definition requested_sizes (T : target) (a : pthread_attr_t) : Z * Z :=
  if attr_stack_base a =? 0
  then (stack_size a, BIONIC_ALIGN (size_bits T) (guard_size a) PAGE_SIZE)
  else (0, PTHREAD_GUARD_SIZE).

(** A draw from the random source consumes at most one raw value and
    touches nothing else. *)
Definition random_step (w w' : world) : Prop :=
  w' = w \/
  exists ub r, w' = emit (EvRandom ub r) (set_replies (pop_random (replies w)) w).

(** The second half of [__allocate_thread_mapping], from the [mmap] call
    on, with the sizes the first half computed as parameters.  Lemma
    [allocate_mapping_sizes] shows that the function is this once its
    size computation has gone through. *)
Definition reserve_and_carve (T : target)
    (stack_size stack_guard_size gap_size mmap_size : Z) : M ThreadMapping :=
  (space <- mmap mmap_size PROT_NONE ;;
   if space =? MAP_FAILED then
     log "pthread_create failed: couldn't allocate %zu-bytes mapped space: %s" ;;;
     ret empty_mapping
   else
   rc1 <- mprotect (space + stack_guard_size) stack_size PROT_READ_WRITE ;;
   if rc1 =? -1 then
     log "pthread_create failed: couldn't mprotect R+W %zu-byte thread mapping region: %s" ;;;
     _ <- munmap space mmap_size ;;
     ret empty_mapping
   else
   prctl_set_vma_name space stack_guard_size "stack guard" ;;;
   let stack_top_guard := space + stack_guard_size + stack_size in
   prctl_set_vma_name stack_top_guard gap_size "stack top guard" ;;;
   let thread := space + stack_guard_size + stack_size + gap_size in
   let static_tls_space := thread + thread_page_size T in
   rc2 <- mprotect thread (wrap (size_bits T) (thread_page_size T + layout_size T)) PROT_READ_WRITE ;;
   if negb (rc2 =? 0) then
     log "pthread_create failed: couldn't mprotect R+W %zu-byte thread mapping region: %s" ;;;
     _ <- munmap space mmap_size ;;
     ret empty_mapping
   else
   r2 <- arc4random_uniform (sizeof_pthread_internal_t T) ;;
   let top := space + stack_guard_size + stack_size - r2 in
   ret (mk_mapping space mmap_size static_tls_space space (BIONIC_ALIGN_DOWN top 16)))%os.

(** The events of a run in which every successful [mmap] is matched by a
    [munmap] of the whole mapping. *)
Definition released (evs : list event) : Prop :=
  forall len p base,
    In (EvMmap len p base) evs -> base <> MAP_FAILED -> In (EvMunmap base len) evs.

(** The six regions of a thread mapping at [base], low to high, each as
    (start, size): stack guard, usable stack, random gap, thread control
    block ([pthread_internal_t] pages), static TLS (in whole pages, as
    the kernel protects it) and the tail guard. *)
Definition thread_mapping_regions (T : target)
    (stack_size stack_guard_size gap_size base : Z) : list (Z * Z) :=
  let stack := base + stack_guard_size in
  let gap := stack + stack_size in
  let thread := gap + gap_size in
  let tls := thread + thread_page_size T in
  let tail := tls + page_round_up (layout_size T) in
  [(base, stack_guard_size); (stack, stack_size); (gap, gap_size);
   (thread, thread_page_size T); (tls, page_round_up (layout_size T));
   (tail, PTHREAD_GUARD_SIZE)].

(** Every region ends before any later one starts. *)
Definition ordered_disjoint (l : list (Z * Z)) : Prop :=
  ForallOrdPairs (fun r s => fst r + snd r <= fst s) l.

Definition total_size (l : list (Z * Z)) : Z :=
  fold_right (fun r acc => snd r + acc) 0 l.

(** The addresses of the usable stack and of the control block with the
    static TLS. *)
Definition in_read_write_part (T : target)
    (stack_size stack_guard_size gap_size base a : Z) : bool :=
  inside (base + stack_guard_size) stack_size a ||
  inside (base + stack_guard_size + stack_size + gap_size)
         (thread_page_size T + page_round_up (layout_size T)) a.

(** The start routines called, latest first. *)
Definition is_run (e : event) : bool :=
  match e with
  | EvRun _ _ _ => true
  | _ => false
  end.

Definition runs (l : list event) : list event := filter is_run l.

(** The scheduling system calls recorded in a trace, latest first. *)
Definition is_sched_call (e : event) : bool :=
  match e with
  | EvSchedGetscheduler _ | EvSchedGetparam _ | EvSchedSetscheduler _ _ _ _ => true
  | _ => false
  end.

Definition sched_calls (l : list event) : list event := filter is_sched_call l.

(** What a run leaves alone when it only reserves, protects and releases
    memory. *)
Definition sched_view (w : world) :=
  (kernel_threads w, thread_list w, pid w,
   clone_replies (replies w), getscheduler_replies (replies w),
   getparam_replies (replies w), setscheduler_replies (replies w),
   sched_calls (trace w)).

(** The attributes [pthread_create] works with. *)
Definition thread_attr_of (T : target) (attr : option pthread_attr_t) : pthread_attr_t :=
  match attr with
  | None => pthread_attr_init T
  | Some a => a
  end.

(** The creator's steps of [pthread_create] from the handshake lock to
    the [clone] call, for the bookkeeping structure [th]. *)
Definition prepare_and_clone (th tcb cs : Z) (start : start_fn) (arg : Z) : M Z :=
  (lock_init th ;;;
   lock_lock th ;;;
   update_thread th (set_start_routine start) ;;;
   update_thread th (set_start_routine_arg arg) ;;;
   p <- gets pid ;;
   update_thread th (set_cached_pid p) ;;;
   clone cs th tcb)%os.

(** The creator's last steps when [__init_thread] has failed, and when
    it has succeeded. *)
Definition detach_and_release (th : Z) : M unit :=
  (update_thread th (set_join_state THREAD_DETACHED) ;;;
   _ <- __pthread_internal_add th ;;
   update_thread th (set_start_routine __do_nothing) ;;;
   lock_unlock th)%os.

Definition publish_and_release (th : Z) : M unit :=
  (_ <- __pthread_internal_add th ;; lock_unlock th)%os.

(** The creator's statements on the failure path after [__init_thread],
    lines 446 to 449, one by one. *)
Definition detach_steps (th : Z) : list (M unit) :=
  [ update_thread th (set_join_state THREAD_DETACHED);
    (_ <- __pthread_internal_add th ;; ret tt)%os;
    update_thread th (set_start_routine __do_nothing);
    lock_unlock th ].

(** The states a run of statements passes through, from the one it
    starts in to the one it ends in. *)
Fixpoint states_through (l : list (M unit)) (w : world) : list world :=
  match l with
  | [] => [w]
  | c :: l' => w :: states_through l' (snd (c w))
  end.

(** The claim that a failed query on the inherit path stops the creation
    before any kernel thread exists, in the words of the specification:
    whenever inheritance was requested and the only scheduling call of
    the creation is a failed policy query whose error is returned, the
    kernel threads are those that existed before. *)
Definition inherit_query_failure_precedes_spawn : Prop :=
  forall (T : target) (attr_opt : option pthread_attr_t) (start : start_fn)
         (arg : Z) (w : world) (e : positive),
    Z.land (flags (thread_attr_of T attr_opt)) PTHREAD_ATTR_FLAG_INHERIT <> 0 ->
    sched_calls (trace w) = [] ->
    sched_calls (trace (snd (pthread_create T attr_opt start arg w)))
      = [EvSchedGetscheduler (-1)] ->
    fst (pthread_create T attr_opt start arg w) = (Z.pos e, None) ->
    kernel_threads (snd (pthread_create T attr_opt start arg w)) = kernel_threads w.

(* ================================================================= *)
(** ** Arithmetic of the alignment macros *)

Ltac Zify.zify_post_hook ::= Z.to_euclidean_division_equations.

Lemma land_lnot_page (x : Z) :
  Z.land x (Z.lnot (PAGE_SIZE - 1)) = PAGE_SIZE * (x / PAGE_SIZE).
Proof.
  change (PAGE_SIZE - 1) with (Z.ones 12).
  rewrite <- Z.ldiff_land, Z.ldiff_ones_r by lia.
  rewrite Z.shiftl_mul_pow2, Z.shiftr_div_pow2 by lia.
  change (2 ^ 12) with PAGE_SIZE. lia.
Qed.

Lemma BIONIC_ALIGN_page (bits v : Z) :
  BIONIC_ALIGN bits v PAGE_SIZE = PAGE_SIZE * (wrap bits (v + PAGE_SIZE - 1) / PAGE_SIZE).
Proof. unfold BIONIC_ALIGN. apply land_lnot_page. Qed.

Lemma size_bits_cases (T : target) :
  size_bits T = 64 /\ lp64 T = true \/ size_bits T = 32 /\ lp64 T = false.
Proof. unfold size_bits. destruct (lp64 T); auto. Qed.

Lemma pow2_size_bits (T : target) :
  2 ^ size_bits T = 18446744073709551616 \/ 2 ^ size_bits T = 4294967296.
Proof. destruct (size_bits_cases T) as [[-> _] | [-> _]]; [left | right]; reflexivity. Qed.

Lemma BIONIC_ALIGN_range (T : target) (v : Z) :
  0 <= BIONIC_ALIGN (size_bits T) v PAGE_SIZE < 2 ^ size_bits T /\
  BIONIC_ALIGN (size_bits T) v PAGE_SIZE mod PAGE_SIZE = 0.
Proof.
  rewrite BIONIC_ALIGN_page. unfold wrap, PAGE_SIZE.
  destruct (pow2_size_bits T) as [-> | ->]; lia.
Qed.

Lemma BIONIC_ALIGN_32_range (v : Z) :
  0 <= BIONIC_ALIGN 32 v PAGE_SIZE < 4294967296 /\
  BIONIC_ALIGN 32 v PAGE_SIZE mod PAGE_SIZE = 0.
Proof.
  rewrite BIONIC_ALIGN_page. unfold wrap, PAGE_SIZE.
  change (2 ^ 32) with 4294967296. lia.
Qed.

(** Without wrap-around the macro rounds up to the next page. *)
Lemma BIONIC_ALIGN_no_wrap (T : target) (v : Z) :
  0 <= v -> page_round_up v <= SIZE_MAX T ->
  BIONIC_ALIGN (size_bits T) v PAGE_SIZE = page_round_up v.
Proof.
  intros Hv Hr. rewrite BIONIC_ALIGN_page. unfold page_round_up, SIZE_MAX, wrap, PAGE_SIZE in *.
  destruct (pow2_size_bits T) as [E | E]; rewrite E in *; lia.
Qed.

(** With wrap-around the result falls below the value. *)
Lemma BIONIC_ALIGN_wraps (T : target) (v : Z) :
  0 < v <= SIZE_MAX T -> SIZE_MAX T < page_round_up v ->
  BIONIC_ALIGN (size_bits T) v PAGE_SIZE < v.
Proof.
  intros Hv Hr. rewrite BIONIC_ALIGN_page. unfold page_round_up, SIZE_MAX, wrap, PAGE_SIZE in *.
  destruct (pow2_size_bits T) as [E | E]; rewrite E in *; lia.
Qed.

(* ================================================================= *)
(** ** Facts about the system calls *)

Lemma arc4random_uniform_spec (ub : Z) (w : world) :
  0 <= fst (arc4random_uniform ub w) /\
  (fst (arc4random_uniform ub w) = 0 \/ fst (arc4random_uniform ub w) < uint32 ub) /\
  random_step w (snd (arc4random_uniform ub w)).
Proof.
  unfold arc4random_uniform, random_step.
  destruct (uint32 ub <? 2) eqn:E; simpl.
  - auto with zarith.
  - apply Z.ltb_ge in E.
    assert (0 <= hd 0 (random_source (replies w)) mod uint32 ub < uint32 ub)
      by (apply Z.mod_pos_bound; lia).
    repeat split; try lia. right. eauto.
Qed.

Lemma remove_region_head (r : Z * Z) (l : list (Z * Z)) :
  remove_region r (r :: l) = l.
Proof.
  simpl. unfold region_eqb. now rewrite !Z.eqb_refl.
Qed.

Lemma wrap_small (bits x : Z) : 0 <= x < 2 ^ bits -> wrap bits x = x.
Proof. intros; unfold wrap; now apply Z.mod_small. Qed.

Lemma thread_page_size_range (T : target) :
  0 <= thread_page_size T < 2 ^ size_bits T /\ thread_page_size T mod PAGE_SIZE = 0.
Proof. apply BIONIC_ALIGN_range. Qed.

(** The five checked additions and the rounding, as one case analysis:
    either some step overflows, or the wrapped values are the exact
    sums. *)
Lemma total_size_cases (T : target) (ss gs gap : Z) :
  0 <= ss <= SIZE_MAX T -> 0 <= gs <= SIZE_MAX T -> 0 <= gap ->
  0 <= layout_size T <= SIZE_MAX T ->
  total_size_overflows T ss gs gap \/
  (~ total_size_overflows T ss gs gap /\
   page_round_up (ss + gs + gap + thread_page_size T + layout_size T + PTHREAD_GUARD_SIZE)
     <= SIZE_MAX T).
Proof.
  intros. unfold total_size_overflows. cbv zeta.
  pose proof (proj1 (thread_page_size_range T)).
  destruct (Z_lt_le_dec (SIZE_MAX T)
    (page_round_up (ss + gs + gap + thread_page_size T + layout_size T + PTHREAD_GUARD_SIZE)));
    [left | right].
  - do 5 right. assumption.
  - split; [| assumption].
    unfold page_round_up, PTHREAD_GUARD_SIZE, PAGE_SIZE in *. lia.
Qed.

(* ================================================================= *)
(** ** The two halves of [__allocate_thread_mapping] *)

Lemma gap_size_of_range (T : target) (ss : Z) (w : world) :
  0 <= gap_size_of T ss w < 4294967296 /\ gap_size_of T ss w mod PAGE_SIZE = 0.
Proof. apply BIONIC_ALIGN_32_range. Qed.

(** An overflowing size computation returns the empty mapping right after
    the gap has been drawn. *)
Lemma allocate_mapping_overflow (T : target) (ss gs : Z) (w : world) :
  0 <= ss <= SIZE_MAX T -> 0 <= gs <= SIZE_MAX T ->
  0 <= layout_size T <= SIZE_MAX T ->
  total_size_overflows T ss gs (gap_size_of T ss w) ->
  __allocate_thread_mapping T ss gs w =
  (empty_mapping, snd (arc4random_uniform (max_gap_size T ss) w)).
Proof.
  intros Hss Hgs HL Hov.
  pose proof (gap_size_of_range T ss w) as [Hg _].
  pose proof (thread_page_size_range T) as [Ht _].
  unfold __allocate_thread_mapping. unfold bind at 1.
  unfold gap_size_of in *.
  destruct (arc4random_uniform (max_gap_size T ss) w) as [r w1]. simpl fst in *. simpl snd.
  remember (BIONIC_ALIGN 32 r PAGE_SIZE) as gap.
  unfold total_size_overflows, SIZE_MAX, builtin_add_overflow in *. cbv zeta in Hov.
  remember (2 ^ size_bits T) as B.
  assert (HP : PTHREAD_GUARD_SIZE = 4096) by reflexivity.
  destruct (Z.leb_spec B (ss + gs)); [reflexivity |].
  rewrite (wrap_small _ (ss + gs)) by lia.
  destruct (Z.leb_spec B (ss + gs + gap)); [reflexivity |].
  rewrite (wrap_small _ (ss + gs + gap)) by lia.
  destruct (Z.leb_spec B (ss + gs + gap + thread_page_size T)); [reflexivity |].
  rewrite (wrap_small _ (ss + gs + gap + thread_page_size T)) by lia.
  destruct (Z.leb_spec B (ss + gs + gap + thread_page_size T + layout_size T)); [reflexivity |].
  rewrite (wrap_small _ (ss + gs + gap + thread_page_size T + layout_size T)) by lia.
  destruct (Z.leb_spec B (ss + gs + gap + thread_page_size T + layout_size T + PTHREAD_GUARD_SIZE));
    [reflexivity |].
  rewrite (wrap_small _ (ss + gs + gap + thread_page_size T + layout_size T + PTHREAD_GUARD_SIZE)) by lia.
  assert (Hw : BIONIC_ALIGN (size_bits T)
                 (ss + gs + gap + thread_page_size T + layout_size T + PTHREAD_GUARD_SIZE) PAGE_SIZE
               < ss + gs + gap + thread_page_size T + layout_size T + PTHREAD_GUARD_SIZE).
  { apply BIONIC_ALIGN_wraps; unfold SIZE_MAX; rewrite <- HeqB; lia. }
  apply Z.ltb_lt in Hw. rewrite Hw. reflexivity.
Qed.

(** A size computation that stays in range hands over to
    [reserve_and_carve] with the exact sum, rounded up to a page. *)
Lemma allocate_mapping_sizes (T : target) (ss gs : Z) (w : world) :
  0 <= ss <= SIZE_MAX T -> 0 <= gs <= SIZE_MAX T ->
  0 <= layout_size T <= SIZE_MAX T ->
  ~ total_size_overflows T ss gs (gap_size_of T ss w) ->
  __allocate_thread_mapping T ss gs w =
  reserve_and_carve T ss gs (gap_size_of T ss w)
    (page_round_up (ss + gs + gap_size_of T ss w + thread_page_size T
                    + layout_size T + PTHREAD_GUARD_SIZE))
    (snd (arc4random_uniform (max_gap_size T ss) w)).
Proof.
  intros Hss Hgs HL Hov.
  pose proof (gap_size_of_range T ss w) as [Hg _].
  pose proof (thread_page_size_range T) as [Ht _].
  unfold __allocate_thread_mapping. unfold bind at 1.
  unfold gap_size_of in *.
  destruct (arc4random_uniform (max_gap_size T ss) w) as [r w1]. simpl fst in *. simpl snd.
  remember (BIONIC_ALIGN 32 r PAGE_SIZE) as gap.
  unfold total_size_overflows, builtin_add_overflow in *. cbv zeta in Hov.
  assert (HP : PTHREAD_GUARD_SIZE = 4096) by reflexivity.
  assert (HB : 2 ^ size_bits T = SIZE_MAX T + 1) by (unfold SIZE_MAX; lia).
  rewrite HB.
  assert (Hup : forall x, x <= page_round_up x) by (intro; unfold page_round_up, PAGE_SIZE; lia).
  pose proof (Hup (ss + gs + gap + thread_page_size T + layout_size T + PTHREAD_GUARD_SIZE)).
  destruct (Z.leb_spec (SIZE_MAX T + 1) (ss + gs)); [exfalso; apply Hov; lia |].
  rewrite (wrap_small _ (ss + gs)) by lia.
  destruct (Z.leb_spec (SIZE_MAX T + 1) (ss + gs + gap)); [exfalso; apply Hov; lia |].
  rewrite (wrap_small _ (ss + gs + gap)) by lia.
  destruct (Z.leb_spec (SIZE_MAX T + 1) (ss + gs + gap + thread_page_size T));
    [exfalso; apply Hov; lia |].
  rewrite (wrap_small _ (ss + gs + gap + thread_page_size T)) by lia.
  destruct (Z.leb_spec (SIZE_MAX T + 1) (ss + gs + gap + thread_page_size T + layout_size T));
    [exfalso; apply Hov; lia |].
  rewrite (wrap_small _ (ss + gs + gap + thread_page_size T + layout_size T)) by lia.
  destruct (Z.leb_spec (SIZE_MAX T + 1)
              (ss + gs + gap + thread_page_size T + layout_size T + PTHREAD_GUARD_SIZE));
    [exfalso; apply Hov; lia |].
  rewrite (wrap_small _ (ss + gs + gap + thread_page_size T + layout_size T + PTHREAD_GUARD_SIZE)) by lia.
  rewrite BIONIC_ALIGN_no_wrap by lia.
  destruct (Z.ltb_spec
              (page_round_up (ss + gs + gap + thread_page_size T + layout_size T + PTHREAD_GUARD_SIZE))
              (ss + gs + gap + thread_page_size T + layout_size T + PTHREAD_GUARD_SIZE)); [lia |].
  reflexivity.
Qed.

Lemma mmap_base_nonnull (page : positive) : PAGE_SIZE * Z.pos page <> 0.
Proof. unfold PAGE_SIZE; lia. Qed.

Lemma mmap_base_not_failed (page : positive) :
  (PAGE_SIZE * Z.pos page =? MAP_FAILED) = false.
Proof. apply Z.eqb_neq. unfold PAGE_SIZE, MAP_FAILED; lia. Qed.

(** Symbolic execution of the model: unfold the monad and the system
    calls, project the worlds they build, decide the comparisons of
    return codes, and split on the kernel's replies. *)
Ltac os_unfold H :=
  repeat progress
    unfold bind, ret, log, modify, gets, prctl_set_vma_name,
      mmap, mprotect, munmap, arc4random_uniform in H.

#[local] Arguments Z.add : simpl never.
#[local] Arguments Z.sub : simpl never.
#[local] Arguments Z.mul : simpl never.
#[local] Arguments Z.div : simpl never.
#[local] Arguments Z.modulo : simpl never.
#[local] Arguments Z.pow : simpl never.
#[local] Arguments Z.eqb : simpl never.
#[local] Arguments Z.ltb : simpl never.
#[local] Arguments Z.leb : simpl never.
#[local] Arguments Z.land : simpl never.
#[local] Arguments Z.lor : simpl never.
#[local] Arguments Z.lnot : simpl never.
#[local] Arguments Z.of_N : simpl never.

Ltac os_codes H :=
  repeat first
    [ rewrite mmap_base_not_failed in H
    | progress change (MAP_FAILED =? MAP_FAILED) with true in H
    | progress change (0 =? -1) with false in H
    | progress change (-1 =? -1) with true in H
    | progress change (0 =? 0) with true in H
    | progress change (-1 =? 0) with false in H ].

Ltac os_split H :=
  match type of H with
  | context [match hd ?d ?l with Ok _ => _ | Err _ => _ end] =>
      destruct (hd d l) eqn:?
  | context [if uint32 ?x <? 2 then _ else _] =>
      destruct (uint32 x <? 2) eqn:?
  end.

Ltac os_run H :=
  os_unfold H; simpl in H; os_codes H;
  repeat (os_split H; simpl in H; os_codes H).

Ltac os_done H := inversion H; subst; clear H; cbn [mmap_base mmap_size static_tls stack_base stack_top] in *.

(** Whatever [reserve_and_carve] does, it leaves the threads, the
    registry and the scheduling replies alone. *)
Lemma reserve_frame (T : target) (ss gs gap sz : Z) (w : world) :
  sched_view (snd (reserve_and_carve T ss gs gap sz w)) = sched_view w.
Proof.
  destruct (reserve_and_carve T ss gs gap sz w) as [m w'] eqn:H.
  unfold reserve_and_carve in H. os_run H; os_done H; reflexivity.
Qed.

(** A failing [reserve_and_carve] has released what it reserved. *)
Lemma reserve_failure (T : target) (ss gs gap sz : Z) (w : world) (m : ThreadMapping) (w' : world) :
  reserve_and_carve T ss gs gap sz w = (m, w') ->
  mmap_base m = 0 ->
  m = empty_mapping /\ mappings w' = mappings w /\
  exists evs, trace w' = evs ++ trace w /\ released evs /\ mmap_calls evs = 1%nat.
Proof.
  intros H Hm.
  unfold reserve_and_carve in H. os_run H; os_done H;
    try (exfalso; eapply mmap_base_nonnull; eassumption);
    (split; [reflexivity |]);
    (split; [simpl; unfold region_eqb; simpl; rewrite ?Z.eqb_refl; reflexivity |]); simpl.
  all: first [ eexists [_; _]; split; [reflexivity |]
             | eexists [_; _; _; _]; split; [reflexivity |]
             | eexists [_; _; _; _; _; _; _]; split; [reflexivity |] ].
  all: split; [| reflexivity].
  all: intros len p base Hin Hb; simpl in Hin;
    repeat (destruct Hin as [E | Hin]; [inversion E; subst |]);
    try contradiction; simpl; auto.
Qed.

(** A successful [reserve_and_carve]: one new mapping, created without
    access rights, with two read-write windows, and the descriptor of
    it. *)
Lemma reserve_success (T : target) (ss gs gap sz : Z) (w : world) (m : ThreadMapping) (w' : world) :
  reserve_and_carve T ss gs gap sz w = (m, w') ->
  mmap_base m <> 0 ->
  exists page r2,
    let base := PAGE_SIZE * Z.pos page in
    0 <= r2 /\
    m = mk_mapping base sz (base + gs + ss + gap + thread_page_size T) base
          (BIONIC_ALIGN_DOWN (base + gs + ss - r2) 16) /\
    mappings w' = (base, sz) :: mappings w /\
    protections w' =
      (base + gs + ss + gap,
       page_round_up (wrap (size_bits T) (thread_page_size T + layout_size T)),
       PROT_READ_WRITE)
      :: (base + gs, page_round_up ss, PROT_READ_WRITE)
      :: (base, page_round_up sz, PROT_NONE) :: protections w /\
    threads w' = threads w /\ tcbs w' = tcbs w /\
    mmap_calls (trace w') = S (mmap_calls (trace w)).
Proof.
  intros H Hm.
  unfold reserve_and_carve in H. os_run H; os_done H; try (exfalso; apply Hm; reflexivity).
  - exists a, 0. simpl. repeat split; lia.
  - exists a, (hd 0 (random_source (replies w)) mod uint32 (sizeof_pthread_internal_t T)).
    simpl. repeat split.
    apply Z.ltb_ge in Heqb. apply Z.mod_pos_bound. lia.
Qed.

Lemma random_step_frame (w w' : world) :
  random_step w w' ->
  sched_view w' = sched_view w /\ mappings w' = mappings w /\
  protections w' = protections w /\ threads w' = threads w /\ tcbs w' = tcbs w /\
  mmap_calls (trace w') = mmap_calls (trace w) /\
  exists evs, trace w' = evs ++ trace w /\ released evs /\ mmap_calls evs = 0%nat.
Proof.
  intros [-> | (ub & r & ->)]; simpl; repeat split; auto.
  - exists []. repeat split. intros ? ? ? [].
  - exists [EvRandom ub r]. repeat split. intros ? ? ? [E | []]. discriminate.
Qed.

Lemma released_app (l1 l2 : list event) :
  released l1 -> released l2 -> released (l1 ++ l2).
Proof.
  unfold released. intros H1 H2 len p base Hin Hb.
  apply in_app_iff in Hin. apply in_app_iff.
  destruct Hin; [left; eapply H1 | right; eapply H2]; eauto.
Qed.

(** [__allocate_thread_mapping] leaves the threads, the registry and the
    scheduling replies alone. *)
Lemma allocate_mapping_frame (T : target) (ss gs : Z) (w : world) :
  0 <= ss <= SIZE_MAX T -> 0 <= gs <= SIZE_MAX T ->
  0 <= layout_size T <= SIZE_MAX T ->
  sched_view (snd (__allocate_thread_mapping T ss gs w)) = sched_view w.
Proof.
  intros Hss Hgs HL.
  pose proof (arc4random_uniform_spec (max_gap_size T ss) w) as (_ & _ & Hstep).
  apply random_step_frame in Hstep. destruct Hstep as (Hv & _).
  destruct (total_size_cases T ss gs (gap_size_of T ss w) Hss Hgs
              (proj1 (proj1 (gap_size_of_range T ss w))) HL) as [Hov | [Hok _]].
  - rewrite allocate_mapping_overflow by assumption. exact Hv.
  - rewrite allocate_mapping_sizes by assumption.
    rewrite reserve_frame. exact Hv.
Qed.

(** A failing [__allocate_thread_mapping]: nothing stays mapped, and if
    the sizes overflowed nothing was ever reserved. *)
Lemma allocate_mapping_failure (T : target) (ss gs : Z) (w : world)
    (m : ThreadMapping) (w' : world) :
  0 <= ss <= SIZE_MAX T -> 0 <= gs <= SIZE_MAX T ->
  0 <= layout_size T <= SIZE_MAX T ->
  __allocate_thread_mapping T ss gs w = (m, w') ->
  mmap_base m = 0 ->
  m = empty_mapping /\ mappings w' = mappings w /\
  exists evs, trace w' = evs ++ trace w /\ released evs /\
              (total_size_overflows T ss gs (gap_size_of T ss w) -> mmap_calls evs = 0%nat).
Proof.
  intros Hss Hgs HL H Hm.
  pose proof (arc4random_uniform_spec (max_gap_size T ss) w) as (_ & _ & Hstep).
  apply random_step_frame in Hstep.
  destruct Hstep as (_ & Hmap & _ & _ & _ & _ & evs0 & Htr & Hrel & Hcnt).
  destruct (total_size_cases T ss gs (gap_size_of T ss w) Hss Hgs
              (proj1 (proj1 (gap_size_of_range T ss w))) HL) as [Hov | [Hok _]].
  - rewrite allocate_mapping_overflow in H by assumption.
    inversion H; subst. repeat split; auto. exists evs0. auto.
  - rewrite allocate_mapping_sizes in H by assumption.
    apply reserve_failure in H; [| assumption].
    destruct H as (-> & Hmap' & evs & Htr' & Hrel' & _).
    repeat split; [congruence |].
    exists (evs ++ evs0). rewrite Htr', Htr, app_assoc.
    repeat split; [apply released_app; assumption | contradiction].
Qed.

(** A successful [__allocate_thread_mapping]: the sizes did not
    overflow, and the mapping is as [reserve_success] describes it, with
    the exact total as its size. *)
Lemma allocate_mapping_success (T : target) (ss gs : Z) (w : world)
    (m : ThreadMapping) (w' : world) :
  0 <= ss <= SIZE_MAX T -> 0 <= gs <= SIZE_MAX T ->
  0 <= layout_size T <= SIZE_MAX T ->
  __allocate_thread_mapping T ss gs w = (m, w') ->
  mmap_base m <> 0 ->
  ~ total_size_overflows T ss gs (gap_size_of T ss w) /\
  exists page r2,
    let base := PAGE_SIZE * Z.pos page in
    let gap := gap_size_of T ss w in
    let sz := page_round_up (ss + gs + gap + thread_page_size T + layout_size T
                             + PTHREAD_GUARD_SIZE) in
    0 <= r2 /\ sz <= SIZE_MAX T /\
    m = mk_mapping base sz (base + gs + ss + gap + thread_page_size T) base
          (BIONIC_ALIGN_DOWN (base + gs + ss - r2) 16) /\
    mappings w' = (base, sz) :: mappings w /\
    protections w' =
      (base + gs + ss + gap,
       page_round_up (wrap (size_bits T) (thread_page_size T + layout_size T)),
       PROT_READ_WRITE)
      :: (base + gs, page_round_up ss, PROT_READ_WRITE)
      :: (base, page_round_up sz, PROT_NONE) :: protections w /\
    threads w' = threads w /\ tcbs w' = tcbs w /\
    mmap_calls (trace w') = S (mmap_calls (trace w)).
Proof.
  intros Hss Hgs HL H Hm.
  pose proof (arc4random_uniform_spec (max_gap_size T ss) w) as (_ & _ & Hstep).
  apply random_step_frame in Hstep.
  destruct Hstep as (_ & Hmap & Hprot & Hth & Htcb & Hcalls & _).
  destruct (total_size_cases T ss gs (gap_size_of T ss w) Hss Hgs
              (proj1 (proj1 (gap_size_of_range T ss w))) HL) as [Hov | [Hok Hsz]].
  - rewrite allocate_mapping_overflow in H by assumption.
    inversion H; subst. exfalso. apply Hm. reflexivity.
  - split; [assumption |].
    rewrite allocate_mapping_sizes in H by assumption.
    apply reserve_success in H; [| assumption].
    destruct H as (page & r2 & Hr2 & -> & Hmap' & Hprot' & Hth' & Htcb' & Hcalls').
    exists page, r2. cbv zeta.
    rewrite Hmap', Hprot', Hth', Htcb', Hcalls', Hmap, Hprot, Hth, Htcb, Hcalls.
    repeat split; auto; lia.
Qed.

Ltac thread_unfold H :=
  repeat progress
    unfold bind, ret, log, modify, gets, update_thread, update_tcb, load_thread,
      tcb_thread, __init_tcb, __init_tcb_dtv, __init_tcb_stack_guard,
      __init_bionic_tls_ptrs, lock_init, lock_lock, lock_unlock,
      __pthread_internal_add, thread_at, tcb_at in H.

Ltac lookups H := repeat (rewrite ?Z.eqb_refl in H; simpl in H).

(** What [__allocate_thread] returns is decided by the mapping call it
    makes for the [requested_sizes]; on success the bookkeeping structure
    and the TCB sit in the new mapping, initialised. *)
Lemma allocate_thread_inv (T : target) (a : pthread_attr_t) (w : world)
    (r : Z) (a2 : pthread_attr_t) (tcb cs : Z) (w1 : world) :
  __allocate_thread T a w = ((r, a2, tcb, cs), w1) ->
  (r = EAGAIN /\ w1 = w /\ attr_stack_base a = 0 /\
   BIONIC_ALIGN (size_bits T) (guard_size a) PAGE_SIZE < guard_size a) \/
  exists m wm,
    __allocate_thread_mapping T (fst (requested_sizes T a)) (snd (requested_sizes T a)) w
      = (m, wm) /\
    ((r = EAGAIN /\ mmap_base m = 0 /\ w1 = wm) \/
     (r = 0 /\ mmap_base m <> 0 /\
      let th := static_tls m - thread_page_size T in
      tcb = static_tls m + layout_offset_bionic_tcb T /\
      cs = (if attr_stack_base a =? 0 then stack_top m
            else attr_stack_base a + stack_size a) /\
      slot_thread_id (tcb_at w1 tcb) = th /\
      attr (thread_at w1 th) = a2 /\
      thread_mmap_base (thread_at w1 th) = mmap_base m /\
      thread_mmap_size (thread_at w1 th) = mmap_size m /\
      flags a2 = flags a /\ sched_policy a2 = sched_policy a /\
      sched_priority a2 = sched_priority a /\
      mappings w1 = mappings wm /\ protections w1 = protections wm /\
      trace w1 = trace wm /\ sched_view w1 = sched_view wm /\
      replies w1 = replies wm)).
Proof.
  intros H.
  unfold __allocate_thread in H. unfold bind at 1 in H.
  unfold requested_sizes.
  destruct (attr_stack_base a =? 0) eqn:Hnull.
  - cbn [guard_size stack_size set_guard_size] in H.
    destruct (BIONIC_ALIGN (size_bits T) (guard_size a) PAGE_SIZE <? guard_size a) eqn:Hg.
    { inversion H; subst. left. apply Z.eqb_eq in Hnull. apply Z.ltb_lt in Hg. auto. }
    right. unfold bind at 1 in H. cbn [fst snd].
    destruct (__allocate_thread_mapping T (stack_size a)
                (BIONIC_ALIGN (size_bits T) (guard_size a) PAGE_SIZE) w) as [m wm] eqn:Hm.
    exists m, wm. split; [reflexivity |].
    destruct (mmap_base m =? 0) eqn:Hb.
    { inversion H; subst. left. apply Z.eqb_eq in Hb. auto. }
    right. unfold ret at 1 in H.
    apply Z.eqb_neq in Hb.
    destruct wm. thread_unfold H. unfold thread_at, tcb_at, thread_page_size.
    simpl in H. destruct (has_tls_slot_self T); lookups H; inversion H; subst; clear H;
      simpl; rewrite ?Z.eqb_refl; simpl; repeat split; auto.
  - right. unfold bind at 1 in H. cbn [fst snd].
    destruct (__allocate_thread_mapping T 0 PTHREAD_GUARD_SIZE w) as [m wm] eqn:Hm.
    exists m, wm. split; [reflexivity |].
    destruct (mmap_base m =? 0) eqn:Hb.
    { inversion H; subst. left. apply Z.eqb_eq in Hb. auto. }
    right. unfold ret at 1 in H.
    apply Z.eqb_neq in Hb.
    destruct wm. thread_unfold H. unfold thread_at, tcb_at, thread_page_size.
    simpl in H. destruct (has_tls_slot_self T); lookups H; inversion H; subst; clear H;
      simpl; rewrite ?Z.eqb_refl; simpl; repeat split; auto.
Qed.

(* ================================================================= *)
(** ** The paths of [pthread_create] after a successful allocation *)

#[local] Arguments __init_thread : simpl never.

Lemma pthread_create_clone_ok (T : target) (attr : option pthread_attr_t)
    (start : start_fn) (arg : Z) (w : world)
    (a2 : pthread_attr_t) (tcb cs : Z) (w1 : world) (th : Z) (t : positive) :
  __allocate_thread T (thread_attr_of T attr) w = ((0, a2, tcb, cs), w1) ->
  slot_thread_id (tcb_at w1 tcb) = th ->
  hd (Err ENOMEM) (clone_replies (replies w1)) = Ok t ->
  pthread_create T attr start arg w =
  let w2 := snd (prepare_and_clone th tcb cs start arg w1) in
  let (init_errno, w3) := __init_thread T th w2 in
  if negb (init_errno =? 0) then
    ((init_errno, None),
     set_errno (errno w)
       (snd (detach_and_release th w3)))
  else
    ((0, Some th),
     set_errno (errno w)
       (snd (publish_and_release th w3))).
Proof.
  intros Halloc Hth Hclone.
  unfold pthread_create, ErrnoRestorer, prepare_and_clone, detach_and_release,
    publish_and_release.
  fold (thread_attr_of T attr).
  unfold bind at 1. rewrite Halloc.
  change (0 =? 0) with true. cbn [negb].
  destruct w1. thread_unfold Hth. simpl in Hth. simpl in Hclone.
  unfold bind, tcb_thread, gets, lock_init, lock_lock, update_thread, modify, clone,
    thread_at, tcb_at.
  simpl. rewrite Hth. rewrite ?Z.eqb_refl. simpl. rewrite Hclone. simpl.
  rewrite ?Z.eqb_refl. simpl.
  match goal with |- context [__init_thread T th ?W] =>
    destruct (__init_thread T th W) as [ie w3] end.
  destruct (negb (ie =? 0)); reflexivity.
Qed.

Ltac world_run :=
  unfold prepare_and_clone, detach_and_release, publish_and_release,
    bind, ret, log, modify, gets, update_thread, update_tcb, load_thread,
    tcb_thread, lock_init, lock_lock, lock_unlock, __pthread_internal_add,
    clone, munmap, thread_at, tcb_at, sched_view, sched_calls;
  simpl; rewrite ?Z.eqb_refl; simpl.

Lemma prepare_and_clone_ok (th tcb cs : Z) (start : start_fn) (arg : Z)
    (w1 : world) (t : positive) :
  hd (Err ENOMEM) (clone_replies (replies w1)) = Ok t ->
  let w2 := snd (prepare_and_clone th tcb cs start arg w1) in
  thread_at w2 th =
    set_tid (Z.pos t)
      (set_cached_pid (pid w1)
         (set_start_routine_arg arg
            (set_start_routine start
               (set_lock LockedWithoutWaiter (set_lock Unlocked (thread_at w1 th)))))) /\
  kernel_threads w2 = Z.pos t :: kernel_threads w1 /\
  thread_list w2 = thread_list w1 /\
  mappings w2 = mappings w1 /\
  trace w2 = EvClone cs th (Z.pos t) :: EvLock th :: trace w1 /\
  replies w2 = pop_clone (replies w1).
Proof.
  intros Hclone. destruct w1. simpl in Hclone.
  world_run. rewrite Hclone. world_run. repeat split.
Qed.

Lemma pthread_create_clone_failed (T : target) (attr : option pthread_attr_t)
    (start : start_fn) (arg : Z) (w : world)
    (a2 : pthread_attr_t) (tcb cs : Z) (w1 : world) (th : Z) (e : positive) :
  __allocate_thread T (thread_attr_of T attr) w = ((0, a2, tcb, cs), w1) ->
  slot_thread_id (tcb_at w1 tcb) = th ->
  thread_mmap_size (thread_at w1 th) <> 0 ->
  hd (Err ENOMEM) (clone_replies (replies w1)) = Err e ->
  fst (pthread_create T attr start arg w) = (Z.pos e, None) /\
  let w' := snd (pthread_create T attr start arg w) in
  errno w' = errno w /\
  mappings w' =
    remove_region (thread_mmap_base (thread_at w1 th), thread_mmap_size (thread_at w1 th))
      (mappings w1) /\
  kernel_threads w' = kernel_threads w1 /\
  thread_list w' = thread_list w1 /\
  trace w' =
    EvLog "pthread_create failed: clone failed: %s"
    :: EvMunmap (thread_mmap_base (thread_at w1 th)) (thread_mmap_size (thread_at w1 th))
    :: EvUnlock th :: EvClone cs th (-1) :: EvLock th :: trace w1.
Proof.
  intros Halloc Hth Hsz Hclone.
  destruct (pthread_create T attr start arg w) as [res w'] eqn:H.
  unfold pthread_create, ErrnoRestorer in H.
  fold (thread_attr_of T attr) in H.
  unfold bind at 1 in H. rewrite Halloc in H.
  change (0 =? 0) with true in H. cbn [negb] in H.
  apply Z.eqb_neq in Hsz. revert H.
  destruct w1. unfold thread_at, tcb_at in Hth, Hsz. simpl in Hth, Hsz, Hclone.
  world_run. rewrite Hth. world_run. rewrite Hclone. world_run.
  change (-1 =? -1) with true. world_run.
  rewrite Hsz. world_run. intros H. inversion H; subst; clear H.
  simpl. repeat split.
Qed.

Lemma detach_and_release_spec (th : Z) (w3 : world) :
  let w' := snd (detach_and_release th w3) in
  thread_at w' th =
    set_lock Unlocked
      (set_start_routine __do_nothing
         (set_join_state THREAD_DETACHED (thread_at w3 th))) /\
  thread_list w' = th :: thread_list w3 /\
  kernel_threads w' = kernel_threads w3 /\
  mappings w' = mappings w3 /\
  trace w' = EvUnlock th :: EvRegister th :: trace w3 /\
  replies w' = replies w3.
Proof. destruct w3. world_run. world_run. repeat split. Qed.

Lemma publish_and_release_spec (th : Z) (w3 : world) :
  let w' := snd (publish_and_release th w3) in
  thread_at w' th = set_lock Unlocked (thread_at w3 th) /\
  thread_list w' = th :: thread_list w3 /\
  kernel_threads w' = kernel_threads w3 /\
  mappings w' = mappings w3 /\
  trace w' = EvUnlock th :: EvRegister th :: trace w3 /\
  replies w' = replies w3.
Proof. destruct w3. world_run. world_run. repeat split. Qed.

(* ================================================================= *)
(** ** [__init_thread] *)

Lemma land_failed_policy : (Z.land (-1) SCHED_RESET_ON_FORK =? 0) = false.
Proof. reflexivity. Qed.

Lemma policy_not_failed (p : N) : (Z.of_N p =? -1) = false.
Proof. apply Z.eqb_neq. lia. Qed.

Ltac init_codes H :=
  repeat first
    [ rewrite land_failed_policy in H
    | rewrite policy_not_failed in H
    | rewrite Z.eqb_refl in H
    | progress change (0 =? -1) with false in H
    | progress change (-1 =? -1) with true in H
    | progress simpl in H ].

Ltac init_split H :=
  match type of H with
  | context [match hd ?d ?l with Ok _ => _ | Err _ => _ end] =>
      destruct (hd d l) eqn:?
  | context [if Z.land ?x ?y =? 0 then _ else _] =>
      destruct (Z.land x y =? 0) eqn:?
  | context [if negb (Z.land ?x ?y =? 0) then _ else _] =>
      destruct (Z.land x y =? 0) eqn:?
  | context [if negb (?x =? SCHED_NORMAL) then _ else _] =>
      destruct (x =? SCHED_NORMAL) eqn:?
  | context [if lp64 ?T then _ else _] =>
      destruct (lp64 T) eqn:?
  end.

Ltac init_run H :=
  unfold __init_thread in H;
  repeat progress
    unfold bind, ret, log, modify, gets, update_thread, load_thread,
      sched_getscheduler, sched_getparam, sched_setscheduler, thread_at in H;
  init_codes H;
  repeat (init_split H; init_codes H).

Ltac init_done H := inversion H; subst; clear H; simpl; rewrite ?Z.eqb_refl; simpl.

Lemma init_thread_frame (T : target) (th : Z) (w : world) :
  let w' := snd (__init_thread T th w) in
  thread_at w' th =
    set_join_state
      (if Z.land (flags (attr (thread_at w th))) PTHREAD_ATTR_FLAG_DETACHED =? 0
       then THREAD_NOT_JOINED else THREAD_DETACHED)
      (set_cleanup_stack 0 (thread_at w th)) /\
  kernel_threads w' = kernel_threads w /\
  thread_list w' = thread_list w /\
  mappings w' = mappings w /\
  clone_replies (replies w') = clone_replies (replies w) /\
  exists evs, trace w' = evs ++ trace w.
Proof.
  destruct (__init_thread T th w) as [r w'] eqn:H. cbn [snd]. cbv zeta.
  destruct w. unfold thread_at. simpl.
  init_run H; init_done H; repeat split;
    first [ exists []; reflexivity
          | eexists [_]; reflexivity
          | eexists [_; _]; reflexivity
          | eexists [_; _; _]; reflexivity
          | eexists [_; _; _; _]; reflexivity
          | eexists [_; _; _; _; _]; reflexivity ].
Qed.

Lemma inherit_in_mask (fl : Z) :
  (Z.land fl PTHREAD_ATTR_FLAG_INHERIT =? 0) = false ->
  (Z.land fl (Z.lor PTHREAD_ATTR_FLAG_INHERIT PTHREAD_ATTR_FLAG_EXPLICIT) =? 0) = false.
Proof.
  intros H. apply Z.eqb_neq in H. apply Z.eqb_neq. intros E. apply H.
  replace PTHREAD_ATTR_FLAG_INHERIT
    with (Z.land (Z.lor PTHREAD_ATTR_FLAG_INHERIT PTHREAD_ATTR_FLAG_EXPLICIT)
            PTHREAD_ATTR_FLAG_INHERIT) by reflexivity.
  rewrite Z.land_assoc, E. reflexivity.
Qed.

(** The inherit path of [__init_thread], reply by reply. *)
Lemma init_thread_inherit (T : target) (th : Z) (w : world) :
  Z.land (flags (attr (thread_at w th))) PTHREAD_ATTR_FLAG_INHERIT <> 0 ->
  let r := fst (__init_thread T th w) in
  let w' := snd (__init_thread T th w) in
  match hd (Ok 0%N) (getscheduler_replies (replies w)) with
  | Err e =>
      r = Z.pos e /\
      sched_calls (trace w') = EvSchedGetscheduler (-1) :: sched_calls (trace w)
  | Ok p =>
      if Z.land (Z.of_N p) SCHED_RESET_ON_FORK =? 0 then
        r = 0 /\
        sched_calls (trace w') = EvSchedGetscheduler (Z.of_N p) :: sched_calls (trace w)
      else
        match hd (Ok 0) (getparam_replies (replies w)) with
        | Err e =>
            r = Z.pos e /\
            sched_calls (trace w') =
              EvSchedGetparam (-1) :: EvSchedGetscheduler (Z.of_N p)
              :: sched_calls (trace w)
        | Ok prio =>
            match hd (Ok tt) (setscheduler_replies (replies w)) with
            | Ok _ =>
                r = 0 /\
                sched_calls (trace w') =
                  EvSchedSetscheduler (tid (thread_at w th)) (Z.of_N p) prio 0
                  :: EvSchedGetparam 0 :: EvSchedGetscheduler (Z.of_N p)
                  :: sched_calls (trace w)
            | Err e =>
                r = (if lp64 T then Z.pos e else 0) /\
                sched_calls (trace w') =
                  EvSchedSetscheduler (tid (thread_at w th)) (Z.of_N p) prio (-1)
                  :: EvSchedGetparam 0 :: EvSchedGetscheduler (Z.of_N p)
                  :: sched_calls (trace w)
            end
        end
  end.
Proof.
  intros Hinh. apply Z.eqb_neq in Hinh. pose proof (inherit_in_mask _ Hinh) as Hmask.
  destruct (__init_thread T th w) as [r w'] eqn:H. cbn [fst snd]. cbv zeta.
  destruct w. unfold thread_at in *. simpl in *.
  init_run H; init_done H; try congruence; repeat split.
Qed.

Lemma cons_neq_self {A} (x : A) (l : list A) : l <> x :: l.
Proof.
  intros E. apply (f_equal (@List.length A)) in E. simpl in E. lia.
Qed.

Lemma hd_of_cons_tl {A} (d x : A) (l : list A) : l = x :: tl l -> hd d l = x.
Proof. intros E. rewrite E. reflexivity. Qed.

(** A [sched_setscheduler] call that fails: the warning is logged, and
    the error is returned on LP64 only. *)
Lemma init_thread_set_failed (T : target) (th : Z) (w : world) (e : positive) :
  setscheduler_replies (replies w)
    = Err e :: setscheduler_replies (replies (snd (__init_thread T th w))) ->
  fst (__init_thread T th w) = (if lp64 T then Z.pos e else 0) /\
  exists policy prio rest,
    trace (snd (__init_thread T th w)) =
      EvLog "pthread_create sched_setscheduler(%d, {%d}) call failed: %s"
      :: EvSchedSetscheduler (tid (thread_at w th)) policy prio (-1) :: rest.
Proof.
  destruct (__init_thread T th w) as [r w'] eqn:H. cbn [fst snd].
  destruct w. unfold thread_at. simpl.
  init_run H; init_done H; intros E;
    try (exfalso; eapply cons_neq_self; eassumption);
    try (apply (hd_of_cons_tl (Ok tt)) in E; congruence).
  all: apply (hd_of_cons_tl (Ok tt)) in E;
    match goal with
    | H1 : hd (Ok tt) ?l = Err ?x, H2 : hd (Ok tt) ?l = Err ?y |- _ =>
        rewrite H1 in H2; inversion H2; subst
    end;
    (split; [reflexivity | eauto]).
Qed.

(* ================================================================= *)
(** ** Allocation as [pthread_create] sees it *)

Lemma page_le_size_max (T : target) : PTHREAD_GUARD_SIZE <= SIZE_MAX T.
Proof.
  unfold SIZE_MAX, PTHREAD_GUARD_SIZE, PAGE_SIZE.
  destruct (pow2_size_bits T) as [-> | ->]; lia.
Qed.

Lemma page_round_up_pos (x : Z) : 0 < x -> 0 < page_round_up x.
Proof. unfold page_round_up, PAGE_SIZE. lia. Qed.

Lemma requested_sizes_range (T : target) (a : pthread_attr_t) :
  0 <= stack_size a <= SIZE_MAX T ->
  0 <= fst (requested_sizes T a) <= SIZE_MAX T /\
  0 <= snd (requested_sizes T a) <= SIZE_MAX T.
Proof.
  intros Hss. unfold requested_sizes.
  pose proof (page_le_size_max T) as HP.
  pose proof (BIONIC_ALIGN_range T (guard_size a)) as [HA _].
  destruct (attr_stack_base a =? 0); cbn [fst snd]; unfold SIZE_MAX in *.
  - lia.
  - unfold PTHREAD_GUARD_SIZE, PAGE_SIZE in *. lia.
Qed.

Lemma pthread_create_alloc_failed (T : target) (attr : option pthread_attr_t)
    (start : start_fn) (arg : Z) (w : world)
    (r : Z) (a2 : pthread_attr_t) (tcb cs : Z) (w1 : world) :
  __allocate_thread T (thread_attr_of T attr) w = ((r, a2, tcb, cs), w1) ->
  r <> 0 ->
  pthread_create T attr start arg w = ((r, None), set_errno (errno w) w1).
Proof.
  intros Halloc Hr. apply Z.eqb_neq in Hr.
  unfold pthread_create, ErrnoRestorer. fold (thread_attr_of T attr).
  unfold bind at 1. rewrite Halloc, Hr. reflexivity.
Qed.

(** A successful [__allocate_thread]: the thread's mapping is the one
    new mapping, it is recorded in the bookkeeping structure together
    with the attributes, and nothing else has moved. *)
Lemma allocate_thread_ok (T : target) (a : pthread_attr_t) (w : world)
    (a2 : pthread_attr_t) (tcb cs : Z) (w1 : world) :
  0 <= stack_size a <= SIZE_MAX T ->
  0 <= layout_size T <= SIZE_MAX T ->
  __allocate_thread T a w = ((0, a2, tcb, cs), w1) ->
  let th := slot_thread_id (tcb_at w1 tcb) in
  exists base sz,
    0 < sz /\ base <> 0 /\
    mappings w1 = (base, sz) :: mappings w /\
    thread_mmap_base (thread_at w1 th) = base /\
    thread_mmap_size (thread_at w1 th) = sz /\
    flags (attr (thread_at w1 th)) = flags a /\
    sched_policy (attr (thread_at w1 th)) = sched_policy a /\
    sched_priority (attr (thread_at w1 th)) = sched_priority a /\
    sched_view w1 = sched_view w /\
    (attr_stack_base a <> 0 -> cs = attr_stack_base a + stack_size a).
Proof.
  intros Hss HL H. cbv zeta.
  destruct (requested_sizes_range T a Hss) as [Hrs Hrg].
  apply allocate_thread_inv in H.
  destruct H as [(E & _) | (m & wm & Hm & [(E & _) | (_ & Hb & H)])];
    try discriminate E.
  cbv zeta in H.
  destruct H as (_ & Hcs & Hth & Hattr & Hmb & Hms & Hfl & Hpol & Hprio & Hmap & _ & _ & Hv & _).
  pose proof (allocate_mapping_frame T _ _ w Hrs Hrg HL) as Hfr. rewrite Hm in Hfr.
  apply allocate_mapping_success in Hm; try assumption.
  destruct Hm as (_ & page & r2 & Hm). cbv zeta in Hm.
  destruct Hm as (_ & _ & -> & Hmap' & _).
  cbn [mmap_base mmap_size static_tls] in *.
  rewrite Hth, Hattr, Hmb, Hms. cbn [snd] in Hfr.
  assert (Hpos : 0 < fst (requested_sizes T a) + snd (requested_sizes T a) +
                     gap_size_of T (fst (requested_sizes T a)) w +
                     thread_page_size T + layout_size T + PTHREAD_GUARD_SIZE).
  { pose proof (proj1 (proj1 (gap_size_of_range T (fst (requested_sizes T a)) w))) as G1.
    pose proof (proj1 (proj1 (thread_page_size_range T))) as G2.
    clear - Hrs Hrg HL G1 G2. unfold PTHREAD_GUARD_SIZE, PAGE_SIZE. lia. }
  apply page_round_up_pos in Hpos.
  eexists _, _.
  split; [exact Hpos | split; [apply mmap_base_nonnull |]].
  repeat split; try congruence.
  intros Hnn. apply Z.eqb_neq in Hnn. rewrite Hnn in Hcs. exact Hcs.
Qed.

(* ================================================================= *)
(** * The claims *)

(** ** C6: the size of the random gap *)

(** C6.  The claim bounds the gap by the documented fraction of the stack
    size (one tenth on 32-bit targets, one half on 64-bit targets).  The
    code draws a value below that bound and then rounds it UP to a page,
    which can carry it past the bound.  On the 32-bit target, for the
    default stack size 1032192 the bound is 103219; the draw 103000 is
    below it and the gap comes out as 106496.  On the 64-bit target, for
    a stack of three pages the bound is 6144; the draw 5000 gives a gap
    of 8192.  Both allocations succeed, with the gap recorded as the
    "stack top guard" region. *)
Theorem C6_gap_exceeds_documented_bound :
  (max_gap_size target_ilp32 1032192 = 103219 /\
   gap_size_of target_ilp32 1032192 (world_of (granting_kernel [103000; 5])) = 106496 /\
   let r := __allocate_thread_mapping target_ilp32 1032192 4096
              (world_of (granting_kernel [103000; 5])) in
   mmap_base (fst r) = 409600 /\
   In (EvPrctlName 1445888 106496 "stack top guard") (trace (snd r))) /\
  (max_gap_size target_lp64 12288 = 6144 /\
   gap_size_of target_lp64 12288 (world_of (granting_kernel [5000; 5])) = 8192 /\
   let r := __allocate_thread_mapping target_lp64 12288 4096
              (world_of (granting_kernel [5000; 5])) in
   mmap_base (fst r) = 409600 /\
   In (EvPrctlName 425984 8192 "stack top guard") (trace (snd r))).
Proof.
  vm_compute. repeat split; auto 10.
Qed.

(** What does hold: the gap is a whole number of pages and stays within
    the bound rounded up to a page. *)
Lemma gap_size_bound (T : target) (ss : Z) (w : world) :
  0 <= ss ->
  gap_size_of T ss w mod PAGE_SIZE = 0 /\
  gap_size_of T ss w <= page_round_up (max_gap_size T ss).
Proof.
  intros Hss. split; [apply gap_size_of_range |].
  unfold gap_size_of.
  destruct (arc4random_uniform_spec (max_gap_size T ss) w) as (H0 & H1 & _).
  set (r := fst (arc4random_uniform (max_gap_size T ss) w)) in *.
  assert (Hmax : 0 <= max_gap_size T ss)
    by (unfold max_gap_size; destruct (lp64 T); lia).
  assert (Hu : uint32 (max_gap_size T ss) <= max_gap_size T ss).
  { unfold uint32, wrap. change (2 ^ 32) with 4294967296. lia. }
  rewrite BIONIC_ALIGN_page. unfold wrap, page_round_up, PAGE_SIZE in *.
  change (2 ^ 32) with 4294967296. lia.
Qed.

(** ** C2: overflow of the size computation *)

(** C2.  Whenever a step of the size computation (one of the five
    additions or the final rounding to a page) leaves the range of
    [size_t], [__allocate_thread_mapping] returns the empty mapping
    without any [mmap] call and without touching the mappings; and a
    [pthread_create] whose attributes ask for such sizes returns
    [EAGAIN], writes no handle, and has not called [mmap] either. *)
Theorem C2_overflow_fails_without_reserving (T : target) (ss gs : Z) (w : world) :
  0 <= ss <= SIZE_MAX T -> 0 <= gs <= SIZE_MAX T ->
  0 <= layout_size T <= SIZE_MAX T ->
  total_size_overflows T ss gs (gap_size_of T ss w) ->
  (fst (__allocate_thread_mapping T ss gs w) = empty_mapping /\
   mmap_calls (trace (snd (__allocate_thread_mapping T ss gs w))) = mmap_calls (trace w) /\
   mappings (snd (__allocate_thread_mapping T ss gs w)) = mappings w) /\
  forall attr start arg,
    requested_sizes T (thread_attr_of T attr) = (ss, gs) ->
    fst (pthread_create T attr start arg w) = (EAGAIN, None) /\
    mmap_calls (trace (snd (pthread_create T attr start arg w))) = mmap_calls (trace w) /\
    mappings (snd (pthread_create T attr start arg w)) = mappings w.
Proof.
  intros Hss Hgs HL Hov.
  pose proof (arc4random_uniform_spec (max_gap_size T ss) w) as (_ & _ & Hstep).
  apply random_step_frame in Hstep.
  destruct Hstep as (_ & Hmap & _ & _ & _ & Hcalls & _).
  pose proof (allocate_mapping_overflow T ss gs w Hss Hgs HL Hov) as Hm.
  split.
  - rewrite Hm. cbn [fst snd]. auto.
  - intros attr start arg Hreq.
    destruct (__allocate_thread T (thread_attr_of T attr) w)
      as [[[[r a2] tcb] cs] w1] eqn:Ha.
    pose proof Ha as Hinv. apply allocate_thread_inv in Hinv.
    rewrite Hreq in Hinv. cbn [fst snd] in Hinv. rewrite Hm in Hinv.
    destruct Hinv as [(-> & -> & _) | (m & wm & E & [(-> & _ & ->) | (_ & Hb & _)])].
    + rewrite (pthread_create_alloc_failed _ _ _ _ _ _ _ _ _ _ Ha) by discriminate.
      cbn [fst snd]. auto.
    + inversion E; subst.
      rewrite (pthread_create_alloc_failed _ _ _ _ _ _ _ _ _ _ Ha) by discriminate.
      cbn [fst snd]. simpl. auto.
    + inversion E; subst. exfalso. apply Hb. reflexivity.
Qed.

Lemma C2_witness :
  fst (pthread_create target_lp64 (Some huge_attr) (user_routine 1) 0
         (world_of (granting_kernel []))) = (EAGAIN, None).
Proof.
  apply (C2_overflow_fails_without_reserving target_lp64 (2 ^ 64 - 4096) 4096
           (world_of (granting_kernel []))).
  - vm_compute. split; discriminate.
  - vm_compute. split; discriminate.
  - vm_compute. split; discriminate.
  - left. vm_compute. reflexivity.
  - reflexivity.
Defined.

(** ** C3: failures release the mapping *)



(** ** C5: the layout of the mapping *)

Lemma page_round_up_aligned (x : Z) : x mod PAGE_SIZE = 0 -> page_round_up x = x.
Proof. unfold page_round_up, PAGE_SIZE. lia. Qed.

Lemma page_round_up_add (x y : Z) :
  x mod PAGE_SIZE = 0 -> page_round_up (x + y) = x + page_round_up y.
Proof. unfold page_round_up, PAGE_SIZE. lia. Qed.

Lemma page_round_up_multiple (x : Z) : page_round_up x mod PAGE_SIZE = 0.
Proof. unfold page_round_up, PAGE_SIZE. lia. Qed.

Lemma page_round_up_ge (x : Z) : x <= page_round_up x.
Proof. unfold page_round_up, PAGE_SIZE. lia. Qed.

(** C5.  For a successful allocation with page-aligned [stack_size] and
    [stack_guard_size], the mapping at [mmap_base] consists, low to high,
    of the stack guard, the usable stack, the random gap, the control
    block, the static TLS (in whole pages) and the tail guard: the six
    regions follow one another without overlap, every size is a multiple
    of the page size, the sizes add up to [mmap_size], the descriptor
    points to the static TLS region, and of the mapped addresses exactly
    those of the usable stack and of the control block with the static
    TLS are readable and writable; the others have no access. *)
Theorem C5_mapping_layout (T : target) (ss gs : Z) (w : world)
    (m : ThreadMapping) (w' : world) :
  0 <= ss <= SIZE_MAX T -> 0 <= gs <= SIZE_MAX T ->
  0 <= layout_size T <= SIZE_MAX T ->
  ss mod PAGE_SIZE = 0 -> gs mod PAGE_SIZE = 0 ->
  __allocate_thread_mapping T ss gs w = (m, w') ->
  mmap_base m <> 0 ->
  let gap := gap_size_of T ss w in
  let base := mmap_base m in
  let regions := thread_mapping_regions T ss gs gap base in
  stack_base m = base /\
  nth_error regions 4 = Some (static_tls m, page_round_up (layout_size T)) /\
  ordered_disjoint regions /\
  Forall (fun r => 0 <= snd r /\ snd r mod PAGE_SIZE = 0) regions /\
  mmap_size m = total_size regions /\
  In (base, mmap_size m) (mappings w') /\
  forall a, base <= a < base + mmap_size m ->
    prot_at w' a =
    Some (if in_read_write_part T ss gs gap base a then PROT_READ_WRITE else PROT_NONE).
Proof.
  intros Hss Hgs HL Hssa Hgsa H Hm. cbv zeta.
  apply allocate_mapping_success in H; try assumption.
  destruct H as (_ & page & r2 & H). cbv zeta in H.
  destruct H as (_ & Hmax & -> & Hmap & Hprot & _).
  cbn [mmap_base mmap_size static_tls stack_base].
  pose proof (gap_size_of_range T ss w) as [[Hg0 _] Hga].
  pose proof (thread_page_size_range T) as [[Ht0 _] Hta].
  pose proof (page_round_up_ge (layout_size T)) as HLr.
  pose proof (page_round_up_multiple (layout_size T)) as HLa.
  set (gap := gap_size_of T ss w) in *.
  set (base := PAGE_SIZE * Z.pos page) in *.
  set (tps := thread_page_size T) in *.
  assert (Hsz : page_round_up (ss + gs + gap + tps + layout_size T + PTHREAD_GUARD_SIZE)
                = gs + ss + gap + tps + page_round_up (layout_size T) + PTHREAD_GUARD_SIZE).
  { clear - Hssa Hgsa Hga Hta. unfold page_round_up, PTHREAD_GUARD_SIZE, PAGE_SIZE in *. lia. }
  rewrite Hsz in *.
  assert (HP : PTHREAD_GUARD_SIZE = 4096) by reflexivity.
  split; [reflexivity |].
  split; [reflexivity |].
  split.
  { unfold ordered_disjoint, thread_mapping_regions. fold tps.
    repeat (constructor; [repeat constructor; cbn [fst snd]; lia |]). constructor. }
  split.
  { unfold thread_mapping_regions. fold tps.
    repeat (constructor; [cbn [snd]; split; (assumption || lia || reflexivity) |]).
    constructor. }
  split.
  { unfold total_size, thread_mapping_regions. fold tps. cbn [fold_right snd]. lia. }
  split.
  { rewrite Hmap. left. reflexivity. }
  intros a Ha.
  unfold prot_at, in_read_write_part. rewrite Hmap, Hprot. fold tps.
  rewrite wrap_small
    by (unfold SIZE_MAX in *; destruct HL; clear - Hmax Hss Hgs Hg0 Ht0 HLr HP H; lia).
  rewrite (page_round_up_add tps) by assumption.
  rewrite (page_round_up_aligned ss) by assumption.
  rewrite (page_round_up_aligned
             (gs + ss + gap + tps + page_round_up (layout_size T) + PTHREAD_GUARD_SIZE))
    by (clear - Hssa Hgsa Hga Hta HLa; unfold PTHREAD_GUARD_SIZE, PAGE_SIZE in *; lia).
  cbn [existsb fst snd prot_lookup].
  assert (Hin : inside base
                  (gs + ss + gap + tps + page_round_up (layout_size T) + PTHREAD_GUARD_SIZE) a
                = true).
  { unfold inside. apply andb_true_iff. split; [apply Z.leb_le | apply Z.ltb_lt]; lia. }
  rewrite Hin. cbn [orb].
  destruct (inside (base + gs + ss + gap) (tps + page_round_up (layout_size T)) a);
    destruct (inside (base + gs) ss a); reflexivity.
Qed.

Lemma C5_witness :
  mmap_size (fst (__allocate_thread_mapping target_lp64 8192 4096
                    (world_of (granting_kernel [5000; 5]))))
  = total_size
      (thread_mapping_regions target_lp64 8192 4096
         (gap_size_of target_lp64 8192 (world_of (granting_kernel [5000; 5])))
         (mmap_base (fst (__allocate_thread_mapping target_lp64 8192 4096
                            (world_of (granting_kernel [5000; 5])))))).
Proof.
  refine (proj1 (proj2 (proj2 (proj2 (proj2
    (C5_mapping_layout target_lp64 8192 4096 (world_of (granting_kernel [5000; 5]))
       (fst (__allocate_thread_mapping target_lp64 8192 4096
               (world_of (granting_kernel [5000; 5]))))
       (snd (__allocate_thread_mapping target_lp64 8192 4096
               (world_of (granting_kernel [5000; 5]))))
       _ _ _ _ _ (surjective_pairing _) _)))))).
  - vm_compute. split; discriminate.
  - vm_compute. split; discriminate.
  - vm_compute. split; discriminate.
  - reflexivity.
  - reflexivity.
  - vm_compute. discriminate.
Defined.

(** ** C10: [errno] *)

(** A failing system call does change [errno]: the restorer has work to
    do. *)
Lemma clone_failure_sets_errno (cs th tls : Z) (w : world) (e : positive) :
  hd (Err ENOMEM) (clone_replies (replies w)) = Err e ->
  errno (snd (clone cs th tls w)) = Z.pos e.
Proof. intros H. unfold clone. rewrite H. reflexivity. Qed.

(** C10.  Whatever path [pthread_create] takes, [errno] after the call is
    what it was before the call; failures are reported through the return
    value only. *)
Theorem C10_errno_preserved (T : target) (attr : option pthread_attr_t)
    (start : start_fn) (arg : Z) (w : world) :
  errno (snd (pthread_create T attr start arg w)) = errno w.
Proof.
  unfold pthread_create, ErrnoRestorer.
  match goal with |- context [let (_, _) := ?c w in _] => destruct (c w) end.
  reflexivity.
Qed.

(* ================================================================= *)
(** ** [pthread_create] once the kernel thread exists *)

Lemma sched_view_fields (w1 w : world) :
  sched_view w1 = sched_view w ->
  kernel_threads w1 = kernel_threads w /\ thread_list w1 = thread_list w /\
  clone_replies (replies w1) = clone_replies (replies w) /\
  getscheduler_replies (replies w1) = getscheduler_replies (replies w) /\
  getparam_replies (replies w1) = getparam_replies (replies w) /\
  setscheduler_replies (replies w1) = setscheduler_replies (replies w) /\
  sched_calls (trace w1) = sched_calls (trace w).
Proof. unfold sched_view. intros H. inversion H. repeat split; assumption. Qed.

(** After a successful [clone] the call runs [__init_thread] on the
    prepared structure and finishes according to its result. *)
Lemma pthread_create_spawned (T : target) (attr_opt : option pthread_attr_t)
    (start : start_fn) (arg : Z) (w : world)
    (a2 : pthread_attr_t) (tcb cs : Z) (w1 : world) (t : positive) :
  __allocate_thread T (thread_attr_of T attr_opt) w = ((0, a2, tcb, cs), w1) ->
  hd (Err ENOMEM) (clone_replies (replies w1)) = Ok t ->
  let th := slot_thread_id (tcb_at w1 tcb) in
  let w2 := snd (prepare_and_clone th tcb cs start arg w1) in
  let ie := fst (__init_thread T th w2) in
  let w3 := snd (__init_thread T th w2) in
  let w' := snd (pthread_create T attr_opt start arg w) in
  fst (pthread_create T attr_opt start arg w) = (if ie =? 0 then (0, Some th) else (ie, None)) /\
  kernel_threads w' = Z.pos t :: kernel_threads w1 /\
  thread_list w' = th :: thread_list w1 /\
  mappings w' = mappings w1 /\
  trace w' = EvUnlock th :: EvRegister th :: trace w3 /\
  replies w' = replies w3 /\
  (exists evs, trace w3 = evs ++ EvClone cs th (Z.pos t) :: EvLock th :: trace w1) /\
  startup_handshake_lock (thread_at w' th) = Unlocked /\
  start_routine (thread_at w' th) = (if ie =? 0 then start else __do_nothing) /\
  start_routine_arg (thread_at w' th) = arg /\
  (ie <> 0 -> join_state (thread_at w' th) = THREAD_DETACHED) /\
  thread_mmap_base (thread_at w' th) = thread_mmap_base (thread_at w1 th) /\
  thread_mmap_size (thread_at w' th) = thread_mmap_size (thread_at w1 th) /\
  tid (thread_at w2 th) = Z.pos t /\
  attr (thread_at w2 th) = attr (thread_at w1 th) /\
  replies w2 = pop_clone (replies w1) /\
  trace w2 = EvClone cs th (Z.pos t) :: EvLock th :: trace w1.
Proof.
  intros Halloc Hclone. cbv zeta.
  set (th := slot_thread_id (tcb_at w1 tcb)).
  rewrite (pthread_create_clone_ok T attr_opt start arg w a2 tcb cs w1 th t Halloc eq_refl Hclone).
  cbv zeta.
  destruct (prepare_and_clone_ok th tcb cs start arg w1 t Hclone)
    as (Ht2 & Hk2 & Hl2 & Hm2 & Htr2 & Hr2).
  set (w2 := snd (prepare_and_clone th tcb cs start arg w1)) in *.
  destruct (init_thread_frame T th w2) as (Ht3 & Hk3 & Hl3 & Hm3 & _ & evs & Htr3).
  destruct (__init_thread T th w2) as [ie w3]. cbn [fst snd] in *.
  destruct (detach_and_release_spec th w3) as (Htd & Hld & Hkd & Hmd & Htrd & Hrd).
  destruct (publish_and_release_spec th w3) as (Htp & Hlp & Hkp & Hmp & Htrp & Hrp).
  assert (Hth2 : forall w0 e, thread_at (set_errno e w0) th = thread_at w0 th) by reflexivity.
  destruct (ie =? 0) eqn:Hie; cbn [negb fst snd];
    rewrite ?Hth2; cbn [kernel_threads thread_list mappings trace replies set_errno];
    rewrite ?Htd, ?Htp, ?Hld, ?Hlp, ?Hkd, ?Hkp, ?Hmd, ?Hmp, ?Htrd, ?Htrp, ?Hrd, ?Hrp,
      ?Ht3, ?Hk3, ?Hl3, ?Hm3, ?Htr3, ?Ht2, ?Hk2, ?Hl2, ?Hm2, ?Htr2, ?Hr2;
    repeat split; try reflexivity; try (exists evs; reflexivity).
  - intros Hne. apply Z.eqb_eq in Hie. contradiction.
Qed.

(* ================================================================= *)
(** ** The new thread's first steps *)

Ltac child_split H :=
  match type of H with
  | context [match hd ?d ?l with Ok _ => _ | Err _ => _ end] =>
      destruct (hd d l) eqn:?
  | context [if uint32 ?x <? 2 then _ else _] =>
      destruct (uint32 x <? 2) eqn:?
  | context [if aarch64 ?T then _ else _] =>
      destruct (aarch64 T) eqn:?
  | context [if ?p =? 1 then _ else _] =>
      destruct (p =? 1) eqn:?
  end.

Ltac child_codes H :=
  repeat first
    [ rewrite mmap_base_not_failed in H
    | rewrite Z.eqb_refl in H
    | progress change (0 =? -1) with false in H
    | progress change (-1 =? -1) with true in H
    | progress simpl in H ].

(** Once the handshake lock is free, [__pthread_start] gets through and
    calls the start routine stored in the bookkeeping structure, with the
    stored argument, and no other. *)
Lemma pthread_start_runs (T : target) (th : Z) (w : world) (f : start_fn) (x : Z) :
  startup_handshake_lock (thread_at w th) = Unlocked ->
  start_routine (thread_at w th) = f ->
  start_routine_arg (thread_at w th) = x ->
  exists wc, __pthread_start T th w = Some (tt, wc) /\
             runs (trace wc) = EvRun th f x :: runs (trace w).
Proof.
  intros Hlock Hf Hx. unfold __pthread_start. rewrite Hlock.
  match goal with |- context [Some (?c w)] => destruct (c w) as [[] wc] eqn:H end.
  exists wc. split; [reflexivity |].
  destruct w. unfold thread_at in Hf, Hx. simpl in Hf, Hx.
  unfold __init_additional_stacks, __init_alternate_signal_stack,
    __init_shadow_call_stack in H.
  repeat progress
    unfold bind, ret, log, modify, gets, update_thread, load_thread, lock_lock,
      prctl_set_vma_name, mmap, mprotect, munmap, arc4random_uniform, thread_at in H.
  unfold MAP_FAILED in H.
  child_codes H.
  repeat (child_split H; child_codes H).
  all: inversion H; subst; clear H; unfold runs; simpl; reflexivity.
Qed.

(** ** C8: the spawn call fails *)

(** C8.  If allocation has succeeded and the kernel refuses [clone] with
    error [e], [pthread_create] returns [e] and writes no handle; it
    releases the handshake lock and then unmaps the thread's mapping, the
    one mapping the allocation had added, so that the live mappings are
    what they were before the call; no kernel thread has been added and
    nothing has been registered. *)
Theorem C8_clone_failure (T : target) (attr_opt : option pthread_attr_t)
    (start : start_fn) (arg : Z) (w : world)
    (a2 : pthread_attr_t) (tcb cs : Z) (w1 : world) (e : positive) :
  0 <= stack_size (thread_attr_of T attr_opt) <= SIZE_MAX T ->
  0 <= layout_size T <= SIZE_MAX T ->
  __allocate_thread T (thread_attr_of T attr_opt) w = ((0, a2, tcb, cs), w1) ->
  hd (Err ENOMEM) (clone_replies (replies w)) = Err e ->
  let th := slot_thread_id (tcb_at w1 tcb) in
  let w' := snd (pthread_create T attr_opt start arg w) in
  fst (pthread_create T attr_opt start arg w) = (Z.pos e, None) /\
  mappings w' = mappings w /\
  kernel_threads w' = kernel_threads w /\
  thread_list w' = thread_list w /\
  exists base sz,
    mappings w1 = (base, sz) :: mappings w /\
    trace w' =
      EvLog "pthread_create failed: clone failed: %s"
      :: EvMunmap base sz :: EvUnlock th :: EvClone cs th (-1) :: EvLock th :: trace w1.
Proof.
  intros Hss HL Halloc Hclone. cbv zeta.
  destruct (allocate_thread_ok T _ w a2 tcb cs w1 Hss HL Halloc)
    as (base & sz & Hsz & _ & Hmap & Hmb & Hms & _ & _ & _ & Hv & _).
  apply sched_view_fields in Hv. destruct Hv as (Hk & Hl & Hc & _).
  rewrite <- Hc in Hclone.
  destruct (pthread_create_clone_failed T attr_opt start arg w a2 tcb cs w1 _ e
              Halloc eq_refl) as (Hr & _ & Hm' & Hk' & Hl' & Htr); try assumption.
  { rewrite Hms. lia. }
  rewrite Hmb, Hms in *. rewrite Hmap in Hm'. rewrite remove_region_head in Hm'.
  repeat split; try congruence.
  exists base, sz. split; assumption.
Qed.

Lemma C8_witness :
  fst (pthread_create target_lp64 None (user_routine 1) 0 (world_of clone_refusing_kernel))
  = (11, None).
Proof.
  refine (proj1
    (C8_clone_failure target_lp64 None (user_routine 1) 0 (world_of clone_refusing_kernel)
       (snd (fst (fst (fst (__allocate_thread target_lp64 default_attr_lp64
                             (world_of clone_refusing_kernel))))))
       (snd (fst (fst (__allocate_thread target_lp64 default_attr_lp64
                        (world_of clone_refusing_kernel)))))
       (snd (fst (__allocate_thread target_lp64 default_attr_lp64
                   (world_of clone_refusing_kernel))))
       (snd (__allocate_thread target_lp64 default_attr_lp64
               (world_of clone_refusing_kernel)))
       11%positive _ _ _ _)).
  - vm_compute. split; discriminate.
  - vm_compute. split; discriminate.
  - vm_compute. reflexivity.
  - reflexivity.
Defined.

(** ** C1: initialisation fails after the spawn *)

Lemma detach_steps_run (th : Z) (w3 : world) :
  snd (detach_and_release th w3) = last (states_through (detach_steps th) w3) w3.
Proof. reflexivity. Qed.

Lemma pthread_start_blocked (T : target) (th : Z) (s : world) :
  startup_handshake_lock (thread_at s th) = LockedWithoutWaiter ->
  __pthread_start T th s = None.
Proof. intros H. unfold __pthread_start. rewrite H. reflexivity. Qed.

(** C1.  If allocation and [clone] have succeeded and [__init_thread],
    run on the state [pthread_create] has reached right after [clone],
    returns an error, then [pthread_create] returns that error and
    writes no handle.  The kernel thread exists by then.  The creator
    goes on through the four statements of the failure path in their
    order: mark detached, register, replace the start routine by
    [__do_nothing], release the handshake lock.  In every state from
    [clone] to the end the new thread is either held at the lock or,
    in the last state only, gets through and calls [__do_nothing], not
    the caller's routine.  At the end the structure is detached, its
    start routine is [__do_nothing], the thread is registered and the
    lock is free. *)
Theorem C1_post_spawn_init_failure (T : target) (attr_opt : option pthread_attr_t)
    (start : start_fn) (arg : Z) (w : world)
    (a2 : pthread_attr_t) (tcb cs : Z) (w1 : world) (t : positive) :
  0 <= stack_size (thread_attr_of T attr_opt) <= SIZE_MAX T ->
  0 <= layout_size T <= SIZE_MAX T ->
  __allocate_thread T (thread_attr_of T attr_opt) w = ((0, a2, tcb, cs), w1) ->
  hd (Err ENOMEM) (clone_replies (replies w)) = Ok t ->
  let th := slot_thread_id (tcb_at w1 tcb) in
  let w2 := snd (prepare_and_clone th tcb cs start arg w1) in
  let init_errno := fst (__init_thread T th w2) in
  let w3 := snd (__init_thread T th w2) in
  let w' := snd (pthread_create T attr_opt start arg w) in
  init_errno <> 0 ->
  fst (pthread_create T attr_opt start arg w) = (init_errno, None) /\
  kernel_threads w2 = Z.pos t :: kernel_threads w /\
  tid (thread_at w2 th) = Z.pos t /\
  w' = set_errno (errno w) (last (states_through (detach_steps th) w3) w3) /\
  (forall s wc,
     In s (w2 :: states_through (detach_steps th) w3) ->
     __pthread_start T th s = Some (tt, wc) ->
     s = last (states_through (detach_steps th) w3) w3 /\
     runs (trace wc) = EvRun th __do_nothing arg :: runs (trace s)) /\
  join_state (thread_at w' th) = THREAD_DETACHED /\
  start_routine (thread_at w' th) = __do_nothing /\
  In th (thread_list w') /\
  startup_handshake_lock (thread_at w' th) = Unlocked /\
  (exists rest, trace w' = EvUnlock th :: EvRegister th :: rest) /\
  kernel_threads w' = Z.pos t :: kernel_threads w /\
  exists wc,
    __pthread_start T th w' = Some (tt, wc) /\
    runs (trace wc) = EvRun th __do_nothing arg :: runs (trace w').
Proof.
  intros Hss HL Halloc Hclone. cbv zeta. intros Hfail.
  destruct (allocate_thread_ok T _ w a2 tcb cs w1 Hss HL Halloc)
    as (base & sz & _ & _ & _ & _ & _ & _ & _ & _ & Hv & _).
  apply sched_view_fields in Hv. destruct Hv as (Hk & _ & Hc & _).
  rewrite <- Hc in Hclone.
  pose proof (pthread_create_spawned T attr_opt start arg w a2 tcb cs w1 t Halloc Hclone) as H.
  cbv zeta in H.
  pose proof (pthread_create_clone_ok T attr_opt start arg w a2 tcb cs w1 _ t
                Halloc eq_refl Hclone) as Hpc.
  cbv zeta in Hpc.
  pose proof (prepare_and_clone_ok (slot_thread_id (tcb_at w1 tcb)) tcb cs start arg w1 t Hclone)
    as (Ht2 & Hk2 & _).
  set (th := slot_thread_id (tcb_at w1 tcb)) in *.
  set (w2 := snd (prepare_and_clone th tcb cs start arg w1)) in *.
  destruct (init_thread_frame T th w2) as (Ht3 & _).
  destruct H as (Hr & Hk' & Hl' & _ & Htr & _ & _ & Hlock & Hstart & Harg & Hjoin & _ & _ & Htid & _).
  destruct (__init_thread T th w2) as [ie w3] eqn:Hinit. cbn [fst snd] in *.
  assert (Hie : (ie =? 0) = false) by (apply Z.eqb_neq; exact Hfail).
  rewrite Hie in *. cbn [negb fst snd] in *.
  assert (Hw' : snd (pthread_create T attr_opt start arg w)
                = set_errno (errno w) (last (states_through (detach_steps th) w3) w3)).
  { rewrite Hpc. cbn [snd]. rewrite detach_steps_run. reflexivity. }
  split; [exact Hr |].
  split; [rewrite Hk2, Hk; reflexivity |].
  split; [exact Htid |].
  split; [exact Hw' |].
  split.
  { assert (Hlock2 : startup_handshake_lock (thread_at w2 th) = LockedWithoutWaiter)
      by (rewrite Ht2; reflexivity).
    assert (Hlock3 : startup_handshake_lock (thread_at w3 th) = LockedWithoutWaiter)
      by (rewrite Ht3; exact Hlock2).
    assert (Harg3 : start_routine_arg (thread_at w3 th) = arg)
      by (rewrite Ht3, Ht2; reflexivity).
    intros s wc Hin Hrun.
    cbn [states_through detach_steps] in Hin.
    destruct Hin as [<- | [<- | [<- | [<- | [<- | [<- | []]]]]]].
    - rewrite (pthread_start_blocked T th _ Hlock2) in Hrun. discriminate Hrun.
    - rewrite (pthread_start_blocked T th _ Hlock3) in Hrun. discriminate Hrun.
    - rewrite pthread_start_blocked in Hrun; [discriminate Hrun |].
      revert Hlock3. clear. destruct w3. unfold thread_at. do 3 (try world_run). trivial.
    - rewrite pthread_start_blocked in Hrun; [discriminate Hrun |].
      revert Hlock3. clear. destruct w3. unfold thread_at. do 3 (try world_run). trivial.
    - rewrite pthread_start_blocked in Hrun; [discriminate Hrun |].
      revert Hlock3. clear. destruct w3. unfold thread_at. do 3 (try world_run). trivial.
    - split; [reflexivity |].
      match type of Hrun with __pthread_start T th ?s = _ =>
        destruct (pthread_start_runs T th s __do_nothing arg) as (wc0 & Hrun0 & Hruns0)
      end.
      + clear. destruct w3. unfold thread_at. do 3 (try world_run). reflexivity.
      + clear. destruct w3. unfold thread_at. do 3 (try world_run). reflexivity.
      + revert Harg3. clear. destruct w3. unfold thread_at. do 3 (try world_run). trivial.
      + rewrite Hrun0 in Hrun. inversion Hrun; subst wc0. exact Hruns0. }
  split; [apply Hjoin; exact Hfail |].
  split; [assumption |].
  split; [rewrite Hl'; left; reflexivity |].
  split; [assumption |].
  split; [eexists; eassumption |].
  split; [congruence |].
  apply pthread_start_runs; assumption.
Qed.

Lemma C1_witness :
  start_routine
    (thread_at (snd (pthread_create target_lp64 (Some explicit_attr) (user_routine 1) 0
                       (world_of policy_refusing_kernel)))
       (slot_thread_id
          (tcb_at (snd (__allocate_thread target_lp64 explicit_attr
                          (world_of policy_refusing_kernel)))
             (snd (fst (fst (__allocate_thread target_lp64 explicit_attr
                              (world_of policy_refusing_kernel))))))))
  = __do_nothing.
Proof.
  refine (proj1 (proj2 (proj2 (proj2 (proj2 (proj2 (proj2
    (C1_post_spawn_init_failure target_lp64 (Some explicit_attr) (user_routine 1) 0
       (world_of policy_refusing_kernel)
       (snd (fst (fst (fst (__allocate_thread target_lp64 explicit_attr
                             (world_of policy_refusing_kernel))))))
       (snd (fst (fst (__allocate_thread target_lp64 explicit_attr
                        (world_of policy_refusing_kernel)))))
       (snd (fst (__allocate_thread target_lp64 explicit_attr
                   (world_of policy_refusing_kernel))))
       (snd (__allocate_thread target_lp64 explicit_attr
               (world_of policy_refusing_kernel)))
       77%positive _ _ _ _ _)))))))).
  - vm_compute. split; discriminate.
  - vm_compute. split; discriminate.
  - vm_compute. reflexivity.
  - reflexivity.
  - vm_compute. discriminate.
Defined.

(** ** C9: a stack supplied by the caller *)

Lemma gap_size_of_zero (T : target) (w : world) : gap_size_of T 0 w = 0.
Proof.
  unfold gap_size_of, max_gap_size, arc4random_uniform.
  destruct (lp64 T); reflexivity.
Qed.

(** When the kernel grants the reservation and both protection changes,
    [reserve_and_carve] succeeds, with these calls in this order. *)
Lemma reserve_granted (T : target) (ss gs gap sz : Z) (w : world) (page : positive) :
  hd (Err ENOMEM) (mmap_replies (replies w)) = Ok page ->
  hd (Ok tt) (mprotect_replies (replies w)) = Ok tt ->
  hd (Ok tt) (tl (mprotect_replies (replies w))) = Ok tt ->
  let base := PAGE_SIZE * Z.pos page in
  let m := fst (reserve_and_carve T ss gs gap sz w) in
  let w' := snd (reserve_and_carve T ss gs gap sz w) in
  mmap_base m = base /\
  exists evs,
    trace w' =
      evs ++
      EvMprotect (base + gs + ss + gap)
        (wrap (size_bits T) (thread_page_size T + layout_size T)) PROT_READ_WRITE 0
      :: EvPrctlName (base + gs + ss) gap "stack top guard"
      :: EvPrctlName base gs "stack guard"
      :: EvMprotect (base + gs) ss PROT_READ_WRITE 0
      :: EvMmap sz PROT_NONE base :: trace w.
Proof.
  intros Hmmap Hp1 Hp2. cbv zeta.
  destruct (reserve_and_carve T ss gs gap sz w) as [m w'] eqn:H. cbn [fst snd].
  destruct w as [e0 maps0 prots0 kts0 tl0 ths0 tcbs0 tr0 pid0 k0].
  simpl in Hmmap, Hp1, Hp2.
  unfold reserve_and_carve in H. os_unfold H. simpl in H.
  rewrite Hmmap in H. simpl in H. os_codes H.
  rewrite Hp1 in H. simpl in H. os_codes H.
  rewrite Hp2 in H. simpl in H. os_codes H. simpl in H.
  destruct (uint32 (sizeof_pthread_internal_t T) <? 2); simpl in H;
    inversion H; subst; clear H; simpl; split; try reflexivity.
  - exists []. reflexivity.
  - eexists [_]. reflexivity.
Qed.

Lemma no_stack_no_overflow (T : target) :
  0 <= layout_size T ->
  PTHREAD_GUARD_SIZE + thread_page_size T + page_round_up (layout_size T)
    + PTHREAD_GUARD_SIZE <= SIZE_MAX T ->
  ~ total_size_overflows T 0 PTHREAD_GUARD_SIZE 0.
Proof.
  intros HL Hfit.
  pose proof (thread_page_size_range T) as [[Ht0 _] Hta].
  pose proof (page_round_up_ge (layout_size T)) as Hge.
  unfold total_size_overflows. cbv zeta.
  assert (E : page_round_up (0 + PTHREAD_GUARD_SIZE + 0 + thread_page_size T + layout_size T
                             + PTHREAD_GUARD_SIZE)
              = PTHREAD_GUARD_SIZE + thread_page_size T + page_round_up (layout_size T)
                + PTHREAD_GUARD_SIZE).
  { clear - Hta. unfold page_round_up, PTHREAD_GUARD_SIZE, PAGE_SIZE in *. lia. }
  rewrite E. unfold PTHREAD_GUARD_SIZE, PAGE_SIZE in *. lia.
Qed.

Lemma no_stack_no_gap (T : target) (w : world) :
  arc4random_uniform (max_gap_size T 0) w = (0, w).
Proof.
  unfold max_gap_size, arc4random_uniform.
  destruct (lp64 T); reflexivity.
Qed.

(** C9.  When the attributes carry a stack of the caller's,
    [__allocate_thread] reserves and protects memory exactly as the call
    [__allocate_thread_mapping(0, PTHREAD_GUARD_SIZE)] does, whatever the
    caller's guard size and stack size are, and succeeds exactly when
    that call does; a failure is [EAGAIN] with the memory map as before.
    If the kernel grants the reservation and the two protection changes
    and the size fits, the call succeeds: the one new mapping holds a
    guard of [PTHREAD_GUARD_SIZE], the control block, the static TLS in
    whole pages and the tail guard, and no stack bytes (the stack
    protection request has length 0); the bookkeeping structure sits
    right above the guard and records the mapping; and the child stack
    pointer handed back is the caller's base plus size.  That is the
    stack pointer [pthread_create] passes to [clone]. *)
Theorem C9_caller_supplied_stack (T : target) (attr_opt : option pthread_attr_t)
    (start : start_fn) (arg : Z) (w : world)
    (r : Z) (a2 : pthread_attr_t) (tcb cs : Z) (w1 : world) :
  let a := thread_attr_of T attr_opt in
  attr_stack_base a <> 0 ->
  0 <= stack_size a <= SIZE_MAX T ->
  0 <= layout_size T <= SIZE_MAX T ->
  __allocate_thread T a w = ((r, a2, tcb, cs), w1) ->
  let run := __allocate_thread_mapping T 0 PTHREAD_GUARD_SIZE w in
  let size := PTHREAD_GUARD_SIZE + thread_page_size T + page_round_up (layout_size T)
              + PTHREAD_GUARD_SIZE in
  mappings w1 = mappings (snd run) /\
  protections w1 = protections (snd run) /\
  trace w1 = trace (snd run) /\
  (r = 0 <-> mmap_base (fst run) <> 0) /\
  (r <> 0 -> r = EAGAIN /\ mappings w1 = mappings w) /\
  (forall page,
     hd (Err ENOMEM) (mmap_replies (replies w)) = Ok page ->
     hd (Ok tt) (mprotect_replies (replies w)) = Ok tt ->
     hd (Ok tt) (tl (mprotect_replies (replies w))) = Ok tt ->
     size <= SIZE_MAX T ->
     let base := PAGE_SIZE * Z.pos page in
     let th := slot_thread_id (tcb_at w1 tcb) in
     r = 0 /\
     cs = attr_stack_base a + stack_size a /\
     mappings w1 = (base, size) :: mappings w /\
     thread_mmap_base (thread_at w1 th) = base /\
     thread_mmap_size (thread_at w1 th) = size /\
     th = base + PTHREAD_GUARD_SIZE /\
     tcb = base + PTHREAD_GUARD_SIZE + thread_page_size T + layout_offset_bionic_tcb T /\
     exists evs,
       trace w1 =
         evs ++
         EvMprotect (base + PTHREAD_GUARD_SIZE)
           (wrap (size_bits T) (thread_page_size T + layout_size T)) PROT_READ_WRITE 0
         :: EvPrctlName (base + PTHREAD_GUARD_SIZE) 0 "stack top guard"
         :: EvPrctlName base PTHREAD_GUARD_SIZE "stack guard"
         :: EvMprotect (base + PTHREAD_GUARD_SIZE) 0 PROT_READ_WRITE 0
         :: EvMmap size PROT_NONE base :: trace w) /\
  (r = 0 ->
   cs = attr_stack_base a + stack_size a /\
   mmap_size (fst run) = size /\
   exists th code,
     In (EvClone (attr_stack_base a + stack_size a) th code)
        (trace (snd (pthread_create T attr_opt start arg w)))).
Proof.
  intros a Hnn Hss HL Halloc. cbv zeta.
  pose proof (page_le_size_max T) as HP.
  assert (H0 : 0 <= 0 <= SIZE_MAX T)
    by (unfold PTHREAD_GUARD_SIZE, PAGE_SIZE in HP; lia).
  assert (H1 : 0 <= PTHREAD_GUARD_SIZE <= SIZE_MAX T)
    by (split; [unfold PTHREAD_GUARD_SIZE, PAGE_SIZE; lia | assumption]).
  pose proof (proj2 (thread_page_size_range T)) as Hta.
  assert (Esize : page_round_up (0 + PTHREAD_GUARD_SIZE + 0 + thread_page_size T
                                 + layout_size T + PTHREAD_GUARD_SIZE)
                  = PTHREAD_GUARD_SIZE + thread_page_size T + page_round_up (layout_size T)
                    + PTHREAD_GUARD_SIZE).
  { clear - Hta. unfold page_round_up, PTHREAD_GUARD_SIZE, PAGE_SIZE in *. lia. }
  pose proof Halloc as Hinv. apply allocate_thread_inv in Hinv.
  assert (Hreq : requested_sizes T a = (0, PTHREAD_GUARD_SIZE)).
  { unfold requested_sizes. apply Z.eqb_neq in Hnn. rewrite Hnn. reflexivity. }
  rewrite Hreq in Hinv. cbn [fst snd] in Hinv.
  destruct Hinv as [(_ & _ & E & _) | (m & wm & Hm & Hcase)]; [contradiction |].
  assert (Hgranted : forall page,
     hd (Err ENOMEM) (mmap_replies (replies w)) = Ok page ->
     hd (Ok tt) (mprotect_replies (replies w)) = Ok tt ->
     hd (Ok tt) (tl (mprotect_replies (replies w))) = Ok tt ->
     PTHREAD_GUARD_SIZE + thread_page_size T + page_round_up (layout_size T)
       + PTHREAD_GUARD_SIZE <= SIZE_MAX T ->
     mmap_base m = PAGE_SIZE * Z.pos page /\
     exists evs,
       trace wm =
         evs ++
         EvMprotect (PAGE_SIZE * Z.pos page + PTHREAD_GUARD_SIZE)
           (wrap (size_bits T) (thread_page_size T + layout_size T)) PROT_READ_WRITE 0
         :: EvPrctlName (PAGE_SIZE * Z.pos page + PTHREAD_GUARD_SIZE) 0 "stack top guard"
         :: EvPrctlName (PAGE_SIZE * Z.pos page) PTHREAD_GUARD_SIZE "stack guard"
         :: EvMprotect (PAGE_SIZE * Z.pos page + PTHREAD_GUARD_SIZE) 0 PROT_READ_WRITE 0
         :: EvMmap (PTHREAD_GUARD_SIZE + thread_page_size T + page_round_up (layout_size T)
                    + PTHREAD_GUARD_SIZE) PROT_NONE (PAGE_SIZE * Z.pos page) :: trace w).
  { intros page Hmmap Hp1 Hp2 Hfit.
    assert (Hno : ~ total_size_overflows T 0 PTHREAD_GUARD_SIZE (gap_size_of T 0 w)).
    { rewrite gap_size_of_zero. exact (no_stack_no_overflow T (proj1 HL) Hfit). }
    pose proof (allocate_mapping_sizes T 0 PTHREAD_GUARD_SIZE w H0 H1 HL Hno) as Hrun.
    rewrite Hm, gap_size_of_zero, Esize, no_stack_no_gap in Hrun. cbn [snd] in Hrun.
    pose proof (reserve_granted T 0 PTHREAD_GUARD_SIZE 0
                  (PTHREAD_GUARD_SIZE + thread_page_size T + page_round_up (layout_size T)
                   + PTHREAD_GUARD_SIZE) w page Hmmap Hp1 Hp2) as Hg.
    cbv zeta in Hg. rewrite <- Hrun in Hg. cbn [fst snd] in Hg.
    destruct Hg as (Hb & evs & Htr). split; [exact Hb |].
    exists evs. rewrite Htr.
    replace (PAGE_SIZE * Z.pos page + PTHREAD_GUARD_SIZE + 0 + 0)
      with (PAGE_SIZE * Z.pos page + PTHREAD_GUARD_SIZE) by lia.
    replace (PAGE_SIZE * Z.pos page + PTHREAD_GUARD_SIZE + 0)
      with (PAGE_SIZE * Z.pos page + PTHREAD_GUARD_SIZE) by lia.
    reflexivity. }
  rewrite Hm. cbn [fst snd].
  destruct Hcase as [(-> & Hz & ->) | (-> & Hb & Hfacts)].
  { destruct (allocate_mapping_failure T 0 PTHREAD_GUARD_SIZE w m wm H0 H1 HL Hm Hz)
      as (_ & Hmaps & _).
    split; [reflexivity |]. split; [reflexivity |]. split; [reflexivity |].
    split; [split; [intros E; discriminate E | intros E; contradiction] |].
    split; [intros _; split; [reflexivity | exact Hmaps] |].
    split.
    - intros page Hmmap Hp1 Hp2 Hfit. exfalso.
      destruct (Hgranted page Hmmap Hp1 Hp2 Hfit) as (Hb & _).
      rewrite Hz in Hb. symmetry in Hb. exact (mmap_base_nonnull page Hb).
    - intros E. discriminate E. }
  cbv zeta in Hfacts.
  destruct Hfacts as (Htcb & Hcs & Hth & _ & Hmb & Hms & _ & _ & _ & Hmap & Hprot & Htr & _).
  assert (Hnb := proj2 (Z.eqb_neq _ _) Hnn). rewrite Hnb in Hcs.
  pose proof Hm as Hsucc.
  apply (allocate_mapping_success T 0 PTHREAD_GUARD_SIZE w m wm H0 H1 HL) in Hsucc;
    [| assumption].
  destruct Hsucc as (_ & page' & r2 & Hsucc). cbv zeta in Hsucc.
  destruct Hsucc as (_ & _ & Em & Hmaps & _).
  rewrite gap_size_of_zero, Esize in Em, Hmaps.
  split; [exact Hmap |]. split; [exact Hprot |]. split; [exact Htr |].
  split; [split; [intros _; exact Hb | reflexivity] |].
  split; [intros E; exfalso; apply E; reflexivity |].
  split.
  - intros page Hmmap Hp1 Hp2 Hfit.
    destruct (Hgranted page Hmmap Hp1 Hp2 Hfit) as (Hbase & evs & Htrm).
    assert (Epage : PAGE_SIZE * Z.pos page' = PAGE_SIZE * Z.pos page).
    { rewrite <- Hbase, Em. reflexivity. }
    rewrite Epage in Em, Hmaps.
    rewrite Hth, Hmb, Hms, Hmap, Hmaps, Htr, Htrm, Htcb, Em.
    cbn [mmap_base mmap_size static_tls].
    split; [reflexivity |]. split; [exact Hcs |]. split; [reflexivity |].
    split; [reflexivity |]. split; [reflexivity |].
    split; [lia |]. split; [lia |].
    exists evs. reflexivity.
  - intros _. split; [exact Hcs |]. split; [rewrite Em; reflexivity |].
    destruct (allocate_thread_ok T a w a2 tcb cs w1 Hss HL Halloc)
      as (base & sz & Hsz & _ & _ & _ & Hms' & _ & _ & _ & _ & _).
    subst cs.
    destruct (hd (Err ENOMEM) (clone_replies (replies w1))) as [t | e] eqn:Hclone.
    + pose proof (pthread_create_spawned T attr_opt start arg w a2 tcb _ w1 t Halloc Hclone)
        as Hsp. cbv zeta in Hsp.
      destruct Hsp as (_ & _ & _ & _ & Htr' & _ & (evs & Htr3) & _).
      eexists _, _. rewrite Htr', Htr3.
      right. right. apply in_app_iff. right. left. reflexivity.
    + destruct (pthread_create_clone_failed T attr_opt start arg w a2 tcb _ w1 _ e
                  Halloc eq_refl) as (_ & _ & _ & _ & _ & Htr'); try assumption.
      { rewrite Hms'. lia. }
      eexists _, _. rewrite Htr'. do 3 right. left. reflexivity.
Qed.

Lemma C9_witness :
  fst (fst (fst (fst (__allocate_thread target_lp64 own_stack_attr
                        (world_of (granting_kernel [])))))) = 0 /\
  snd (fst (__allocate_thread target_lp64 own_stack_attr
              (world_of (granting_kernel []))))
  = attr_stack_base own_stack_attr + stack_size own_stack_attr.
Proof.
  refine (
    let H := proj1 (proj2 (proj2 (proj2 (proj2 (proj2
      (C9_caller_supplied_stack target_lp64 (Some own_stack_attr) (user_routine 1) 0
         (world_of (granting_kernel []))
         (fst (fst (fst (fst (__allocate_thread target_lp64 own_stack_attr
                               (world_of (granting_kernel [])))))))
         (snd (fst (fst (fst (__allocate_thread target_lp64 own_stack_attr
                               (world_of (granting_kernel [])))))))
         (snd (fst (fst (__allocate_thread target_lp64 own_stack_attr
                          (world_of (granting_kernel []))))))
         (snd (fst (__allocate_thread target_lp64 own_stack_attr
                     (world_of (granting_kernel [])))))
         (snd (__allocate_thread target_lp64 own_stack_attr
                 (world_of (granting_kernel []))))
         _ _ _ _)))))) 100%positive _ _ _ _ in
    conj (proj1 H) (proj1 (proj2 H))).
  - vm_compute. discriminate.
  - vm_compute. split; discriminate.
  - vm_compute. split; discriminate.
  - vm_compute. reflexivity.
  - reflexivity.
  - reflexivity.
  - reflexivity.
  - vm_compute. discriminate.
Defined.

(** ** C7: a refused scheduling policy *)

Lemma sched_lists_after_clone (w1 : world) :
  getscheduler_replies (pop_clone (replies w1)) = getscheduler_replies (replies w1) /\
  getparam_replies (pop_clone (replies w1)) = getparam_replies (replies w1) /\
  setscheduler_replies (pop_clone (replies w1)) = setscheduler_replies (replies w1).
Proof. repeat split. Qed.

(** C7.  Take a creation in which allocation and [clone] have succeeded
    and whose [sched_setscheduler] call for the new thread is refused
    with error [e].  Then [__init_thread] has logged the warning and
    returned [e] on an LP64 target and 0 on a 32-bit target, and
    [pthread_create] returns accordingly.  On the 32-bit target the
    creation is an ordinary success: the handle is written, the thread is
    in the registry, the kernel thread exists, the thread's mapping is
    live and recorded in the structure, the start routine is the
    caller's and the lock is released, so neither the thread nor the
    mapping is left without an owner. *)
Theorem C7_setscheduler_failure (T : target) (attr_opt : option pthread_attr_t)
    (start : start_fn) (arg : Z) (w : world)
    (a2 : pthread_attr_t) (tcb cs : Z) (w1 : world) (t e : positive) :
  0 <= stack_size (thread_attr_of T attr_opt) <= SIZE_MAX T ->
  0 <= layout_size T <= SIZE_MAX T ->
  __allocate_thread T (thread_attr_of T attr_opt) w = ((0, a2, tcb, cs), w1) ->
  hd (Err ENOMEM) (clone_replies (replies w)) = Ok t ->
  setscheduler_replies (replies w)
    = Err e :: setscheduler_replies (replies (snd (pthread_create T attr_opt start arg w))) ->
  let th := slot_thread_id (tcb_at w1 tcb) in
  let w2 := snd (prepare_and_clone th tcb cs start arg w1) in
  let w' := snd (pthread_create T attr_opt start arg w) in
  fst (__init_thread T th w2) = (if lp64 T then Z.pos e else 0) /\
  In (EvLog "pthread_create sched_setscheduler(%d, {%d}) call failed: %s") (trace w') /\
  (exists policy prio, In (EvSchedSetscheduler (Z.pos t) policy prio (-1)) (trace w')) /\
  fst (pthread_create T attr_opt start arg w)
    = (if lp64 T then (Z.pos e, None) else (0, Some th)) /\
  (lp64 T = false ->
   In th (thread_list w') /\
   kernel_threads w' = Z.pos t :: kernel_threads w /\
   In (thread_mmap_base (thread_at w' th), thread_mmap_size (thread_at w' th)) (mappings w') /\
   start_routine (thread_at w' th) = start /\
   startup_handshake_lock (thread_at w' th) = Unlocked).
Proof.
  intros Hss HL Halloc Hclone Hset. cbv zeta.
  destruct (allocate_thread_ok T _ w a2 tcb cs w1 Hss HL Halloc)
    as (base & sz & _ & _ & Hmap & Hmb & Hms & _ & _ & _ & Hv & _).
  apply sched_view_fields in Hv. destruct Hv as (Hk & _ & Hc & _ & _ & Hs & _).
  rewrite <- Hc in Hclone.
  pose proof (pthread_create_spawned T attr_opt start arg w a2 tcb cs w1 t Halloc Hclone) as H.
  cbv zeta in H.
  set (th := slot_thread_id (tcb_at w1 tcb)) in *.
  set (w2 := snd (prepare_and_clone th tcb cs start arg w1)) in *.
  destruct H as (Hr & Hk' & Hl' & Hm' & Htr & Hrep & _ & Hlock & Hstart & _ & _ &
                 Hmb' & Hms' & Htid & _ & Hrep2 & _).
  rewrite Hrep, <- Hs in Hset.
  rewrite <- (proj2 (proj2 (sched_lists_after_clone w1))), <- Hrep2 in Hset.
  destruct (init_thread_set_failed T th w2 e Hset) as (Hie & policy & prio & rest & Htr3).
  rewrite Htid in Htr3.
  split; [assumption |].
  split; [rewrite Htr, Htr3; right; right; left; reflexivity |].
  split; [exists policy, prio; rewrite Htr, Htr3; do 3 right; left; reflexivity |].
  rewrite Hr, Hie in *. rewrite Hstart, Hmb', Hms', Hmb, Hms, Hm', Hmap, Hl', Hk', Hk.
  destruct (lp64 T).
  - split; [reflexivity |]. intros E; discriminate E.
  - split; [reflexivity |]. intros _. cbn [Z.eqb].
    repeat split; try (left; reflexivity); assumption.
Qed.

Lemma C7_witness :
  fst (pthread_create target_ilp32 (Some explicit_attr) (user_routine 1) 0
         (world_of policy_refusing_kernel))
  = (0, Some (slot_thread_id
                (tcb_at (snd (__allocate_thread target_ilp32 explicit_attr
                                (world_of policy_refusing_kernel)))
                   (snd (fst (fst (__allocate_thread target_ilp32 explicit_attr
                                    (world_of policy_refusing_kernel)))))))).
Proof.
  refine (proj1 (proj2 (proj2 (proj2
    (C7_setscheduler_failure target_ilp32 (Some explicit_attr) (user_routine 1) 0
       (world_of policy_refusing_kernel)
       (snd (fst (fst (fst (__allocate_thread target_ilp32 explicit_attr
                             (world_of policy_refusing_kernel))))))
       (snd (fst (fst (__allocate_thread target_ilp32 explicit_attr
                        (world_of policy_refusing_kernel)))))
       (snd (fst (__allocate_thread target_ilp32 explicit_attr
                   (world_of policy_refusing_kernel))))
       (snd (__allocate_thread target_ilp32 explicit_attr
               (world_of policy_refusing_kernel)))
       77%positive 1%positive _ _ _ _ _))))).
  - vm_compute. split; discriminate.
  - vm_compute. split; discriminate.
  - vm_compute. reflexivity.
  - reflexivity.
  - vm_compute. reflexivity.
Defined.

(** ** C4: inherited scheduling *)

(** C4, as stated, fails: the policy query is part of [__init_thread],
    which [pthread_create] calls after [clone].  With inheritance
    requested and a kernel that refuses the query (EPERM), the creation
    returns that error, its only scheduling call is the failed query,
    and kernel thread 77 has been spawned all the same. *)
Lemma C4_counterexample : ~ inherit_query_failure_precedes_spawn.
Proof.
  intros H.
  specialize (H target_lp64 (Some inherit_attr) (user_routine 1) 0
                (world_of policy_hiding_kernel) 1%positive).
  assert (X : kernel_threads
                (snd (pthread_create target_lp64 (Some inherit_attr) (user_routine 1) 0
                        (world_of policy_hiding_kernel)))
              = kernel_threads (world_of policy_hiding_kernel)).
  { apply H.
    - vm_compute. discriminate.
    - reflexivity.
    - vm_compute. reflexivity.
    - vm_compute. reflexivity. }
  vm_compute in X. discriminate X.
Qed.

(** C4, amended.  When inheritance was requested and allocation and
    [clone] have succeeded, the kernel thread exists and the creator's
    policy is then re-read.  If the query fails, the creation returns
    its error with the failed query as its only scheduling call.  If the
    policy lacks the reset-on-fork modifier, nothing more is called and
    the creation succeeds.  If it carries the modifier, the priority is
    read: a failure there is returned as the error, and otherwise the
    policy and priority read are applied to the new thread with
    [sched_setscheduler]. *)
Theorem C4_inherit_query_after_spawn (T : target) (attr_opt : option pthread_attr_t)
    (start : start_fn) (arg : Z) (w : world)
    (a2 : pthread_attr_t) (tcb cs : Z) (w1 : world) (t : positive) :
  0 <= stack_size (thread_attr_of T attr_opt) <= SIZE_MAX T ->
  0 <= layout_size T <= SIZE_MAX T ->
  Z.land (flags (thread_attr_of T attr_opt)) PTHREAD_ATTR_FLAG_INHERIT <> 0 ->
  __allocate_thread T (thread_attr_of T attr_opt) w = ((0, a2, tcb, cs), w1) ->
  hd (Err ENOMEM) (clone_replies (replies w)) = Ok t ->
  let th := slot_thread_id (tcb_at w1 tcb) in
  let w' := snd (pthread_create T attr_opt start arg w) in
  let result := fst (pthread_create T attr_opt start arg w) in
  kernel_threads w' = Z.pos t :: kernel_threads w /\
  match hd (Ok 0%N) (getscheduler_replies (replies w)) with
  | Err e =>
      result = (Z.pos e, None) /\
      sched_calls (trace w') = EvSchedGetscheduler (-1) :: sched_calls (trace w)
  | Ok p =>
      if Z.land (Z.of_N p) SCHED_RESET_ON_FORK =? 0 then
        result = (0, Some th) /\
        sched_calls (trace w') = EvSchedGetscheduler (Z.of_N p) :: sched_calls (trace w)
      else
        match hd (Ok 0) (getparam_replies (replies w)) with
        | Err e =>
            result = (Z.pos e, None) /\
            sched_calls (trace w') =
              EvSchedGetparam (-1) :: EvSchedGetscheduler (Z.of_N p)
              :: sched_calls (trace w)
        | Ok prio =>
            exists code,
              sched_calls (trace w') =
                EvSchedSetscheduler (Z.pos t) (Z.of_N p) prio code
                :: EvSchedGetparam 0 :: EvSchedGetscheduler (Z.of_N p)
                :: sched_calls (trace w)
        end
  end.
Proof.
  intros Hss HL Hinh Halloc Hclone. cbv zeta.
  destruct (allocate_thread_ok T _ w a2 tcb cs w1 Hss HL Halloc)
    as (base & sz & _ & _ & _ & _ & _ & Hfl & _ & _ & Hv & _).
  apply sched_view_fields in Hv. destruct Hv as (Hk & _ & Hc & Hgs & Hgp & Hs & Hcalls).
  rewrite <- Hc in Hclone.
  pose proof (pthread_create_spawned T attr_opt start arg w a2 tcb cs w1 t Halloc Hclone) as H.
  cbv zeta in H.
  set (th := slot_thread_id (tcb_at w1 tcb)) in *.
  set (w2 := snd (prepare_and_clone th tcb cs start arg w1)) in *.
  destruct H as (Hr & Hk' & _ & _ & Htr & _ & _ & _ & _ & _ & _ & _ & _ &
                 Htid & Hattr & Hrep2 & Htr2).
  split; [congruence |].
  assert (Hinh2 : Z.land (flags (attr (thread_at w2 th))) PTHREAD_ATTR_FLAG_INHERIT <> 0)
    by (rewrite Hattr, Hfl; exact Hinh).
  pose proof (init_thread_inherit T th w2 Hinh2) as Hi. cbv zeta in Hi.
  destruct (sched_lists_after_clone w1) as (E1 & E2 & E3).
  rewrite Hrep2, E1, E2, E3, Hgs, Hgp, Hs, Htid in Hi.
  assert (Hw2 : sched_calls (trace w2) = sched_calls (trace w))
    by (rewrite Htr2; exact Hcalls).
  rewrite Hw2 in Hi.
  assert (Hw' : sched_calls (trace (snd (pthread_create T attr_opt start arg w)))
                = sched_calls (trace (snd (__init_thread T th w2))))
    by (rewrite Htr; reflexivity).
  rewrite Hw', Hr.
  destruct (hd (Ok 0%N) (getscheduler_replies (replies w))) as [p | e].
  - destruct (Z.land (Z.of_N p) SCHED_RESET_ON_FORK =? 0).
    + destruct Hi as (-> & Hi). split; [reflexivity | assumption].
    + destruct (hd (Ok 0) (getparam_replies (replies w))) as [prio | e].
      * destruct (hd (Ok tt) (setscheduler_replies (replies w)));
          destruct Hi as (_ & Hi); eexists; exact Hi.
      * destruct Hi as (-> & Hi). split; [reflexivity | assumption].
  - destruct Hi as (-> & Hi). split; [reflexivity | assumption].
Qed.

Lemma C4_witness :
  kernel_threads
    (snd (pthread_create target_lp64 (Some inherit_attr) (user_routine 1) 0
            (world_of policy_hiding_kernel)))
  = 77 :: kernel_threads (world_of policy_hiding_kernel).
Proof.
  refine (proj1
    (C4_inherit_query_after_spawn target_lp64 (Some inherit_attr) (user_routine 1) 0
       (world_of policy_hiding_kernel)
       (snd (fst (fst (fst (__allocate_thread target_lp64 inherit_attr
                             (world_of policy_hiding_kernel))))))
       (snd (fst (fst (__allocate_thread target_lp64 inherit_attr
                        (world_of policy_hiding_kernel)))))
       (snd (fst (__allocate_thread target_lp64 inherit_attr
                   (world_of policy_hiding_kernel))))
       (snd (__allocate_thread target_lp64 inherit_attr
               (world_of policy_hiding_kernel)))
       77%positive _ _ _ _ _)).
  - vm_compute. split; discriminate.
  - vm_compute. split; discriminate.
  - vm_compute. discriminate.
  - vm_compute. reflexivity.
  - reflexivity.
Defined.

(* ================================================================= *)
(** * Further properties of the code *)

(** ** The thread mapping *)

Lemma mmap_calls_app (l1 l2 : list event) :
  mmap_calls (l1 ++ l2) = (mmap_calls l1 + mmap_calls l2)%nat.
Proof.
  induction l1 as [| e l1 IH]; [reflexivity |].
  destruct e; simpl; rewrite IH; reflexivity.
Qed.

Lemma align_down_16 (x : Z) : BIONIC_ALIGN_DOWN x 16 = 16 * (x / 16).
Proof.
  unfold BIONIC_ALIGN_DOWN. change (16 - 1) with (Z.ones 4).
  rewrite <- Z.ldiff_land, Z.ldiff_ones_r by lia.
  rewrite Z.shiftl_mul_pow2, Z.shiftr_div_pow2 by lia.
  change (2 ^ 4) with 16. lia.
Qed.

(** The stack top of a successful [reserve_and_carve]: the end of the
    usable stack, lowered by a draw below [sizeof(pthread_internal_t)]
    and aligned down to 16. *)
Lemma reserve_stack_top (T : target) (ss gs gap sz : Z) (w : world)
    (m : ThreadMapping) (w' : world) :
  reserve_and_carve T ss gs gap sz w = (m, w') ->
  mmap_base m <> 0 ->
  exists r2,
    (r2 = 0 \/ 0 <= r2 < uint32 (sizeof_pthread_internal_t T)) /\
    stack_top m = BIONIC_ALIGN_DOWN (mmap_base m + gs + ss - r2) 16.
Proof.
  intros H Hm.
  unfold reserve_and_carve in H. os_run H; os_done H; try (exfalso; apply Hm; reflexivity).
  - exists 0. split; [left |]; reflexivity.
  - exists (hd 0 (random_source (replies w)) mod uint32 (sizeof_pthread_internal_t T)).
    split; [right | reflexivity].
    apply Z.ltb_ge in Heqb. apply Z.mod_pos_bound. lia.
Qed.

(** Where the stack top of a successful allocation lies. *)
Lemma stack_top_bounds (T : target) (ss gs : Z) (w : world)
    (m : ThreadMapping) (w' : world) :
  0 <= ss <= SIZE_MAX T -> 0 <= gs <= SIZE_MAX T ->
  0 <= layout_size T <= SIZE_MAX T ->
  0 <= sizeof_pthread_internal_t T ->
  __allocate_thread_mapping T ss gs w = (m, w') ->
  mmap_base m <> 0 ->
  stack_top m mod 16 = 0 /\
  stack_top m <= mmap_base m + gs + ss /\
  mmap_base m + gs + ss - stack_top m < sizeof_pthread_internal_t T + 16.
Proof.
  intros Hss Hgs HL Hsz H Hm.
  pose proof H as H'.
  apply allocate_mapping_success in H'; try assumption.
  destruct H' as (Hok & _).
  rewrite allocate_mapping_sizes in H by assumption.
  apply reserve_stack_top in H; [| assumption].
  destruct H as (r2 & Hr2 & ->).
  rewrite align_down_16.
  assert (Hu : uint32 (sizeof_pthread_internal_t T) <= sizeof_pthread_internal_t T).
  { unfold uint32, wrap. change (2 ^ 32) with 4294967296. lia. }
  set (e := mmap_base m + gs + ss) in *.
  clearbody e. clear - Hr2 Hu Hsz. lia.
Qed.

(** X1.  The stack top of a successful allocation is 16-byte aligned,
    lies at or below the end of the usable stack, and wastes less than
    [sizeof(pthread_internal_t) + 16] bytes of it. *)
Theorem stack_top_aligned_near_stack_end (T : target) (ss gs : Z) (w : world)
    (m : ThreadMapping) (w' : world) :
  0 <= ss <= SIZE_MAX T -> 0 <= gs <= SIZE_MAX T ->
  0 <= layout_size T <= SIZE_MAX T ->
  0 <= sizeof_pthread_internal_t T ->
  __allocate_thread_mapping T ss gs w = (m, w') ->
  mmap_base m <> 0 ->
  stack_top m mod 16 = 0 /\
  stack_top m <= mmap_base m + gs + ss /\
  mmap_base m + gs + ss - stack_top m < sizeof_pthread_internal_t T + 16.
Proof. exact (stack_top_bounds T ss gs w m w'). Qed.

Lemma stack_top_aligned_near_stack_end_witness :
  stack_top (fst (__allocate_thread_mapping target_lp64 8192 4096
                    (world_of (granting_kernel [5000; 5])))) mod 16 = 0.
Proof.
  refine (proj1
    (stack_top_aligned_near_stack_end target_lp64 8192 4096
       (world_of (granting_kernel [5000; 5]))
       (fst (__allocate_thread_mapping target_lp64 8192 4096
               (world_of (granting_kernel [5000; 5]))))
       (snd (__allocate_thread_mapping target_lp64 8192 4096
               (world_of (granting_kernel [5000; 5]))))
       _ _ _ _ (surjective_pairing _) _)).
  - vm_compute. split; discriminate.
  - vm_compute. split; discriminate.
  - vm_compute. split; discriminate.
  - vm_compute. discriminate.
  - vm_compute. discriminate.
Defined.

(** X2.  Whatever the alignment of the sizes asked for, the size of a
    successful mapping is the exact sum of stack, guard, gap, control
    block pages, static TLS and tail guard, rounded up to the next page:
    a page multiple, at least the sum and less than a page above it.
    The mapping is live at a page-aligned base. *)
Theorem mapping_size_is_rounded_total (T : target) (ss gs : Z) (w : world)
    (m : ThreadMapping) (w' : world) :
  0 <= ss <= SIZE_MAX T -> 0 <= gs <= SIZE_MAX T ->
  0 <= layout_size T <= SIZE_MAX T ->
  __allocate_thread_mapping T ss gs w = (m, w') ->
  mmap_base m <> 0 ->
  let total := ss + gs + gap_size_of T ss w + thread_page_size T + layout_size T
               + PTHREAD_GUARD_SIZE in
  mmap_size m mod PAGE_SIZE = 0 /\
  total <= mmap_size m < total + PAGE_SIZE /\
  mmap_size m <= SIZE_MAX T /\
  mmap_base m mod PAGE_SIZE = 0 /\
  mappings w' = (mmap_base m, mmap_size m) :: mappings w.
Proof.
  intros Hss Hgs HL H Hm. cbv zeta.
  apply allocate_mapping_success in H; try assumption.
  destruct H as (_ & page & r2 & H). cbv zeta in H.
  destruct H as (_ & Hmax & -> & Hmap & _).
  cbn [mmap_base mmap_size].
  split; [apply page_round_up_multiple |].
  split; [unfold page_round_up, PAGE_SIZE; lia |].
  split; [assumption |].
  split; [| assumption].
  unfold PAGE_SIZE. rewrite Z.mul_comm. apply Z_mod_mult.
Qed.

Lemma mapping_size_is_rounded_total_witness :
  mmap_size (fst (__allocate_thread_mapping target_lp64 8000 4096
                    (world_of (granting_kernel [5000; 5])))) mod PAGE_SIZE = 0.
Proof.
  refine (proj1
    (mapping_size_is_rounded_total target_lp64 8000 4096
       (world_of (granting_kernel [5000; 5]))
       (fst (__allocate_thread_mapping target_lp64 8000 4096
               (world_of (granting_kernel [5000; 5]))))
       (snd (__allocate_thread_mapping target_lp64 8000 4096
               (world_of (granting_kernel [5000; 5]))))
       _ _ _ (surjective_pairing _) _)).
  - vm_compute. split; discriminate.
  - vm_compute. split; discriminate.
  - vm_compute. split; discriminate.
  - vm_compute. discriminate.
Defined.

(** X3.  One call of [__allocate_thread_mapping] makes at most one
    [mmap] call: none when its size computation overflows, exactly one
    otherwise, whether the call then succeeds or fails. *)
Theorem one_mapping_request_per_call (T : target) (ss gs : Z) (w : world) :
  0 <= ss <= SIZE_MAX T -> 0 <= gs <= SIZE_MAX T ->
  0 <= layout_size T <= SIZE_MAX T ->
  let w' := snd (__allocate_thread_mapping T ss gs w) in
  (total_size_overflows T ss gs (gap_size_of T ss w) ->
   mmap_calls (trace w') = mmap_calls (trace w)) /\
  (~ total_size_overflows T ss gs (gap_size_of T ss w) ->
   mmap_calls (trace w') = S (mmap_calls (trace w))).
Proof.
  intros Hss Hgs HL. cbv zeta.
  pose proof (arc4random_uniform_spec (max_gap_size T ss) w) as (_ & _ & Hstep).
  apply random_step_frame in Hstep.
  destruct Hstep as (_ & _ & _ & _ & _ & Hcalls & _).
  split; intros Hov.
  - rewrite allocate_mapping_overflow by assumption. exact Hcalls.
  - rewrite allocate_mapping_sizes by assumption.
    destruct (reserve_and_carve T ss gs (gap_size_of T ss w)
                (page_round_up (ss + gs + gap_size_of T ss w + thread_page_size T
                                + layout_size T + PTHREAD_GUARD_SIZE))
                (snd (arc4random_uniform (max_gap_size T ss) w))) as [m w'] eqn:H.
    cbn [snd]. destruct (Z.eq_dec (mmap_base m) 0) as [E | E].
    + apply reserve_failure in H; [| assumption].
      destruct H as (_ & _ & evs & Htr & _ & Hone).
      rewrite Htr, mmap_calls_app, Hone, Hcalls. reflexivity.
    + apply reserve_success in H; [| assumption].
      destruct H as (page & r2 & H). cbv zeta in H.
      destruct H as (_ & _ & _ & _ & _ & _ & Hone). rewrite Hone, Hcalls. reflexivity.
Qed.

Lemma one_mapping_request_per_call_witness :
  mmap_calls (trace (snd (__allocate_thread_mapping target_lp64 8192 4096
                            (world_of mprotect_refusing_kernel))))
  = S (mmap_calls (trace (world_of mprotect_refusing_kernel))).
Proof.
  refine (proj2
    (one_mapping_request_per_call target_lp64 8192 4096
       (world_of mprotect_refusing_kernel) _ _ _) _).
  - vm_compute. split; discriminate.
  - vm_compute. split; discriminate.
  - vm_compute. split; discriminate.
  - unfold total_size_overflows. vm_compute.
    intros [H | [H | [H | [H | [H | H]]]]]; discriminate H.
Defined.

(** ** The temporary [bionic_tls] *)

(** X4.  [__allocate_temp_bionic_tls] either gets its pages, at a
    non-null page-aligned address and readable and writable, and
    [__free_temp_bionic_tls] of that address gives them back, leaving the
    mappings as they were; or the reservation was refused and the call is
    fatal, with nothing mapped. *)
Theorem temp_bionic_tls_round_trip (T : target) (size : Z) (w : world) :
  match fst (__allocate_temp_bionic_tls T size w) with
  | Some tls =>
      let w1 := snd (__allocate_temp_bionic_tls T size w) in
      tls <> 0 /\ tls mod PAGE_SIZE = 0 /\
      mappings w1 = (tls, BIONIC_ALIGN (size_bits T) size PAGE_SIZE) :: mappings w /\
      (forall a, tls <= a < tls + BIONIC_ALIGN (size_bits T) size PAGE_SIZE ->
                 prot_at w1 a = Some PROT_READ_WRITE) /\
      mappings (snd (__free_temp_bionic_tls T size tls w1)) = mappings w
  | None =>
      mappings (snd (__allocate_temp_bionic_tls T size w)) = mappings w /\
      exists e, hd (Err ENOMEM) (mmap_replies (replies w)) = Err e /\
                errno (snd (__allocate_temp_bionic_tls T size w)) = Z.pos e
  end.
Proof.
  pose proof (BIONIC_ALIGN_range T size) as [[Hn _] Ha].
  unfold __allocate_temp_bionic_tls, __free_temp_bionic_tls, bind, ret, log, modify,
    mmap, munmap.
  set (sz := BIONIC_ALIGN (size_bits T) size PAGE_SIZE) in *.
  destruct (hd (Err ENOMEM) (mmap_replies (replies w))) as [page | e]; cbn [fst snd].
  - rewrite mmap_base_not_failed. cbn [fst snd].
    split; [apply mmap_base_nonnull |].
    split; [unfold PAGE_SIZE; rewrite Z.mul_comm; apply Z_mod_mult |].
    split; [reflexivity |].
    split.
    + intros a Hin. unfold prot_at. simpl.
      rewrite (page_round_up_aligned sz) by assumption.
      assert (E : inside (PAGE_SIZE * Z.pos page) sz a = true).
      { unfold inside. apply andb_true_iff. split; [apply Z.leb_le | apply Z.ltb_lt]; lia. }
      rewrite E. reflexivity.
    + simpl. unfold region_eqb. simpl. rewrite !Z.eqb_refl. reflexivity.
  - change (MAP_FAILED =? MAP_FAILED) with true. cbn [fst snd].
    split; [reflexivity |]. exists e. split; reflexivity.
Qed.

(** ** The alternate signal stack *)

(** X5.  [__init_alternate_signal_stack] leaves no half-built stack.  If
    the reservation or the protection of the guard is refused, the
    mappings and the thread's [alternate_signal_stack] are what they were
    and no stack is registered.  Otherwise the new mapping of
    [SIGNAL_STACK_SIZE] bytes is live, its first [PTHREAD_GUARD_SIZE]
    bytes have no access and the rest is readable and writable, the
    signal stack registered is that rest, and the thread records the
    base of the mapping. *)
Theorem alternate_signal_stack_all_or_nothing (T : target) (th : Z) (w : world) :
  let w' := snd (__init_alternate_signal_stack T th w) in
  match hd (Err ENOMEM) (mmap_replies (replies w)),
        hd (Ok tt) (mprotect_replies (replies w)) with
  | Ok page, Ok _ =>
      let base := PAGE_SIZE * Z.pos page in
      mappings w' = (base, SIGNAL_STACK_SIZE T) :: mappings w /\
      alternate_signal_stack (thread_at w' th) = base /\
      In (EvSigaltstack (base + PTHREAD_GUARD_SIZE)
            (SIGNAL_STACK_SIZE T - PTHREAD_GUARD_SIZE)) (trace w') /\
      forall a, base <= a < base + SIGNAL_STACK_SIZE T ->
        prot_at w' a =
        Some (if a <? base + PTHREAD_GUARD_SIZE then PROT_NONE else PROT_READ_WRITE)
  | _, _ =>
      mappings w' = mappings w /\
      alternate_signal_stack (thread_at w' th) = alternate_signal_stack (thread_at w th) /\
      forall sp size, In (EvSigaltstack sp size) (trace w') ->
                      In (EvSigaltstack sp size) (trace w)
  end.
Proof.
  cbv zeta.
  destruct (__init_alternate_signal_stack T th w) as [[] w'] eqn:H. cbn [snd].
  destruct w as [e0 maps0 prots0 kts0 tl0 ths0 tcbs0 tr0 pid0 k0]. unfold thread_at. simpl.
  unfold __init_alternate_signal_stack in H.
  repeat progress
    unfold bind, ret, log, modify, gets, update_thread, load_thread,
      prctl_set_vma_name, mmap, mprotect, munmap, thread_at in H.
  simpl in H.
  destruct (hd (Err ENOMEM) (mmap_replies k0)) as [page | e]; simpl in H.
  - rewrite ?mmap_base_not_failed in H. simpl in H.
    destruct (hd (Ok tt) (mprotect_replies k0)) as [[] | e]; simpl in H.
    + change (0 =? -1) with false in H. simpl in H.
      inversion H; subst; clear H. simpl. rewrite Z.eqb_refl.
      split; [reflexivity |]. split; [reflexivity |].
      split; [right; left; reflexivity |].
      intros a Ha. unfold prot_at. simpl.
      assert (E : inside (PAGE_SIZE * Z.pos page) (SIGNAL_STACK_SIZE T) a = true).
      { unfold inside. apply andb_true_iff. split; [apply Z.leb_le | apply Z.ltb_lt]; lia. }
      rewrite E. simpl.
      change (page_round_up PTHREAD_GUARD_SIZE) with PTHREAD_GUARD_SIZE.
      pose proof (page_round_up_ge (SIGNAL_STACK_SIZE T)) as Hge.
      unfold inside at 1.
      destruct (Z.ltb_spec a (PAGE_SIZE * Z.pos page + PTHREAD_GUARD_SIZE)) as [Hlt | Hge'].
      * replace (PAGE_SIZE * Z.pos page <=? a) with true
          by (symmetry; apply Z.leb_le; lia).
        reflexivity.
      * rewrite andb_false_r.
        replace (inside (PAGE_SIZE * Z.pos page) (page_round_up (SIGNAL_STACK_SIZE T)) a)
          with true; [reflexivity |].
        symmetry. unfold inside. apply andb_true_iff.
        split; [apply Z.leb_le | apply Z.ltb_lt]; lia.
    + change (-1 =? -1) with true in H. simpl in H.
      inversion H; subst; clear H. simpl.
      unfold region_eqb. simpl. rewrite !Z.eqb_refl.
      split; [reflexivity |]. split; [reflexivity |].
      intros sp size [E | [E | [E | Hin]]]; try discriminate E. exact Hin.
  - change (MAP_FAILED =? MAP_FAILED) with true in H. simpl in H.
    inversion H; subst; clear H. simpl.
    destruct (hd (Ok tt) (mprotect_replies k0));
      (split; [reflexivity |]; split; [reflexivity |];
       intros sp size [E | Hin]; [discriminate E | exact Hin]).
Qed.

(** ** The shadow call stack *)

Lemma scs_placement (base S N r : Z) :
  base mod PAGE_SIZE = 0 -> 0 < S -> S mod PAGE_SIZE = 0 ->
  0 <= r -> r + 2 <= N / S ->
  (align_up base S + r * S) mod S = 0 /\
  base <= align_up base S + r * S /\
  align_up base S + r * S + S + PAGE_SIZE <= base + N.
Proof.
  intros Hb HS HSa Hr HrN. unfold align_up, PAGE_SIZE in *.
  set (q := (base + S - 1) / S).
  assert (Hq : S * q <= base + S - 1 < S * q + S).
  { pose proof (Z.mul_div_le (base + S - 1) S HS).
    pose proof (Z.mul_succ_div_gt (base + S - 1) S HS).
    fold q in H, H0. lia. }
  assert (HN : (r + 2) * S <= N).
  { pose proof (Z.mul_div_le N S HS).
    assert ((r + 2) * S <= N / S * S) by (apply Z.mul_le_mono_nonneg_r; lia).
    lia. }
  split; [| split].
  - replace (S * q + r * S) with ((q + r) * S) by ring. apply Z_mod_mult.
  - assert (0 <= r * S) by (apply Z.mul_nonneg_nonneg; lia). lia.
  - assert (Hk : exists k, S = 4096 * k) by (exists (S / 4096); lia).
    destruct Hk as (k & Hk).
    assert (Hp : exists p, base = 4096 * p) by (exists (base / 4096); lia).
    destruct Hp as (p & Hp).
    assert (HA : S * q = 4096 * (k * q)) by (rewrite Hk; ring).
    set (A := k * q) in *. clearbody A.
    replace ((r + 2) * S) with (r * S + 2 * S) in HN by ring.
    lia.
Qed.

(** The protection of the addresses of a mapped region in which one
    stretch has been given a protection of its own. *)
Lemma prot_lookup_carved (prots : list (Z * Z * prot)) (base N scs S a : Z) (p q : prot) :
  S mod PAGE_SIZE = 0 ->
  base <= a < base + N ->
  prot_lookup ((scs, page_round_up S, p) :: (base, page_round_up N, q) :: prots) a
  = Some (if inside scs S a then p else q).
Proof.
  intros HS Ha. cbn [prot_lookup].
  rewrite (page_round_up_aligned S HS).
  destruct (inside scs S a); [reflexivity |].
  pose proof (page_round_up_ge N) as Hge.
  replace (inside base (page_round_up N) a) with true; [reflexivity |].
  symmetry. unfold inside. apply andb_true_iff.
  split; [apply Z.leb_le | apply Z.ltb_lt]; lia.
Qed.

Lemma prot_lookup_whole (prots : list (Z * Z * prot)) (base N a : Z) (q : prot) :
  base <= a < base + N ->
  prot_lookup ((base, page_round_up N, q) :: prots) a = Some q.
Proof.
  intros Ha. cbn [prot_lookup].
  pose proof (page_round_up_ge N) as Hge.
  replace (inside base (page_round_up N) a) with true; [reflexivity |].
  symmetry. unfold inside. apply andb_true_iff.
  split; [apply Z.leb_le | apply Z.ltb_lt]; lia.
Qed.

Lemma inside_mapped (maps : list (Z * Z)) (base N a : Z) :
  base <= a < base + N ->
  existsb (fun r => inside (fst r) (snd r) a) ((base, N) :: maps) = true.
Proof.
  intros Ha. cbn [existsb fst snd].
  replace (inside base N a) with true; [reflexivity |].
  symmetry. unfold inside. apply andb_true_iff.
  split; [apply Z.leb_le | apply Z.ltb_lt]; lia.
Qed.

Lemma prot_at_carved (w : world) (maps : list (Z * Z)) (prots : list (Z * Z * prot))
    (base N scs S a : Z) (p q : prot) :
  mappings w = (base, N) :: maps ->
  protections w = (scs, page_round_up S, p) :: (base, page_round_up N, q) :: prots ->
  S mod PAGE_SIZE = 0 ->
  base <= a < base + N ->
  prot_at w a = Some (if inside scs S a then p else q).
Proof.
  intros Hm Hp HS Ha. unfold prot_at. rewrite Hm, Hp.
  rewrite inside_mapped by exact Ha. apply prot_lookup_carved; assumption.
Qed.

Lemma prot_at_whole (w : world) (maps : list (Z * Z)) (prots : list (Z * Z * prot))
    (base N a : Z) (q : prot) :
  mappings w = (base, N) :: maps ->
  protections w = (base, page_round_up N, q) :: prots ->
  base <= a < base + N ->
  prot_at w a = Some q.
Proof.
  intros Hm Hp Ha. unfold prot_at. rewrite Hm, Hp.
  rewrite inside_mapped by exact Ha. apply prot_lookup_whole; assumption.
Qed.

Section ShadowCallStack.

#[local] Arguments prot_at : simpl never.

Ltac scs_finish H HS HSa :=
  inversion H; subst; clear H; simpl; rewrite Z.eqb_refl;
  (split; [reflexivity |]); (split; [reflexivity |]);
  eexists _, _, _; (split; [reflexivity |]);
  (split; [intros x Hin; simpl in Hin;
           repeat (destruct Hin as [E | Hin]; [discriminate E |]); exact Hin |]);
  (split; [reflexivity |]);
  (split; [first [ intros E; discriminate E
                 | intros _ addr Haddr;
                   eapply prot_at_carved; [reflexivity | reflexivity | assumption | exact Haddr] ] |]);
  (split; [first [ intros E; discriminate E
                 | intros _ addr Haddr;
                   eapply prot_at_whole; [reflexivity | reflexivity | exact Haddr] ] |]).

(** X6.  On the target with the shadow call stack, when the guard region
    is granted, [__init_shadow_call_stack] records the region in the
    thread and writes register x18 once, with an address that is a
    multiple of [SCS_SIZE], lies in the region, and leaves at least one
    page of the region above the stack; for process 1 it is the first
    aligned address of the region.  The [mprotect] call just before asks
    for [SCS_SIZE] bytes at that address to be readable and writable,
    and its result is not looked at: if the kernel grants it, exactly
    the stack is accessible and the rest of the region is not; if the
    kernel refuses, x18 is written all the same and the whole region,
    the stack included, stays inaccessible. *)
Theorem shadow_call_stack_inside_guard_region (T : target) (th : Z) (w : world)
    (page : positive) :
  aarch64 T = true ->
  0 < SCS_SIZE T -> SCS_SIZE T mod PAGE_SIZE = 0 ->
  2 * SCS_SIZE T <= SCS_GUARD_REGION_SIZE T < 2 ^ 32 ->
  hd (Err ENOMEM) (mmap_replies (replies w)) = Ok page ->
  let w' := snd (__init_shadow_call_stack T th w) in
  let base := PAGE_SIZE * Z.pos page in
  shadow_call_stack_guard_region (thread_at w' th) = base /\
  mappings w' = (base, SCS_GUARD_REGION_SIZE T) :: mappings w /\
  exists scs code rest,
    trace w' = EvSetX18 scs :: EvMprotect scs (SCS_SIZE T) PROT_READ_WRITE code :: rest /\
    (forall x, In (EvSetX18 x) rest -> In (EvSetX18 x) (trace w)) /\
    code = match hd (Ok tt) (mprotect_replies (replies w)) with
           | Ok _ => 0
           | Err _ => -1
           end /\
    (code = 0 ->
     forall a, base <= a < base + SCS_GUARD_REGION_SIZE T ->
       prot_at w' a =
       Some (if inside scs (SCS_SIZE T) a then PROT_READ_WRITE else PROT_NONE)) /\
    (code = -1 ->
     forall a, base <= a < base + SCS_GUARD_REGION_SIZE T ->
       prot_at w' a = Some PROT_NONE) /\
    scs mod SCS_SIZE T = 0 /\
    base <= scs /\
    scs + SCS_SIZE T + PAGE_SIZE <= base + SCS_GUARD_REGION_SIZE T /\
    (pid w = 1 -> scs = align_up base (SCS_SIZE T)).
Proof.
  intros Ha HS HSa [HN HN32] Hmmap. cbv zeta.
  set (S := SCS_SIZE T) in *. set (N := SCS_GUARD_REGION_SIZE T) in *.
  assert (Hdiv : 2 <= N / S < 4294967296).
  { split.
    - apply Z.div_le_lower_bound; lia.
    - change (2 ^ 32) with 4294967296 in HN32.
      assert (N / S <= N) by (apply Z.div_le_upper_bound; nia). lia. }
  assert (Hub : uint32 (N / S - 1) = N / S - 1).
  { unfold uint32. apply wrap_small. change (2 ^ 32) with 4294967296. lia. }
  assert (Hbase : (PAGE_SIZE * Z.pos page) mod PAGE_SIZE = 0)
    by (rewrite Z.mul_comm; apply Z_mod_mult).
  assert (Hplace : forall r, 0 <= r -> r + 2 <= N / S ->
            uint32 (r * S) = r * S /\
            (align_up (PAGE_SIZE * Z.pos page) S + r * S) mod S = 0 /\
            PAGE_SIZE * Z.pos page <= align_up (PAGE_SIZE * Z.pos page) S + r * S /\
            align_up (PAGE_SIZE * Z.pos page) S + r * S + S + PAGE_SIZE
              <= PAGE_SIZE * Z.pos page + N).
  { intros r Hr HrN. split; [| apply scs_placement; assumption].
    unfold uint32. apply wrap_small. change (2 ^ 32) with 4294967296.
    pose proof (Z.mul_div_le N S HS).
    assert ((r + 2) * S <= N / S * S) by (apply Z.mul_le_mono_nonneg_r; lia).
    assert (0 <= r * S) by (apply Z.mul_nonneg_nonneg; lia).
    change (2 ^ 32) with 4294967296 in HN32. lia. }
  destruct (__init_shadow_call_stack T th w) as [[] w'] eqn:H. cbn [snd].
  unfold __init_shadow_call_stack in H. rewrite Ha in H. fold S N in H.
  destruct w as [e0 maps0 prots0 kts0 tl0 ths0 tcbs0 tr0 pid0 k0].
  unfold thread_at. simpl in Hmmap |- *.
  repeat progress
    unfold bind, ret, log, modify, gets, update_thread, load_thread,
      mmap, mprotect, arc4random_uniform, thread_at in H.
  simpl in H. rewrite Hmmap in H. simpl in H. rewrite Hub in H.
  destruct (pid0 =? 1) eqn:Hpid; simpl in H.
  - destruct (Hplace 0 ltac:(lia) ltac:(lia)) as (Hu & Hm & Hlo & Hhi).
    rewrite Hu in H.
    destruct (hd (Ok tt) (mprotect_replies k0)); simpl in H;
      scs_finish H HS HSa;
      repeat split; try assumption; intros _; change (0 * S) with 0; lia.
  - assert (Hne : pid0 <> 1) by (apply Z.eqb_neq; assumption).
    destruct (N / S - 1 <? 2) eqn:Hlt; simpl in H.
    + destruct (Hplace 0 ltac:(lia) ltac:(lia)) as (Hu & Hm & Hlo & Hhi).
      rewrite Hu in H.
      destruct (hd (Ok tt) (mprotect_replies k0)); simpl in H;
        scs_finish H HS HSa;
        repeat split; try assumption; intros E; contradiction.
    + apply Z.ltb_ge in Hlt.
      set (r := hd 0 (random_source k0) mod (N / S - 1)) in *.
      assert (Hr : 0 <= r < N / S - 1) by (apply Z.mod_pos_bound; lia).
      destruct (Hplace r ltac:(lia) ltac:(lia)) as (Hu & Hm & Hlo & Hhi).
      rewrite Hu in H.
      destruct (hd (Ok tt) (mprotect_replies k0)); simpl in H;
        scs_finish H HS HSa;
        repeat split; try assumption; intros E; contradiction.
Qed.

Lemma shadow_call_stack_inside_guard_region_witness :
  shadow_call_stack_guard_region
    (thread_at (snd (__init_shadow_call_stack target_lp64 4096
                       (world_of (granting_kernel [123456])))) 4096)
  = PAGE_SIZE * 100.
Proof.
  refine (proj1
    (shadow_call_stack_inside_guard_region target_lp64 4096
       (world_of (granting_kernel [123456])) 100%positive _ _ _ _ _)).
  - reflexivity.
  - reflexivity.
  - reflexivity.
  - vm_compute. split; [discriminate | reflexivity].
  - reflexivity.
Defined.

End ShadowCallStack.

(** ** Scheduling set-up of the new thread *)


(** X8.  Without the inherit flag [__init_thread] asks the kernel
    nothing about the creator.  With the explicit flag it always applies
    the policy and priority of the attributes to the new thread; with
    neither flag (the behaviour before P) it does so unless the policy
    of the attributes is [SCHED_NORMAL], in which case it makes no
    scheduling call at all.  A call that succeeds gives 0; one that is
    refused gives the error on LP64 targets and 0 on the others. *)
Theorem init_thread_without_inherit (T : target) (th : Z) (w : world) :
  Z.land (flags (attr (thread_at w th))) PTHREAD_ATTR_FLAG_INHERIT = 0 ->
  let t := thread_at w th in
  let r := fst (__init_thread T th w) in
  let w' := snd (__init_thread T th w) in
  let need_set :=
    if Z.land (flags (attr t)) PTHREAD_ATTR_FLAG_EXPLICIT =? 0
    then negb (sched_policy (attr t) =? SCHED_NORMAL)
    else true in
  if need_set then
    match hd (Ok tt) (setscheduler_replies (replies w)) with
    | Ok _ =>
        r = 0 /\
        sched_calls (trace w') =
          EvSchedSetscheduler (tid t) (sched_policy (attr t)) (sched_priority (attr t)) 0
          :: sched_calls (trace w)
    | Err e =>
        r = (if lp64 T then Z.pos e else 0) /\
        sched_calls (trace w') =
          EvSchedSetscheduler (tid t) (sched_policy (attr t)) (sched_priority (attr t)) (-1)
          :: sched_calls (trace w)
    end
  else
    r = 0 /\ trace w' = trace w.
Proof.
  intros Hinh. cbv zeta.
  assert (Hmask : Z.land (flags (attr (thread_at w th)))
                    (Z.lor PTHREAD_ATTR_FLAG_INHERIT PTHREAD_ATTR_FLAG_EXPLICIT)
                  = Z.land (flags (attr (thread_at w th))) PTHREAD_ATTR_FLAG_EXPLICIT).
  { rewrite Z.land_lor_distr_r, Hinh. apply Z.lor_0_l. }
  apply Z.eqb_eq in Hinh.
  destruct (__init_thread T th w) as [r w'] eqn:H. cbn [fst snd].
  destruct w as [e0 maps0 prots0 kts0 tl0 ths0 tcbs0 tr0 pid0 k0].
  unfold thread_at in *. simpl in *.
  unfold __init_thread in H.
  repeat progress
    unfold bind, ret, log, modify, gets, update_thread, load_thread,
      sched_getscheduler, sched_getparam, sched_setscheduler, thread_at in H.
  simpl in H. rewrite ?Z.eqb_refl in H. simpl in H.
  rewrite Hinh, Hmask in H. simpl in H.
  destruct (Z.land _ PTHREAD_ATTR_FLAG_DETACHED =? 0);
    destruct (Z.land _ PTHREAD_ATTR_FLAG_EXPLICIT =? 0);
    simpl in H; rewrite ?Z.eqb_refl in H; simpl in H;
    try (destruct (sched_policy _ =? SCHED_NORMAL); simpl in H);
    try (destruct (hd (Ok tt) (setscheduler_replies k0)); simpl in H;
         try change (0 =? -1) with false in H;
         try change (-1 =? -1) with true in H; simpl in H;
         try (destruct (lp64 T); simpl in H));
    inversion H; subst; clear H; simpl; rewrite ?Z.eqb_refl; simpl; split; reflexivity.
Qed.

Lemma init_thread_without_inherit_witness :
  fst (__init_thread target_lp64 425984
         (snd (__allocate_thread target_lp64 explicit_attr
                 (world_of policy_refusing_kernel)))) = 1.
Proof.
  assert (H0 : Z.land (flags (attr (thread_at
                 (snd (__allocate_thread target_lp64 explicit_attr
                         (world_of policy_refusing_kernel))) 425984)))
                 PTHREAD_ATTR_FLAG_INHERIT = 0) by (vm_compute; reflexivity).
  pose proof (init_thread_without_inherit target_lp64 425984
                (snd (__allocate_thread target_lp64 explicit_attr
                        (world_of policy_refusing_kernel))) H0) as H.
  vm_compute in H. vm_compute. exact (proj1 H).
Defined.

(** ** What [__allocate_thread] leaves in memory *)

(** The attributes, the bookkeeping structure and the TCB after a
    successful [__allocate_thread], in terms of the mapping it got. *)
Lemma allocate_thread_objects (T : target) (a : pthread_attr_t) (w : world)
    (a2 : pthread_attr_t) (tcb cs : Z) (w1 : world) :
  __allocate_thread T a w = ((0, a2, tcb, cs), w1) ->
  exists m wm,
    __allocate_thread_mapping T (fst (requested_sizes T a)) (snd (requested_sizes T a)) w
      = (m, wm) /\
    mmap_base m <> 0 /\
    let th := static_tls m - thread_page_size T in
    let a1 := if attr_stack_base a =? 0
              then set_stack_base (stack_base m)
                     (set_guard_size (BIONIC_ALIGN (size_bits T) (guard_size a) PAGE_SIZE) a)
              else a in
    tcb = static_tls m + layout_offset_bionic_tcb T /\
    cs = (if attr_stack_base a =? 0 then stack_top m
          else attr_stack_base a + stack_size a) /\
    a2 = set_stack_size (wrap (size_bits T) (cs - attr_stack_base a1)) a1 /\
    attr (thread_at w1 th) = a2 /\
    bionic_tls (thread_at w1 th) = static_tls m + layout_offset_bionic_tls T /\
    tcb_at w1 tcb =
      mk_tcb (if has_tls_slot_self T then tcb else slot_self (tcb_at wm tcb))
        th (stack_chk_guard T) zero_dtv (static_tls m + layout_offset_bionic_tls T) /\
    (attr_stack_base a <> 0 ->
     thread_at w1 th =
       set_mmap (mmap_base m) (mmap_size m)
         (set_attr a2
            (set_bionic_tls (static_tls m + layout_offset_bionic_tls T) zero_thread))).
Proof.
  intros H.
  unfold __allocate_thread in H. unfold bind at 1 in H.
  unfold requested_sizes.
  destruct (attr_stack_base a =? 0) eqn:Hnull.
  - cbn [guard_size stack_size set_guard_size] in H.
    destruct (BIONIC_ALIGN (size_bits T) (guard_size a) PAGE_SIZE <? guard_size a) eqn:Hg.
    { inversion H. }
    unfold bind at 1 in H. cbn [fst snd].
    destruct (__allocate_thread_mapping T (stack_size a)
                (BIONIC_ALIGN (size_bits T) (guard_size a) PAGE_SIZE) w) as [m wm] eqn:Hm.
    exists m, wm. split; [reflexivity |].
    destruct (mmap_base m =? 0) eqn:Hb.
    { inversion H. }
    unfold ret at 1 in H.
    apply Z.eqb_neq in Hb. split; [assumption |].
    destruct wm. thread_unfold H. unfold thread_at, tcb_at, thread_page_size.
    simpl in H. destruct (has_tls_slot_self T); lookups H; inversion H; subst; clear H;
      simpl; rewrite ?Z.eqb_refl; simpl; repeat split; auto;
      intros E; apply Z.eqb_eq in Hnull; contradiction.
  - unfold bind at 1 in H. cbn [fst snd].
    destruct (__allocate_thread_mapping T 0 PTHREAD_GUARD_SIZE w) as [m wm] eqn:Hm.
    exists m, wm. split; [reflexivity |].
    destruct (mmap_base m =? 0) eqn:Hb.
    { inversion H. }
    unfold ret at 1 in H.
    apply Z.eqb_neq in Hb. split; [assumption |].
    destruct wm. thread_unfold H. unfold thread_at, tcb_at, thread_page_size.
    simpl in H. destruct (has_tls_slot_self T); lookups H; inversion H; subst; clear H;
      simpl; rewrite ?Z.eqb_refl; simpl; repeat split; auto.
Qed.

(** X9.  When the caller supplies no stack, [__allocate_thread] rounds
    the requested guard size up to whole pages.  If the rounding wraps
    around the width of [size_t], the call returns [EAGAIN] before any
    system call and leaves the process as it was; otherwise the
    attributes it hands back, and on success the ones recorded for the
    thread, carry the rounded guard size. *)
Theorem allocate_thread_rounds_guard (T : target) (a : pthread_attr_t) (w : world)
    (r : Z) (a2 : pthread_attr_t) (tcb cs : Z) (w1 : world) :
  attr_stack_base a = 0 ->
  0 <= guard_size a <= SIZE_MAX T ->
  __allocate_thread T a w = ((r, a2, tcb, cs), w1) ->
  (SIZE_MAX T < page_round_up (guard_size a) -> r = EAGAIN /\ w1 = w) /\
  (page_round_up (guard_size a) <= SIZE_MAX T ->
   guard_size a2 = page_round_up (guard_size a) /\
   guard_size a <= guard_size a2 < guard_size a + PAGE_SIZE /\
   (r = 0 ->
    guard_size (attr (thread_at w1 (slot_thread_id (tcb_at w1 tcb))))
      = page_round_up (guard_size a))).
Proof.
  intros Hnull Hg H. split.
  - intros Hwrap.
    assert (Hpos : 0 < guard_size a).
    { unfold page_round_up, PAGE_SIZE, SIZE_MAX in *.
      destruct (pow2_size_bits T) as [E | E]; rewrite E in *; lia. }
    assert (Hlt : (BIONIC_ALIGN (size_bits T) (guard_size a) PAGE_SIZE <? guard_size a) = true).
    { apply Z.ltb_lt. apply BIONIC_ALIGN_wraps; lia. }
    unfold __allocate_thread in H. unfold bind at 1 in H.
    rewrite Hnull in H. change (0 =? 0) with true in H.
    cbn [guard_size set_guard_size] in H. rewrite Hlt in H.
    inversion H; subst. split; reflexivity.
  - intros Hfit.
    assert (Hal : BIONIC_ALIGN (size_bits T) (guard_size a) PAGE_SIZE
                  = page_round_up (guard_size a)).
    { apply BIONIC_ALIGN_no_wrap; lia. }
    assert (Hge : guard_size a <= page_round_up (guard_size a)
                  < guard_size a + PAGE_SIZE).
    { unfold page_round_up, PAGE_SIZE. lia. }
    assert (Hg2 : guard_size a2 = page_round_up (guard_size a) /\
                  (r = 0 -> guard_size (attr (thread_at w1 (slot_thread_id (tcb_at w1 tcb))))
                            = page_round_up (guard_size a))).
    { destruct (Z.eq_dec r 0) as [-> | Hr].
      - destruct (allocate_thread_objects T a w a2 tcb cs w1 H)
          as (m & wm & _ & _ & Hobj). cbv zeta in Hobj.
        destruct Hobj as (_ & _ & Ha2 & Hattr & _ & Htcb & _).
        rewrite Hnull in Ha2. change (0 =? 0) with true in Ha2. cbv iota in Ha2.
        assert (E : guard_size a2 = page_round_up (guard_size a)).
        { rewrite Ha2, Hal. destruct a. reflexivity. }
        split; [exact E |]. intros _.
        rewrite Htcb. cbn [slot_thread_id]. rewrite Hattr. exact E.
      - split; [| intros E; contradiction].
        apply allocate_thread_inv in H as Hinv.
        unfold __allocate_thread in H. unfold bind at 1 in H.
        rewrite Hnull in H. change (0 =? 0) with true in H.
        cbn [guard_size set_guard_size stack_size] in H.
        destruct (BIONIC_ALIGN (size_bits T) (guard_size a) PAGE_SIZE <? guard_size a).
        { inversion H; subst. rewrite Hal. destruct a. reflexivity. }
        unfold bind at 1 in H.
        destruct (__allocate_thread_mapping T _ _ w) as [m wm] eqn:Hm.
        destruct (mmap_base m =? 0) eqn:Hb.
        { inversion H; subst. rewrite Hal. destruct a. reflexivity. }
        exfalso.
        destruct Hinv as [(_ & _ & _ & Hlt) | (m' & wm' & Hm' & [(_ & Hz & _) | (E & _)])].
        + lia.
        + unfold requested_sizes in Hm'. rewrite Hnull in Hm'.
          change (0 =? 0) with true in Hm'. cbn [fst snd] in Hm'.
          rewrite Hm in Hm'. inversion Hm'; subst.
          apply Z.eqb_neq in Hb. contradiction.
        + contradiction. }
    destruct Hg2 as (E & E'). rewrite E. repeat split; try lia; try exact E'.
Qed.

Lemma allocate_thread_rounds_guard_witness :
  guard_size (snd (fst (fst (fst (__allocate_thread target_lp64 explicit_attr
                                    (world_of policy_refusing_kernel))))))
  = page_round_up 4096.
Proof.
  refine (proj1 (proj2
    (allocate_thread_rounds_guard target_lp64 explicit_attr
       (world_of policy_refusing_kernel)
       (fst (fst (fst (fst (__allocate_thread target_lp64 explicit_attr
                              (world_of policy_refusing_kernel))))))
       (snd (fst (fst (fst (__allocate_thread target_lp64 explicit_attr
                              (world_of policy_refusing_kernel))))))
       (snd (fst (fst (__allocate_thread target_lp64 explicit_attr
                         (world_of policy_refusing_kernel)))))
       (snd (fst (__allocate_thread target_lp64 explicit_attr
                    (world_of policy_refusing_kernel))))
       (snd (__allocate_thread target_lp64 explicit_attr
               (world_of policy_refusing_kernel)))
       _ _ _) _)).
  - reflexivity.
  - vm_compute. split; discriminate.
  - vm_compute. reflexivity.
  - vm_compute. discriminate.
Defined.

(** X10.  After a successful [__allocate_thread] the control block is
    fully initialised: it sits in the static TLS area right above the
    pages of the bookkeeping structure it points to, carries the
    process-wide stack-protector cookie and the empty DTV, and its
    [bionic_tls] slot and the structure's [bionic_tls] field name the
    same place in that area.  Where the target has a self slot, it holds
    the block's own address. *)
Theorem allocate_thread_installs_tcb (T : target) (a : pthread_attr_t) (w : world)
    (a2 : pthread_attr_t) (tcb cs : Z) (w1 : world) :
  __allocate_thread T a w = ((0, a2, tcb, cs), w1) ->
  let b := tcb_at w1 tcb in
  let th := slot_thread_id b in
  tcb = th + thread_page_size T + layout_offset_bionic_tcb T /\
  slot_stack_guard b = stack_chk_guard T /\
  slot_dtv b = zero_dtv /\
  slot_bionic_tls b = th + thread_page_size T + layout_offset_bionic_tls T /\
  bionic_tls (thread_at w1 th) = slot_bionic_tls b /\
  (has_tls_slot_self T = true -> slot_self b = tcb).
Proof.
  intros H. cbv zeta.
  destruct (allocate_thread_objects T a w a2 tcb cs w1 H) as (m & wm & _ & _ & Hobj).
  cbv zeta in Hobj.
  destruct Hobj as (Htcb & _ & _ & _ & Htls & Hb & _).
  rewrite Hb. cbn [slot_thread_id slot_stack_guard slot_dtv slot_bionic_tls slot_self].
  rewrite Htls. repeat split; try lia.
  intros ->. reflexivity.
Qed.

Lemma allocate_thread_installs_tcb_witness :
  slot_stack_guard
    (tcb_at (snd (__allocate_thread target_lp64 explicit_attr
                    (world_of policy_refusing_kernel)))
       (snd (fst (fst (__allocate_thread target_lp64 explicit_attr
                         (world_of policy_refusing_kernel))))))
  = 3735928559.
Proof.
  refine (proj1 (proj2
    (allocate_thread_installs_tcb target_lp64 explicit_attr
       (world_of policy_refusing_kernel)
       (snd (fst (fst (fst (__allocate_thread target_lp64 explicit_attr
                              (world_of policy_refusing_kernel))))))
       (snd (fst (fst (__allocate_thread target_lp64 explicit_attr
                         (world_of policy_refusing_kernel)))))
       (snd (fst (__allocate_thread target_lp64 explicit_attr
                    (world_of policy_refusing_kernel))))
       (snd (__allocate_thread target_lp64 explicit_attr
               (world_of policy_refusing_kernel)))
       _))).
  vm_compute. reflexivity.
Defined.

(** X11.  With a caller-supplied stack [__allocate_thread] keeps the
    caller's attributes as they are, guard size included, and clears the
    bookkeeping structure before use: whatever its memory held, every
    field other than the attributes, the [bionic_tls] pointer and the
    recorded mapping is zero afterwards.  The child's stack pointer is
    the end of the caller's stack. *)
Theorem caller_stack_structure_cleared (T : target) (a : pthread_attr_t) (w : world)
    (a2 : pthread_attr_t) (tcb cs : Z) (w1 : world) :
  attr_stack_base a <> 0 ->
  0 <= stack_size a <= SIZE_MAX T ->
  0 <= layout_size T <= SIZE_MAX T ->
  __allocate_thread T a w = ((0, a2, tcb, cs), w1) ->
  let th := slot_thread_id (tcb_at w1 tcb) in
  a2 = a /\
  cs = attr_stack_base a + stack_size a /\
  exists base size tls,
    thread_at w1 th = set_mmap base size (set_attr a (set_bionic_tls tls zero_thread)) /\
    mappings w1 = (base, size) :: mappings w.
Proof.
  intros Hnn Hss HL H. cbv zeta.
  destruct (allocate_thread_ok T a w a2 tcb cs w1 Hss HL H)
    as (base & sz & _ & _ & Hmaps & Hmb & Hms & _).
  destruct (allocate_thread_objects T a w a2 tcb cs w1 H) as (m & wm & Hm & Hb & Hobj).
  cbv zeta in Hobj.
  destruct Hobj as (_ & Hcs & Ha2 & _ & _ & Htcb & Hth).
  specialize (Hth Hnn).
  assert (Hnb := proj2 (Z.eqb_neq _ _) Hnn). rewrite Hnb in *.
  assert (Ea : a2 = a).
  { rewrite Ha2, Hcs.
    replace (attr_stack_base a + stack_size a - attr_stack_base a) with (stack_size a) by lia.
    rewrite wrap_small by (unfold SIZE_MAX in Hss; lia).
    destruct a; reflexivity. }
  split; [exact Ea |]. split; [exact Hcs |].
  rewrite Htcb in *. cbn [slot_thread_id] in *. rewrite Hth in *. rewrite Ea in *.
  cbn [thread_mmap_base thread_mmap_size set_mmap] in Hmb, Hms.
  exists base, sz, (static_tls m + layout_offset_bionic_tls T).
  rewrite Hmb, Hms. split; [reflexivity | exact Hmaps].
Qed.

Lemma caller_stack_structure_cleared_witness :
  snd (fst (__allocate_thread target_lp64 own_stack_attr
              (world_of (granting_kernel [5000; 5]))))
  = attr_stack_base own_stack_attr + stack_size own_stack_attr.
Proof.
  refine (proj1 (proj2
    (caller_stack_structure_cleared target_lp64 own_stack_attr
       (world_of (granting_kernel [5000; 5]))
       (snd (fst (fst (fst (__allocate_thread target_lp64 own_stack_attr
                              (world_of (granting_kernel [5000; 5])))))))
       (snd (fst (fst (__allocate_thread target_lp64 own_stack_attr
                         (world_of (granting_kernel [5000; 5]))))))
       (snd (fst (__allocate_thread target_lp64 own_stack_attr
                    (world_of (granting_kernel [5000; 5])))))
       (snd (__allocate_thread target_lp64 own_stack_attr
               (world_of (granting_kernel [5000; 5]))))
       _ _ _ _))).
  - vm_compute. discriminate.
  - vm_compute. split; discriminate.
  - vm_compute. split; discriminate.
  - vm_compute. reflexivity.
Defined.

(** X12.  When [__allocate_thread] allocates the stack itself, the
    recorded stack starts at the base of the thread's mapping, guard
    pages included, and ends at the child's stack pointer, which is
    16-byte aligned.  Its recorded size is the rounded guard plus the
    requested stack, less a random waste below
    [sizeof(pthread_internal_t) + 16] bytes. *)
Theorem allocated_stack_attributes (T : target) (a : pthread_attr_t) (w : world)
    (a2 : pthread_attr_t) (tcb cs : Z) (w1 : world) :
  attr_stack_base a = 0 ->
  0 <= stack_size a <= SIZE_MAX T ->
  0 <= layout_size T <= SIZE_MAX T ->
  0 <= sizeof_pthread_internal_t T ->
  sizeof_pthread_internal_t T + 16 <= stack_size a ->
  __allocate_thread T a w = ((0, a2, tcb, cs), w1) ->
  let t := thread_at w1 (slot_thread_id (tcb_at w1 tcb)) in
  attr t = a2 /\
  attr_stack_base a2 = thread_mmap_base t /\
  attr_stack_base a2 + stack_size a2 = cs /\
  cs mod 16 = 0 /\
  stack_size a2 <= guard_size a2 + stack_size a /\
  guard_size a2 + stack_size a - stack_size a2 < sizeof_pthread_internal_t T + 16.
Proof.
  intros Hnull Hss HL Hsz Hroom H. cbv zeta.
  destruct (requested_sizes_range T a Hss) as [Hrs Hrg].
  destruct (allocate_thread_ok T a w a2 tcb cs w1 Hss HL H)
    as (base & sz & _ & _ & _ & Hmb & _).
  destruct (allocate_thread_objects T a w a2 tcb cs w1 H) as (m & wm & Hm & Hb & Hobj).
  cbv zeta in Hobj.
  destruct Hobj as (_ & Hcs & Ha2 & Hattr & _ & Htcb & _).
  rewrite Htcb in *. cbn [slot_thread_id] in *.
  destruct (stack_top_bounds T _ _ w m wm Hrs Hrg HL Hsz Hm Hb) as (Hal & Hle & Hwaste).
  destruct (allocate_mapping_success T _ _ w m wm Hrs Hrg HL Hm Hb)
    as (_ & page & r2 & Hms). cbv zeta in Hms.
  destruct Hms as (_ & Hfit & Em & Hmaps & _).
  unfold requested_sizes in *. rewrite Hnull in *. change (0 =? 0) with true in *.
  cbn [fst snd] in *. cbv iota in Hcs, Ha2.
  set (gs := BIONIC_ALIGN (size_bits T) (guard_size a) PAGE_SIZE) in *.
  assert (Eb : stack_base m = mmap_base m) by (rewrite Em; reflexivity).
  assert (Hbase : attr_stack_base a2 = mmap_base m).
  { rewrite Ha2, Eb. destruct a; reflexivity. }
  assert (Hg2 : guard_size a2 = gs).
  { rewrite Ha2. destruct a; reflexivity. }
  assert (Hsize : stack_size a2 = wrap (size_bits T) (cs - mmap_base m)).
  { rewrite Ha2, Eb. destruct a; reflexivity. }
  assert (Hpg : 0 <= PTHREAD_GUARD_SIZE) by (unfold PTHREAD_GUARD_SIZE, PAGE_SIZE; lia).
  assert (Hgap := proj1 (gap_size_of_range T (stack_size a) w)).
  assert (Htp := proj1 (proj1 (thread_page_size_range T))).
  assert (Hsum : stack_size a + gs <= SIZE_MAX T).
  { pose proof (page_round_up_ge (stack_size a + gs + gap_size_of T (stack_size a) w
                                   + thread_page_size T + layout_size T + PTHREAD_GUARD_SIZE)).
    lia. }
  rewrite wrap_small in Hsize by (unfold SIZE_MAX in *; rewrite Hcs; lia).
  rewrite Hattr, Hmb, Hbase, Hsize, Hg2, Hcs.
  assert (Hmb' : base = mmap_base m).
  { rewrite <- Hmb.
    destruct (allocate_thread_inv T a w 0 a2 tcb cs w1 H)
      as [(E & _) | (m' & wm' & Hm' & [(E & _) | (_ & _ & Hinv)])]; try discriminate E.
    unfold requested_sizes in Hm'. rewrite Hnull in Hm'. change (0 =? 0) with true in Hm'.
    cbn [fst snd] in Hm'. fold gs in Hm'. rewrite Hm in Hm'. inversion Hm'; subst m' wm'.
    cbv zeta in Hinv. destruct Hinv as (_ & _ & _ & _ & E & _). exact E. }
  rewrite Hmb'.
  repeat split; try lia; try exact Hal.
Qed.

Lemma allocated_stack_attributes_witness :
  snd (fst (__allocate_thread target_lp64 explicit_attr
              (world_of policy_refusing_kernel))) mod 16 = 0.
Proof.
  refine (proj1 (proj2 (proj2 (proj2
    (allocated_stack_attributes target_lp64 explicit_attr
       (world_of policy_refusing_kernel)
       (snd (fst (fst (fst (__allocate_thread target_lp64 explicit_attr
                              (world_of policy_refusing_kernel))))))
       (snd (fst (fst (__allocate_thread target_lp64 explicit_attr
                         (world_of policy_refusing_kernel)))))
       (snd (fst (__allocate_thread target_lp64 explicit_attr
                    (world_of policy_refusing_kernel))))
       (snd (__allocate_thread target_lp64 explicit_attr
               (world_of policy_refusing_kernel)))
       _ _ _ _ _ _))))).
  - reflexivity.
  - vm_compute. split; discriminate.
  - vm_compute. split; discriminate.
  - vm_compute. discriminate.
  - vm_compute. discriminate.
  - vm_compute. reflexivity.
Defined.

(* ================================================================= *)
(** ** The calls of [pthread_create] as a whole *)

(** Every call either stops before a kernel thread exists, with a
    non-zero result and the memory map, the registry and the kernel
    threads as before, or gets its thread from [clone] on a freshly
    allocated mapping. *)
Lemma pthread_create_cases (T : target) (attr_opt : option pthread_attr_t)
    (start : start_fn) (arg : Z) (w : world) :
  0 <= stack_size (thread_attr_of T attr_opt) <= SIZE_MAX T ->
  0 <= layout_size T <= SIZE_MAX T ->
  (exists r, r <> 0 /\
     fst (pthread_create T attr_opt start arg w) = (r, None) /\
     kernel_threads (snd (pthread_create T attr_opt start arg w)) = kernel_threads w /\
     mappings (snd (pthread_create T attr_opt start arg w)) = mappings w /\
     thread_list (snd (pthread_create T attr_opt start arg w)) = thread_list w) \/
  (exists a2 tcb cs w1 t base sz,
     __allocate_thread T (thread_attr_of T attr_opt) w = ((0, a2, tcb, cs), w1) /\
     hd (Err ENOMEM) (clone_replies (replies w1)) = Ok t /\
     mappings w1 = (base, sz) :: mappings w /\
     thread_mmap_base (thread_at w1 (slot_thread_id (tcb_at w1 tcb))) = base /\
     thread_mmap_size (thread_at w1 (slot_thread_id (tcb_at w1 tcb))) = sz /\
     flags (attr (thread_at w1 (slot_thread_id (tcb_at w1 tcb))))
       = flags (thread_attr_of T attr_opt) /\
     sched_view w1 = sched_view w).
Proof.
  intros Hss HL.
  destruct (requested_sizes_range T _ Hss) as [Hrs Hrg].
  destruct (__allocate_thread T (thread_attr_of T attr_opt) w)
    as [[[[r a2] tcb] cs] w1] eqn:Halloc.
  destruct (Z.eq_dec r 0) as [-> | Hr].
  - destruct (allocate_thread_ok T _ w a2 tcb cs w1 Hss HL Halloc)
      as (base & sz & Hpos & _ & Hmaps & Hmb & Hms & Hfl & _ & _ & Hv & _).
    destruct (hd (Err ENOMEM) (clone_replies (replies w1))) as [t | e] eqn:Hclone.
    + right. exists a2, tcb, cs, w1, t, base, sz. repeat split; assumption.
    + left. exists (Z.pos e).
      assert (Hnz : thread_mmap_size (thread_at w1 (slot_thread_id (tcb_at w1 tcb))) <> 0)
        by (rewrite Hms; lia).
      destruct (pthread_create_clone_failed T attr_opt start arg w a2 tcb cs w1 _ e
                  Halloc eq_refl Hnz Hclone) as (Hres & Hrest).
      cbv zeta in Hrest. destruct Hrest as (_ & Hm' & Hk' & Hl' & _).
      destruct (sched_view_fields _ _ Hv) as (Hk & Hl & _).
      rewrite Hres, Hm', Hk', Hl', Hmb, Hms, Hmaps, remove_region_head, Hk, Hl.
      repeat split. lia.
  - left. exists r.
    rewrite (pthread_create_alloc_failed T attr_opt start arg w r a2 tcb cs w1 Halloc Hr).
    cbn [fst snd kernel_threads mappings thread_list set_errno].
    split; [exact Hr |]. split; [reflexivity |].
    destruct (allocate_thread_inv T _ w r a2 tcb cs w1 Halloc)
      as [(_ & -> & _) | (m & wm & Hm & [(_ & Hz & ->) | (E & _)])].
    + repeat split.
    + pose proof (allocate_mapping_frame T _ _ w Hrs Hrg HL) as Hv.
      rewrite Hm in Hv. cbn [snd] in Hv.
      destruct (sched_view_fields _ _ Hv) as (Hk & Hl & _).
      destruct (allocate_mapping_failure T _ _ w m wm Hrs Hrg HL Hm Hz) as (_ & Hmaps & _).
      repeat split; assumption.
    + contradiction.
Qed.

(** X13.  The start-up handshake: from the [clone] call until
    [pthread_create] releases the lock, the new kernel thread exists but
    cannot get past the first step of [__pthread_start], neither before
    nor after [__init_thread]; once the creator has published the thread
    and unlocked, the child gets through and calls the start routine
    with its argument. *)
Theorem child_waits_for_creator (T : target) (th tcb cs : Z) (start : start_fn)
    (arg : Z) (w1 : world) (t : positive) :
  hd (Err ENOMEM) (clone_replies (replies w1)) = Ok t ->
  let w2 := snd (prepare_and_clone th tcb cs start arg w1) in
  let w3 := snd (__init_thread T th w2) in
  let w4 := snd (publish_and_release th w3) in
  In (Z.pos t) (kernel_threads w2) /\
  __pthread_start T th w2 = None /\
  __pthread_start T th w3 = None /\
  exists wc, __pthread_start T th w4 = Some (tt, wc) /\
             runs (trace wc) = EvRun th start arg :: runs (trace w4).
Proof.
  intros Hclone. cbv zeta.
  destruct (prepare_and_clone_ok th tcb cs start arg w1 t Hclone)
    as (Ht2 & Hk2 & _).
  set (w2 := snd (prepare_and_clone th tcb cs start arg w1)) in *.
  destruct (init_thread_frame T th w2) as (Ht3 & _).
  set (w3 := snd (__init_thread T th w2)) in *.
  destruct (publish_and_release_spec th w3) as (Ht4 & _).
  set (w4 := snd (publish_and_release th w3)) in *.
  split; [rewrite Hk2; left; reflexivity |].
  split; [unfold __pthread_start; rewrite Ht2; reflexivity |].
  split; [unfold __pthread_start; rewrite Ht3, Ht2; reflexivity |].
  apply pthread_start_runs; rewrite Ht4, Ht3, Ht2; reflexivity.
Qed.

Lemma child_waits_for_creator_witness :
  __pthread_start target_lp64 425984
    (snd (prepare_and_clone 425984 430144 420000 (user_routine 7) 9
            (world_of (granting_kernel [5000; 5])))) = None.
Proof.
  refine (proj1 (proj2
    (child_waits_for_creator target_lp64 425984 430144 420000 (user_routine 7) 9
       (world_of (granting_kernel [5000; 5])) 77%positive _))).
  reflexivity.
Defined.

(** X14.  Whenever [pthread_create] returns 0, it has written a handle;
    exactly one kernel thread, one mapping and one registry entry are
    new; the bookkeeping structure behind the handle carries the kernel's
    thread id, the caller's start routine and argument, the creator's
    pid, the recorded mapping, the join state the detach flag asks for
    and a released handshake lock; [errno] is as on entry; and the new
    thread, once it runs, calls the start routine with the argument. *)
Theorem pthread_create_success (T : target) (attr_opt : option pthread_attr_t)
    (start : start_fn) (arg : Z) (w : world) :
  0 <= stack_size (thread_attr_of T attr_opt) <= SIZE_MAX T ->
  0 <= layout_size T <= SIZE_MAX T ->
  fst (fst (pthread_create T attr_opt start arg w)) = 0 ->
  let w' := snd (pthread_create T attr_opt start arg w) in
  exists h t base sz,
    snd (fst (pthread_create T attr_opt start arg w)) = Some h /\
    kernel_threads w' = Z.pos t :: kernel_threads w /\
    mappings w' = (base, sz) :: mappings w /\
    thread_list w' = h :: thread_list w /\
    errno w' = errno w /\
    tid (thread_at w' h) = Z.pos t /\
    start_routine (thread_at w' h) = start /\
    start_routine_arg (thread_at w' h) = arg /\
    cached_pid (thread_at w' h) = pid w /\
    thread_mmap_base (thread_at w' h) = base /\
    thread_mmap_size (thread_at w' h) = sz /\
    join_state (thread_at w' h) =
      (if Z.land (flags (thread_attr_of T attr_opt)) PTHREAD_ATTR_FLAG_DETACHED =? 0
       then THREAD_NOT_JOINED else THREAD_DETACHED) /\
    startup_handshake_lock (thread_at w' h) = Unlocked /\
    exists wc, __pthread_start T h w' = Some (tt, wc) /\
               runs (trace wc) = EvRun h start arg :: runs (trace w').
Proof.
  intros Hss HL Hzero. cbv zeta.
  destruct (pthread_create_cases T attr_opt start arg w Hss HL)
    as [(r & Hr & Hres & _) |
        (a2 & tcb & cs & w1 & t & base & sz & Halloc & Hclone & Hmaps & Hmb & Hms & Hfl & Hv)].
  { rewrite Hres in Hzero. cbn [fst] in Hzero. contradiction. }
  set (th := slot_thread_id (tcb_at w1 tcb)) in *.
  assert (Hpid : pid w1 = pid w) by (unfold sched_view in Hv; inversion Hv; reflexivity).
  destruct (sched_view_fields _ _ Hv) as (Hk & Hl & _).
  revert Hzero.
  rewrite (pthread_create_clone_ok T attr_opt start arg w a2 tcb cs w1 th t Halloc eq_refl Hclone).
  cbv zeta.
  destruct (prepare_and_clone_ok th tcb cs start arg w1 t Hclone)
    as (Ht2 & Hk2 & Hl2 & Hm2 & _).
  set (w2 := snd (prepare_and_clone th tcb cs start arg w1)) in *.
  destruct (init_thread_frame T th w2) as (Ht3 & Hk3 & Hl3 & Hm3 & _).
  destruct (__init_thread T th w2) as [ie w3]. cbn [fst snd] in *.
  destruct (publish_and_release_spec th w3) as (Ht4 & Hl4 & Hk4 & Hm4 & _).
  destruct (ie =? 0) eqn:Hie; cbn [negb fst snd].
  2: { intros E. apply Z.eqb_neq in Hie. contradiction. }
  intros _.
  set (w4 := snd (publish_and_release th w3)) in *.
  assert (Hth : thread_at (set_errno (errno w) w4) th = thread_at w4 th) by reflexivity.
  assert (Hfl2 : flags (attr (thread_at w2 th)) = flags (thread_attr_of T attr_opt)).
  { rewrite Ht2. cbn. exact Hfl. }
  exists th, t, base, sz.
  rewrite Hth. cbn [kernel_threads mappings thread_list errno set_errno].
  rewrite Hk4, Hk3, Hk2, Hk, Hm4, Hm3, Hm2, Hmaps, Hl4, Hl3, Hl2, Hl.
  rewrite Ht4, Ht3, Hfl2, Ht2.
  cbn [tid start_routine start_routine_arg cached_pid thread_mmap_base thread_mmap_size
       join_state startup_handshake_lock set_lock set_join_state set_cleanup_stack
       set_tid set_cached_pid set_start_routine_arg set_start_routine].
  rewrite Hpid.
  repeat (split; [first [reflexivity | assumption] |]).
  destruct (pthread_start_runs T th (set_errno (errno w) w4) start arg) as (wc & Hrun & Hruns).
  - rewrite Hth, Ht4, Ht3, Ht2. reflexivity.
  - rewrite Hth, Ht4, Ht3, Ht2. reflexivity.
  - rewrite Hth, Ht4, Ht3, Ht2. reflexivity.
  - exists wc. split; [exact Hrun | exact Hruns].
Qed.

Lemma pthread_create_success_witness :
  fst (fst (pthread_create target_lp64 None (user_routine 7) 9
              (world_of (granting_kernel [5000; 5])))) = 0 /\
  exists h, snd (fst (pthread_create target_lp64 None (user_routine 7) 9
                        (world_of (granting_kernel [5000; 5])))) = Some h.
Proof.
  split; [vm_compute; reflexivity |].
  destruct (pthread_create_success target_lp64 None (user_routine 7) 9
              (world_of (granting_kernel [5000; 5]))) as (h & t & base & sz & Hh & _).
  - vm_compute. split; discriminate.
  - vm_compute. split; discriminate.
  - vm_compute. reflexivity.
  - exists h. exact Hh.
Defined.

(** X15.  [pthread_create] keeps its books on every path.  It returns 0
    exactly when it writes a handle.  Either no kernel thread has been
    added, and then the result is an error and the memory map and the
    registry are as before the call; or exactly one has, and then its
    mapping is the one new mapping, recorded in its bookkeeping
    structure, the thread is registered and its handshake lock is free,
    and if the result is an error the thread is detached with the no-op
    start routine. *)
Theorem pthread_create_keeps_books (T : target) (attr_opt : option pthread_attr_t)
    (start : start_fn) (arg : Z) (w : world) :
  0 <= stack_size (thread_attr_of T attr_opt) <= SIZE_MAX T ->
  0 <= layout_size T <= SIZE_MAX T ->
  let res := fst (pthread_create T attr_opt start arg w) in
  let w' := snd (pthread_create T attr_opt start arg w) in
  (fst res = 0 <-> snd res <> None) /\
  ((fst res <> 0 /\ kernel_threads w' = kernel_threads w /\
    mappings w' = mappings w /\ thread_list w' = thread_list w) \/
   (exists t h base sz,
      kernel_threads w' = Z.pos t :: kernel_threads w /\
      mappings w' = (base, sz) :: mappings w /\
      thread_list w' = h :: thread_list w /\
      thread_mmap_base (thread_at w' h) = base /\
      thread_mmap_size (thread_at w' h) = sz /\
      startup_handshake_lock (thread_at w' h) = Unlocked /\
      (fst res = 0 -> snd res = Some h /\ start_routine (thread_at w' h) = start) /\
      (fst res <> 0 ->
       join_state (thread_at w' h) = THREAD_DETACHED /\
       start_routine (thread_at w' h) = __do_nothing))).
Proof.
  intros Hss HL. cbv zeta.
  destruct (pthread_create_cases T attr_opt start arg w Hss HL)
    as [(r & Hr & Hres & Hk & Hm & Hl) |
        (a2 & tcb & cs & w1 & t & base & sz & Halloc & Hclone & Hmaps & Hmb & Hms & Hfl & Hv)].
  - rewrite Hres. cbn [fst snd]. split.
    + split; [intros E; contradiction | intros E; exfalso; apply E; reflexivity].
    + left. repeat split; assumption.
  - destruct (sched_view_fields _ _ Hv) as (Hk & Hl & _).
    destruct (pthread_create_spawned T attr_opt start arg w a2 tcb cs w1 t Halloc Hclone)
      as (Hres & Hk' & Hl' & Hm' & _ & _ & _ & Hlock & Hstart & _ & Hjoin & Hb' & Hs' & _).
    set (th := slot_thread_id (tcb_at w1 tcb)) in *.
    set (ie := fst (__init_thread T th (snd (prepare_and_clone th tcb cs start arg w1)))) in *.
    rewrite Hres. split.
    + destruct (ie =? 0) eqn:Hie; cbn [fst snd].
      * split; [intros _; discriminate | reflexivity].
      * apply Z.eqb_neq in Hie.
        split; [intros E; contradiction | intros E; exfalso; apply E; reflexivity].
    + right. exists t, th, base, sz.
      rewrite Hk', Hl', Hm', Hb', Hs', Hk, Hl, Hmaps, Hmb, Hms, Hstart.
      repeat (split; [first [reflexivity | assumption] |]).
      destruct (ie =? 0) eqn:Hie; cbn [fst snd]; split.
      * intros _. split; reflexivity.
      * intros E. exfalso. apply E. reflexivity.
      * apply Z.eqb_neq in Hie. intros E. contradiction.
      * apply Z.eqb_neq in Hie. intros _. split; [exact (Hjoin Hie) | reflexivity].
Qed.

Lemma pthread_create_keeps_books_witness :
  fst (fst (pthread_create target_lp64 (Some explicit_attr) (user_routine 7) 9
              (world_of policy_refusing_kernel))) = 0 <->
  snd (fst (pthread_create target_lp64 (Some explicit_attr) (user_routine 7) 9
              (world_of policy_refusing_kernel))) <> None.
Proof.
  refine (proj1
    (pthread_create_keeps_books target_lp64 (Some explicit_attr) (user_routine 7) 9
       (world_of policy_refusing_kernel) _ _)).
  - vm_compute. split; discriminate.
  - vm_compute. split; discriminate.
Defined.

(* ================================================================= *)
(** ** Inherited scheduling *)

(** X16.  On the inherit path the attributes' own policy and priority
    play no part.  If the creator's policy comes back without
    [SCHED_RESET_ON_FORK], the query is the only scheduling call and
    [__init_thread] returns 0.  If it comes back with the flag and the
    parameter query succeeds, the kernel thread is given exactly the
    queried policy and priority, and the result is 0 when that call
    succeeds, and always on a 32-bit target. *)
Theorem init_thread_inherits_from_creator (T : target) (th : Z) (w : world) (p : N) :
  Z.land (flags (attr (thread_at w th))) PTHREAD_ATTR_FLAG_INHERIT <> 0 ->
  hd (Ok 0%N) (getscheduler_replies (replies w)) = Ok p ->
  let r := fst (__init_thread T th w) in
  let w' := snd (__init_thread T th w) in
  (Z.land (Z.of_N p) SCHED_RESET_ON_FORK = 0 ->
   r = 0 /\
   sched_calls (trace w') = EvSchedGetscheduler (Z.of_N p) :: sched_calls (trace w)) /\
  (Z.land (Z.of_N p) SCHED_RESET_ON_FORK <> 0 ->
   forall prio, hd (Ok 0) (getparam_replies (replies w)) = Ok prio ->
   exists code,
     sched_calls (trace w') =
       EvSchedSetscheduler (tid (thread_at w th)) (Z.of_N p) prio code
       :: EvSchedGetparam 0 :: EvSchedGetscheduler (Z.of_N p) :: sched_calls (trace w) /\
     (code = 0 \/ code = -1) /\
     (code = 0 -> r = 0) /\
     (lp64 T = false -> r = 0)).
Proof.
  intros Hinh Hp. cbv zeta.
  pose proof (init_thread_inherit T th w Hinh) as H. cbv zeta in H.
  rewrite Hp in H. split.
  - intros Hz. apply Z.eqb_eq in Hz. rewrite Hz in H. exact H.
  - intros Hnz prio Hprio. apply Z.eqb_neq in Hnz. rewrite Hnz, Hprio in H.
    destruct (hd (Ok tt) (setscheduler_replies (replies w))) as [u | e].
    + destruct H as (Hr & Htr). exists 0. rewrite Htr.
      repeat split; auto.
    + destruct H as (Hr & Htr). exists (-1). rewrite Htr.
      repeat split; auto.
      * intros E. discriminate E.
      * intros E. rewrite E in Hr. exact Hr.
Qed.

Lemma init_thread_inherits_from_creator_witness :
  fst (__init_thread target_lp64 425984
         (snd (__allocate_thread target_lp64 inherit_attr
                 (world_of policy_telling_kernel)))) = 0.
Proof.
  refine (proj1 (proj1
    (init_thread_inherits_from_creator target_lp64 425984
       (snd (__allocate_thread target_lp64 inherit_attr
               (world_of policy_telling_kernel))) 2%N _ _) _)).
  - vm_compute. discriminate.
  - vm_compute. reflexivity.
  - reflexivity.
Defined.

(* ================================================================= *)
(** ** The new thread's side *)

Ltac find_event := simpl; solve [repeat (first [left; reflexivity | right])].

Ltac no_such_event :=
  let sp := fresh "sp" in
  let size := fresh "size" in
  let Hin := fresh "Hin" in
  intros sp size Hin; simpl in Hin;
  repeat (destruct Hin as [Hin | Hin]; [discriminate Hin |]); exact Hin.

(** What [__init_additional_stacks] does, whatever the kernel replies:
    it starts by asking for the signal stack, calls no start routine,
    and leaves the lock, the routine, its argument, the kernel threads
    and the registry alone.  If the signal stack and its guard are
    granted, the stack is registered with [sigaltstack] and recorded;
    otherwise it is not.  Where there is a shadow call stack, x18 is
    written. *)
Lemma additional_stacks_spec (T : target) (th : Z) (w : world) :
  let ws := snd (__init_additional_stacks T th w) in
  (exists evs a,
     trace ws = evs ++ EvMmap (SIGNAL_STACK_SIZE T) PROT_READ_WRITE a :: trace w /\
     runs evs = [] /\
     (aarch64 T = true -> exists scs, In (EvSetX18 scs) evs) /\
     match hd (Err ENOMEM) (mmap_replies (replies w)),
           hd (Ok tt) (mprotect_replies (replies w)) with
     | Ok page, Ok _ =>
         In (EvSigaltstack (PAGE_SIZE * Z.pos page + PTHREAD_GUARD_SIZE)
               (SIGNAL_STACK_SIZE T - PTHREAD_GUARD_SIZE)) evs
     | _, _ => forall sp size, In (EvSigaltstack sp size) evs -> False
     end) /\
  match hd (Err ENOMEM) (mmap_replies (replies w)),
        hd (Ok tt) (mprotect_replies (replies w)) with
  | Ok page, Ok _ =>
      alternate_signal_stack (thread_at ws th) = PAGE_SIZE * Z.pos page /\
      In (PAGE_SIZE * Z.pos page, SIGNAL_STACK_SIZE T) (mappings ws)
  | _, _ =>
      alternate_signal_stack (thread_at ws th) = alternate_signal_stack (thread_at w th)
  end /\
  startup_handshake_lock (thread_at ws th) = startup_handshake_lock (thread_at w th) /\
  start_routine (thread_at ws th) = start_routine (thread_at w th) /\
  start_routine_arg (thread_at ws th) = start_routine_arg (thread_at w th) /\
  kernel_threads ws = kernel_threads w /\
  thread_list ws = thread_list w.
Proof.
  cbv zeta.
  destruct (__init_additional_stacks T th w) as [[] ws] eqn:H. cbn [snd].
  destruct w as [e0 maps0 prots0 kts0 tl0 ths0 tcbs0 tr0 pid0 k0].
  unfold thread_at. simpl.
  unfold __init_additional_stacks, __init_alternate_signal_stack,
    __init_shadow_call_stack in H.
  repeat progress
    unfold bind, ret, log, modify, gets, update_thread, load_thread,
      prctl_set_vma_name, mmap, mprotect, munmap, arc4random_uniform, thread_at in H.
  unfold MAP_FAILED in H.
  child_codes H.
  repeat (child_split H; child_codes H).
  all: inversion H; subst; clear H; simpl; rewrite ?Z.eqb_refl; simpl.
  all: unfold region_eqb; simpl; rewrite ?Z.eqb_refl; simpl.
  all: split;
    [ first [ eexists [], _; split; [reflexivity |]
            | eexists [_], _; split; [reflexivity |]
            | eexists [_; _], _; split; [reflexivity |]
            | eexists [_; _; _], _; split; [reflexivity |]
            | eexists [_; _; _; _], _; split; [reflexivity |]
            | eexists [_; _; _; _; _], _; split; [reflexivity |]
            | eexists [_; _; _; _; _; _], _; split; [reflexivity |]
            | eexists [_; _; _; _; _; _; _], _; split; [reflexivity |]
            | eexists [_; _; _; _; _; _; _; _], _; split; [reflexivity |] ];
      split; [reflexivity |];
      split; [ let Ha := fresh "Ha" in
               intros Ha; first [discriminate Ha | eexists; find_event] |];
      first [find_event | no_such_event]
    | repeat split; try reflexivity; find_event ].
Qed.

(** [__pthread_start] past the lock: the lock is taken, the additional
    stacks are set up, and the start routine found then is called. *)
Lemma pthread_start_unfolded (T : target) (th : Z) (w : world) :
  startup_handshake_lock (thread_at w th) = Unlocked ->
  let ws := snd (__init_additional_stacks T th (snd (lock_lock th w))) in
  __pthread_start T th w =
  Some (tt, emit (EvRun th (start_routine (thread_at ws th))
                    (start_routine_arg (thread_at ws th))) ws).
Proof.
  intros Hlock. cbv zeta. unfold __pthread_start. rewrite Hlock.
  unfold bind at 1. destruct (lock_lock th w) as [[] wl]. cbn [snd].
  unfold bind at 1. destruct (__init_additional_stacks T th wl) as [[] ws]. cbn [snd].
  reflexivity.
Qed.

(** X17.  Once released, [__pthread_start] takes the handshake lock and
    keeps it, sets up the additional stacks and only then calls the
    start routine: the call is the last thing recorded, and the only
    call of a start routine.  What lies between the lock and the call
    starts with the request for the signal stack; if the kernel grants
    that stack and its guard, it is registered with [sigaltstack] and
    recorded in the thread, and otherwise it is not; where there is a
    shadow call stack, x18 is written.  The function adds no kernel
    thread and no registry entry and leaves the routine and its argument
    in place. *)
Theorem pthread_start_prepares_then_runs (T : target) (th : Z) (w : world) :
  startup_handshake_lock (thread_at w th) = Unlocked ->
  exists wc evs,
    __pthread_start T th w = Some (tt, wc) /\
    trace wc =
      EvRun th (start_routine (thread_at w th)) (start_routine_arg (thread_at w th))
      :: evs ++ EvLock th :: trace w /\
    runs evs = [] /\
    startup_handshake_lock (thread_at wc th) = LockedWithoutWaiter /\
    __pthread_start T th wc = None /\
    start_routine (thread_at wc th) = start_routine (thread_at w th) /\
    start_routine_arg (thread_at wc th) = start_routine_arg (thread_at w th) /\
    kernel_threads wc = kernel_threads w /\
    thread_list wc = thread_list w /\
    (exists rest a, evs = rest ++ [EvMmap (SIGNAL_STACK_SIZE T) PROT_READ_WRITE a]) /\
    (aarch64 T = true -> exists scs, In (EvSetX18 scs) evs) /\
    match hd (Err ENOMEM) (mmap_replies (replies w)),
          hd (Ok tt) (mprotect_replies (replies w)) with
    | Ok page, Ok _ =>
        In (EvSigaltstack (PAGE_SIZE * Z.pos page + PTHREAD_GUARD_SIZE)
              (SIGNAL_STACK_SIZE T - PTHREAD_GUARD_SIZE)) evs /\
        alternate_signal_stack (thread_at wc th) = PAGE_SIZE * Z.pos page /\
        In (PAGE_SIZE * Z.pos page, SIGNAL_STACK_SIZE T) (mappings wc)
    | _, _ =>
        (forall sp size, In (EvSigaltstack sp size) evs -> False) /\
        alternate_signal_stack (thread_at wc th) = alternate_signal_stack (thread_at w th)
    end.
Proof.
  intros Hlock.
  rewrite (pthread_start_unfolded T th w Hlock). cbv zeta.
  pose proof (additional_stacks_spec T th (snd (lock_lock th w))) as Hs. cbv zeta in Hs.
  set (wl := snd (lock_lock th w)) in *.
  assert (Hwl : thread_at wl th = set_lock LockedWithoutWaiter (thread_at w th) /\
                trace wl = EvLock th :: trace w /\
                replies wl = replies w /\
                kernel_threads wl = kernel_threads w /\
                thread_list wl = thread_list w).
  { subst wl. destruct w. unfold thread_at. do 2 (try world_run). repeat split. }
  destruct Hwl as (Htl & Htrl & Hrl & Hkl & Hll).
  rewrite Hrl, Htl in Hs.
  cbn [startup_handshake_lock start_routine start_routine_arg alternate_signal_stack set_lock]
    in Hs.
  set (ws := snd (__init_additional_stacks T th wl)) in *.
  destruct Hs as ((evs & a & Htr & Hruns & Hx18 & Hsig) & Halt & Hlk & Hsr & Hsa & Hk & Hl).
  assert (Hth : forall e, thread_at (emit e ws) th = thread_at ws th) by reflexivity.
  assert (Hmp : forall e, mappings (emit e ws) = mappings ws) by reflexivity.
  exists (emit (EvRun th (start_routine (thread_at ws th))
                  (start_routine_arg (thread_at ws th))) ws),
         (evs ++ [EvMmap (SIGNAL_STACK_SIZE T) PROT_READ_WRITE a]).
  rewrite Hth, Hmp.
  assert (Hruns' : runs (evs ++ [EvMmap (SIGNAL_STACK_SIZE T) PROT_READ_WRITE a]) = []).
  { unfold runs in *. rewrite filter_app, Hruns. reflexivity. }
  split; [reflexivity |].
  split.
  { cbn [trace emit]. rewrite Hsr, Hsa, Htr, Htrl, <- app_assoc. reflexivity. }
  split; [exact Hruns' |].
  split; [exact Hlk |].
  split; [apply pthread_start_blocked; rewrite Hth; exact Hlk |].
  split; [exact Hsr |].
  split; [exact Hsa |].
  split; [cbn [kernel_threads emit]; rewrite <- Hkl; exact Hk |].
  split; [cbn [thread_list emit]; rewrite <- Hll; exact Hl |].
  split; [exists evs, a; reflexivity |].
  split.
  { intros Ha. destruct (Hx18 Ha) as (scs & Hin). exists scs.
    apply in_or_app. left. exact Hin. }
  destruct (hd (Err ENOMEM) (mmap_replies (replies w))) as [page | e].
  - destruct (hd (Ok tt) (mprotect_replies (replies w))) as [u | e].
    + destruct Halt as (Halt & Hmap).
      split; [apply in_or_app; left; exact Hsig |]. split; assumption.
    + split; [| exact Halt].
      intros sp size Hin. apply in_app_or in Hin. destruct Hin as [Hin | [E | []]].
      * exact (Hsig sp size Hin).
      * discriminate E.
  - split; [| exact Halt].
    intros sp size Hin. apply in_app_or in Hin. destruct Hin as [Hin | [E | []]].
    + exact (Hsig sp size Hin).
    + discriminate E.
Qed.

Lemma pthread_start_prepares_then_runs_witness :
  exists wc,
    __pthread_start target_lp64 4096 (world_of (granting_kernel [5000; 5])) = Some (tt, wc).
Proof.
  destruct (pthread_start_prepares_then_runs target_lp64 4096
              (world_of (granting_kernel [5000; 5]))) as (wc & evs & H & _).
  - reflexivity.
  - exists wc. exact H.
Defined.
